(** * OCR scripts: section locator, table recovery and page aggregation

    A shallow embedding of the Python scripts of the repository:

    - [extract_fullcontent_to_excel.py]  (module [FullContent]),
    - [complete_pdf_extractor.py]        (module [Extractor]),
    - [csv_to_excel_converter.py], [CSV_To_Excel.py] and the command-line
      entry points                       (module [Scripts]).

    Python [str] values are lists of characters.  A character is a code
    point below 256, held in the 8-bit [ascii] type; the character classes
    below are those of Python on these code points (ASCII and the Latin-1
    supplement).
    Exceptions are explicit: a computation that can raise returns a
    [result]. *)

From Stdlib Require Import Ascii String List ZArith Lia Bool DecimalString.
From stdpp Require Import gmap strings list.

(** ** Python values and exceptions *)

Abbreviation text := (list ascii).

(** A literal: ["abc"] as a Python [str]. *)
Definition str (s : string) : text := list_ascii_of_string s.

Inductive exn_kind :=
| IndexError | KeyError | TypeError | ValueError | ParserError
| FileNotFoundError | RemoteError | IllegalCharacterError.

Record exn := Exn { exn_class : exn_kind; exn_msg : string }.

Inductive result (A : Type) :=
| Ok (a : A)
| Raise (e : exn).
Arguments Ok {A} a.
Arguments Raise {A} e.

Definition bind {A B} (m : result A) (k : A → result B) : result B :=
  match m with
  | Ok a => k a
  | Raise e => Raise e
  end.

Notation "'let*' x ':=' m 'in' k" := (bind m (fun x => k))
  (at level 10, x pattern, m at level 100, k at level 200).

Definition raised {A} (m : result A) : bool :=
  match m with Ok _ => false | Raise _ => true end.

(** ** [str] methods *)

Module PyStr.

Definition code (c : ascii) : nat := nat_of_ascii c.

Definition in_range (lo hi : nat) (c : ascii) : bool :=
  (lo <=? code c) && (code c <=? hi).

(** [c.isspace()]: TAB, LF, VT, FF, CR, FS, GS, RS, US, the space, and
    above the ASCII range NEL (133) and the no-break space (160).  The
    class [\s] of the [re] module is the same. *)
Definition isspace (c : ascii) : bool :=
  in_range 9 13 c || in_range 28 32 c || in_range 133 133 c
  || in_range 160 160 c.

(** The line boundaries of [str.splitlines]: LF, VT, FF, CR, FS, GS, RS
    and NEL. *)
Definition islinebreak (c : ascii) : bool :=
  in_range 10 13 c || in_range 28 30 c || in_range 133 133 c.

(** The ASCII ranges [A-Z], [a-z] and [0-9]. *)
Definition isupper (c : ascii) : bool := in_range 65 90 c.
Definition islower (c : ascii) : bool := in_range 97 122 c.
Definition isdigit (c : ascii) : bool := in_range 48 57 c.

(** The letters above the ASCII range: the ordinal indicators, the micro
    sign, and the accented letters ([215] and [247] are the multiplication
    and the division sign). *)
Definition isalpha_latin1 (c : ascii) : bool :=
  in_range 170 170 c || in_range 181 181 c || in_range 186 186 c
  || in_range 192 214 c || in_range 216 246 c || in_range 248 255 c.

(** [c.isalpha()] *)
Definition isalpha (c : ascii) : bool :=
  isupper c || islower c || isalpha_latin1 c.

(** The characters above the ASCII range that count as digits or numbers:
    the superscripts 1, 2, 3 and the fractions. *)
Definition isnumeric_latin1 (c : ascii) : bool :=
  in_range 178 179 c || in_range 185 185 c || in_range 188 190 c.

(** The class [\w] of the [re] module: the alphanumeric characters and
    the underscore. *)
Definition isword (c : ascii) : bool :=
  isalpha c || isdigit c || isnumeric_latin1 c || Ascii.eqb c "_"%char.

(** [c.lower()]: the ASCII capitals and the capitals [192]-[222] (but the
    multiplication sign) move up by 32. *)
Definition lower_char (c : ascii) : ascii :=
  if isupper c || (in_range 192 222 c && negb (in_range 215 215 c))
  then ascii_of_nat (code c + 32) else c.

Definition lower (s : text) : text := map lower_char s.

Fixpoint lstrip_by (p : ascii → bool) (s : text) : text :=
  match s with
  | c :: s' => if p c then lstrip_by p s' else s
  | [] => []
  end.

Definition rstrip_by (p : ascii → bool) (s : text) : text :=
  reverse (lstrip_by p (reverse s)).

Definition strip_by (p : ascii → bool) (s : text) : text :=
  rstrip_by p (lstrip_by p s).

(** [s.strip()] *)
Definition strip (s : text) : text := strip_by isspace s.

(** [s.strip(chars)] *)
Definition strip_chars (chars : text) (s : text) : text :=
  strip_by (fun c => existsb (Ascii.eqb c) chars) s.

(** [not s] for a string: the empty string is falsy. *)
Definition is_empty (s : text) : bool :=
  match s with [] => true | _ => false end.

(** [not s.strip()] *)
Definition isblank (s : text) : bool := is_empty (strip s).

Fixpoint eqb (s t : text) : bool :=
  match s, t with
  | [], [] => true
  | c :: s', d :: t' => Ascii.eqb c d && eqb s' t'
  | _, _ => false
  end.

Fixpoint startswith (p s : text) : bool :=
  match p, s with
  | [], _ => true
  | c :: p', d :: s' => Ascii.eqb c d && startswith p' s'
  | _ :: _, [] => false
  end.

(** [c in s] for a one-character [c]. *)
Definition contains (c : ascii) (s : text) : bool := existsb (Ascii.eqb c) s.

(** [s.count(c)] for a one-character [c]. *)
Definition count (c : ascii) (s : text) : nat :=
  length (filter (fun d => Ascii.eqb c d = true) s).

(** [sep.join(parts)] *)
Fixpoint join (sep : text) (parts : list text) : text :=
  match parts with
  | [] => []
  | [p] => p
  | p :: ps => p ++ sep ++ join sep ps
  end.

(** [s.split(c, 1)]: the parts before and after the first [c]; a single
    part when [c] does not occur. *)
Fixpoint split_once (c : ascii) (s : text) : text * option text :=
  match s with
  | [] => ([], None)
  | d :: s' =>
      if Ascii.eqb c d then ([], Some s')
      else let '(a, b) := split_once c s' in (d :: a, b)
  end.

(** [s.splitlines()]: lines end at a line boundary, CR LF counts once, and
    a final boundary opens no further line. *)
Fixpoint splitlines (s : text) : list text :=
  match s with
  | [] => []
  | c :: s' =>
      if islinebreak c then
        match s' with
        | d :: s'' =>
            if Ascii.eqb c "013"%char && Ascii.eqb d "010"%char
            then [] :: splitlines s''
            else [] :: splitlines s'
        | [] => [[]]
        end
      else
        match splitlines s' with
        | [] => [[c]]
        | l :: ls => (c :: l) :: ls
        end
  end.

(** A string that [splitlines] leaves in one piece. *)
Definition single_line (s : text) : Prop :=
  Forall (fun c => islinebreak c = false) s.

(** [s[:n]] *)
Definition slice_to (n : N) (s : text) : text := take (N.to_nat n) s.

End PyStr.

(** ** The [re] module

    A pattern is a syntax tree; [ends r c] lists, in the order in which a
    backtracking matcher tries them, the positions at which a match of [r]
    that starts at [c] can end.  A position is a cursor: the character
    before it (if any) and the input left. *)

Module Re.

Inductive regex :=
| Eps
| Chr (p : ascii → bool)
| Seq (a b : regex)
| Alt (a b : regex)
| Star (a : regex)
| Bol
| Eol
| WordB.

Abbreviation cursor := (option ascii * text)%type.

Definition start (s : text) : cursor := (None, s).

Definition is_word_at (o : option ascii) : bool :=
  match o with Some c => PyStr.isword c | None => false end.

Fixpoint star_ends (step : cursor → list cursor) (fuel : nat) (c : cursor)
  : list cursor :=
  match fuel with
  | 0 => [c]
  | S f =>
      flat_map (fun c' => if length c'.2 <? length c.2
                          then star_ends step f c' else [])
               (step c) ++ [c]
  end.

Fixpoint ends (r : regex) (c : cursor) : list cursor :=
  match r with
  | Eps => [c]
  | Chr p =>
      match c.2 with
      | x :: rest => if p x then [(Some x, rest)] else []
      | [] => []
      end
  | Seq a b => flat_map (ends b) (ends a c)
  | Alt a b => ends a c ++ ends b c
  | Star a => star_ends (ends a) (S (length c.2)) c
  | Bol => match c.1 with None => [c] | Some _ => [] end
  | Eol =>
      match c.2 with
      | [] => [c]
      | [x] => if Ascii.eqb x "010"%char then [c] else []
      | _ => []
      end
  | WordB =>
      if xorb (is_word_at c.1) (is_word_at (head c.2)) then [c] else []
  end.

(** The same as a relation: [matches r c c'] when a match of [r] that
    starts at [c] can end at [c'].  An iteration of a star consumes
    input. *)
Inductive matches : regex → cursor → cursor → Prop :=
| M_Eps c : matches Eps c c
| M_Chr p prev x rest :
    p x = true → matches (Chr p) (prev, x :: rest) (Some x, rest)
| M_Seq a b c c' c'' :
    matches a c c' → matches b c' c'' → matches (Seq a b) c c''
| M_AltL a b c c' : matches a c c' → matches (Alt a b) c c'
| M_AltR a b c c' : matches b c c' → matches (Alt a b) c c'
| M_StarNil a c : matches (Star a) c c
| M_StarCons a c c' c'' :
    matches a c c' → length c'.2 < length c.2 → matches (Star a) c' c'' →
    matches (Star a) c c''
| M_Bol s : matches Bol (None, s) (None, s)
| M_EolEnd prev : matches Eol (prev, []) (prev, [])
| M_EolLF prev : matches Eol (prev, ["010"%char]) (prev, ["010"%char])
| M_WordB c :
    xorb (is_word_at c.1) (is_word_at (head c.2)) = true → matches WordB c c.

(** Patterns that do not look at what follows the match ([$], [\b]), and
    patterns that do not look at what precedes it either ([^]). *)
Fixpoint no_lookahead (r : regex) : bool :=
  match r with
  | Eps | Chr _ | Bol => true
  | Seq a b | Alt a b => no_lookahead a && no_lookahead b
  | Star a => no_lookahead a
  | Eol | WordB => false
  end.

Fixpoint no_anchor (r : regex) : bool :=
  match r with
  | Eps | Chr _ => true
  | Seq a b | Alt a b => no_anchor a && no_anchor b
  | Star a => no_anchor a
  | Bol | Eol | WordB => false
  end.

(** Pattern syntax. *)
Definition chr (x : ascii) : regex := Chr (Ascii.eqb x).
Definition chr_i (x : ascii) : regex :=
  Chr (fun c => Ascii.eqb (PyStr.lower_char c) (PyStr.lower_char x)).
Definition Plus (a : regex) : regex := Seq a (Star a).
Definition Opt (a : regex) : regex := Alt a Eps.
Fixpoint seqs (rs : list regex) : regex :=
  match rs with
  | [] => Eps
  | [r] => r
  | r :: rs' => Seq r (seqs rs')
  end.
Fixpoint alts (rs : list regex) : regex :=
  match rs with
  | [] => Seq (Chr (fun _ => false)) Eps
  | [r] => r
  | r :: rs' => Alt r (alts rs')
  end.
Definition lit (s : string) : regex := seqs (map chr (str s)).
Definition lit_i (s : string) : regex := seqs (map chr_i (str s)).
(** [a{0,n}] and [a{lo,hi}], greedy. *)
Fixpoint upto (n : nat) (a : regex) : regex :=
  match n with
  | 0 => Eps
  | S k => Alt (Seq a (upto k a)) Eps
  end.
Fixpoint rep (lo : nat) (a : regex) (tail : regex) : regex :=
  match lo with
  | 0 => tail
  | S k => Seq a (rep k a tail)
  end.
Definition rep_range (lo hi : nat) (a : regex) : regex :=
  rep lo a (upto (hi - lo) a).
Definition rep_min (lo : nat) (a : regex) : regex := rep lo a (Star a).

Definition space : regex := Chr PyStr.isspace.
(** [.] without [re.S]: any character but the line feed. *)
Definition dot : regex := Chr (fun c => negb (Ascii.eqb c "010"%char)).

(** All the positions of a string, left to right. *)
Fixpoint cursors (prev : option ascii) (s : text) : list cursor :=
  (prev, s) :: match s with
               | [] => []
               | x :: s' => cursors (Some x) s'
               end.

(** [re.match(r, s)], [re.fullmatch(r, s)], [re.search(r, s)] as truth
    values. *)
Definition pmatch (r : regex) (s : text) : bool :=
  match ends r (start s) with [] => false | _ => true end.
Definition fullmatch (r : regex) (s : text) : bool :=
  existsb (fun c => PyStr.is_empty c.2) (ends r (start s)).
Definition search (r : regex) (s : text) : bool :=
  existsb (fun c => match ends r c with [] => false | _ => true end)
          (cursors None s).

(** [re.split(r, s)] for a pattern without groups.  The patterns of these
    scripts match at least one character; a position where the first
    match is empty is passed over. *)
Fixpoint split_go (r : regex) (fuel : nat) (c : cursor) (piece : text)
  : list text :=
  match fuel with
  | 0 => [reverse piece ++ c.2]
  | S f =>
      let advance :=
        match c.2 with
        | [] => [reverse piece]
        | x :: rest => split_go r f (Some x, rest) (x :: piece)
        end in
      match ends r c with
      | c' :: _ =>
          if length c'.2 <? length c.2
          then reverse piece :: split_go r f c' []
          else advance
      | [] => advance
      end
  end.

Definition split (r : regex) (s : text) : list text :=
  split_go r (S (length s)) (start s) [].

End Re.

(** ** The [pandas] calls of the scripts

    A data frame is its column labels and its rows; a cell is a string or
    missing ([None], pandas' NaN).  The row index is not represented.  The
    CSV reader is a parameter of the development ([Engine]): the scripts
    are embedded over any reader, and [python_engine] is one concrete
    reader used to run them on quote-free text. *)

Module Pandas.

Abbreviation cell := (option text).

Record DataFrame := mkDataFrame {
  columns : list text;
  rows : list (list cell)
}.

(** [df.empty]: some axis has length 0. *)
Definition empty (df : DataFrame) : bool :=
  match columns df, rows df with
  | _ :: _, _ :: _ => false
  | _, _ => true
  end.

(** The keyword arguments that vary between the [pd.read_csv] calls
    (the python engine and the default quote character are the same in
    all). *)
Record read_opts := mkOpts { sep : ascii; skipinitialspace : bool }.

Class Engine := { read_csv : read_opts → text → result DataFrame }.

Definition width (data : list (list cell)) : nat :=
  foldr (fun r w => Nat.max (length r) w) 0 data.

Definition pad (w : nat) (r : list cell) : list cell :=
  r ++ replicate (w - length r) None.

Definition nat_to_string (n : nat) : string :=
  DecimalString.NilEmpty.string_of_uint (Nat.to_uint n).

(** [pd.DataFrame(data, columns=cols)] for a list of rows: short rows are
    padded with missing cells, and the number of labels must be the
    width of the widest row. *)
Definition of_rows (data : list (list text)) (cols : list text)
  : result DataFrame :=
  let cells := map (map Some) data in
  match data with
  | [] => Ok (mkDataFrame cols [])
  | _ =>
      let w := width cells in
      if w =? length cols
      then Ok (mkDataFrame cols (map (pad w) cells))
      else Raise (Exn ValueError
                    (nat_to_string (length cols) +:+ " columns passed, passed data had "
                     +:+ nat_to_string w +:+ " columns"))
  end.

(** [pd.DataFrame({name: values})] *)
Definition of_column (name : text) (values : list text) : DataFrame :=
  mkDataFrame [name] (map (fun v => [Some v]) values).

(** [df[c]] for the [j]-th column, as a list of cells. *)
Definition column (df : DataFrame) (j : nat) : list cell :=
  map (fun r => nth j r None) (rows df).

(** [df[c].notna().any()] *)
Definition notna_any (cs : list cell) : bool :=
  existsb (fun c => match c with Some _ => true | None => false end) cs.

Fixpoint indices_where {A} (p : nat → A → bool) (j : nat) (l : list A)
  : list nat :=
  match l with
  | [] => []
  | x :: l' => (if p j x then [j] else []) ++ indices_where p (S j) l'
  end.

(** [df.loc[:, [c for c in df.columns if keep c]]] *)
Definition select (keep : nat → text → bool) (df : DataFrame) : DataFrame :=
  let js := indices_where keep 0 (columns df) in
  mkDataFrame (map (fun j => nth j (columns df) []) js)
              (map (fun r => map (fun j => nth j r None) js) (rows df)).

(** [df.columns = [f c for c in df.columns]] *)
Definition rename (f : text → text) (df : DataFrame) : DataFrame :=
  mkDataFrame (map f (columns df)) (rows df).

(** [df.dropna(how="all")] *)
Definition dropna_all (df : DataFrame) : DataFrame :=
  mkDataFrame (columns df) (filter (fun r => notna_any r = true) (rows df)).

(** *** A reader for quote-free text

    The structure of what the python engine of [pd.read_csv] does on
    text without quote characters: blank lines are skipped, the first
    line is the header (an empty label becomes [Unnamed: j]), when the
    first data row is longer than the header its leading fields are
    taken as the row index, a later row with more fields than that is a
    [ParserError], short rows are padded and an empty field is missing.
    Quoting, duplicate labels, other missing-value spellings and the
    conversion of numeric columns are not reproduced. *)

Fixpoint split_on (c : ascii) (s : text) : list text :=
  match s with
  | [] => [[]]
  | d :: s' =>
      if Ascii.eqb c d then [] :: split_on c s'
      else match split_on c s' with
           | [] => [[d]]
           | f :: fs => (d :: f) :: fs
           end
  end.

Definition fields (o : read_opts) (line : text) : list text :=
  map (fun f => if skipinitialspace o
                then PyStr.lstrip_by (Ascii.eqb " "%char) f else f)
      (split_on (sep o) line).

Definition is_blank_record (fs : list text) : bool :=
  match fs with
  | [] => true
  | [f] => PyStr.isblank f
  | _ => false
  end.

Definition label (j : nat) (f : text) : text :=
  match f with
  | [] => str ("Unnamed: " +:+ nat_to_string j)
  | _ => f
  end.

Definition to_cell (f : text) : cell :=
  match f with [] => None | _ => Some f end.

Fixpoint first_long (limit : nat) (line_no : nat) (rs : list (list text))
  : option (nat * nat) :=
  match rs with
  | [] => None
  | r :: rs' =>
      if limit <? length r then Some (line_no, length r)
      else first_long limit (S line_no) rs'
  end.

Definition python_read_csv (o : read_opts) (t : text) : result DataFrame :=
  let records :=
    filter (fun fs => is_blank_record fs = false)
           (map (fields o) (PyStr.splitlines t)) in
  match records with
  | [] => Raise (Exn ParserError "No columns to parse from file")
  | header :: data =>
      let ncols := length header in
      let implicit :=
        match data with
        | r :: _ => length r - ncols
        | [] => 0
        end in
      let col_len := ncols + implicit in
      match first_long col_len 2 data with
      | Some (line_no, saw) =>
          Raise (Exn ParserError
                   ("Expected " +:+ nat_to_string col_len +:+ " fields in line "
                    +:+ nat_to_string line_no +:+ ", saw " +:+ nat_to_string saw))
      | None =>
          Ok (mkDataFrame
                (imap label header)
                (map (fun r => pad ncols (map to_cell (drop implicit r))) data))
      end
  end.

Definition python_engine : Engine := {| read_csv := python_read_csv |}.

(** *** A reader that follows the quotes

    The records of the [csv] module as the python engine sets it up
    (strict, the double quote as quote character, a doubled quote standing
    for a quote): a quote opens a quoted field only at the start of a field;
    inside a quoted field the delimiter and the line feed are ordinary
    characters; after the closing quote only a delimiter or a line feed
    may follow.  The text is taken to hold no carriage return.  The frame
    is then made of the records as [python_read_csv] makes it of the
    lines. *)
Inductive csv_state :=
| StartRecord | StartField | InField | InQuoted | QuoteInQuoted.

Definition QUOTE : ascii := "034"%char.

(** [field] holds the characters of the current field and [record] the
    fields of the current record, both last first. *)
Fixpoint csv_records (o : read_opts) (st : csv_state) (field : text)
    (record : list text) (s : text) : result (list (list text)) :=
  let end_field := reverse field :: record in
  match s with
  | [] =>
      match st with
      | StartRecord => Ok []
      | StartField | InField | QuoteInQuoted => Ok [reverse end_field]
      | InQuoted => Raise (Exn ParserError "unexpected end of data")
      end
  | c :: s' =>
      let newline := Ascii.eqb c "010"%char in
      let delimiter := Ascii.eqb c (sep o) in
      let quote := Ascii.eqb c QUOTE in
      let end_record (fs : list text) :=
        let* rs := csv_records o StartRecord [] [] s' in Ok (fs :: rs) in
      match st with
      | StartRecord | StartField =>
          if newline then
            end_record (match st with
                        | StartRecord => []
                        | _ => reverse end_field
                        end)
          else if quote then csv_records o InQuoted [] record s'
          else if skipinitialspace o && Ascii.eqb c " "%char
               then csv_records o StartField [] record s'
          else if delimiter then csv_records o StartField [] end_field s'
          else csv_records o InField [c] record s'
      | InField =>
          if newline then end_record (reverse end_field)
          else if delimiter then csv_records o StartField [] end_field s'
          else csv_records o InField (c :: field) record s'
      | InQuoted =>
          if quote then csv_records o QuoteInQuoted field record s'
          else csv_records o InQuoted (c :: field) record s'
      | QuoteInQuoted =>
          if quote then csv_records o InQuoted (c :: field) record s'
          else if delimiter then csv_records o StartField [] end_field s'
          else if newline then end_record (reverse end_field)
          else Raise (Exn ParserError
                        ("'" +:+ String (sep o) "' expected after '"
                         +:+ String QUOTE "'"))
      end
  end.

Definition quoting_read_csv (o : read_opts) (t : text) : result DataFrame :=
  let* all_records := csv_records o StartRecord [] [] t in
  let records := filter (fun fs => is_blank_record fs = false) all_records in
  match records with
  | [] => Raise (Exn ParserError "No columns to parse from file")
  | header :: data =>
      let ncols := length header in
      let implicit :=
        match data with
        | r :: _ => length r - ncols
        | [] => 0
        end in
      let col_len := ncols + implicit in
      match first_long col_len 2 data with
      | Some (line_no, saw) =>
          Raise (Exn ParserError
                   ("Expected " +:+ nat_to_string col_len +:+ " fields in line "
                    +:+ nat_to_string line_no +:+ ", saw " +:+ nat_to_string saw))
      | None =>
          Ok (mkDataFrame
                (imap label header)
                (map (fun r => pad ncols (map to_cell (drop implicit r))) data))
      end
  end.

Definition quoting_engine : Engine := {| read_csv := quoting_read_csv |}.

End Pandas.

(** ** [extract_fullcontent_to_excel.py] *)

Module FullContent.

Import Re.

Definition FULL_CONTENT_KEYS : list text :=
  map str [ "COMPLETE EXTRACTED CONTENT"; "FULL CONTENT"; "FULL_CONTENT";
            "FULL_CONTENTS"; "COMPLETE EXTRACTED CONTENTS";
            "COMPLETE CONTENT"; "FULL_CONTENT_SECTION"; "full_content" ].

Definition OUTPUT_XLSX_SUFFIX : text := str "_fullcontent.xlsx".
Definition OUTPUT_CSV_SUFFIX : text := str "_fullcontent_table.csv".

(** *** The patterns of the script *)

(** [[A-Z0-9 \-_/&]{2,120}] *)
Definition header_char (c : ascii) : bool :=
  PyStr.isupper c || PyStr.isdigit c || PyStr.contains c (str " -_/&").
Definition re_caps : regex := rep_range 2 120 (Chr header_char).

(** [\b(CONTENT|COMPLETE|PAGE|EXTRACTED|FULL)\b] *)
Definition re_header_word : regex :=
  seqs [ WordB;
         alts (map lit ["CONTENT"; "COMPLETE"; "PAGE"; "EXTRACTED"; "FULL"]);
         WordB ].

(** [\b(METADATA|SUMMARY|WELL|STANDARDS|SAMPLES|PAGE CONTENT|COMPLETE|FULL|SETTINGS)\b] *)
Definition re_next_word : regex :=
  seqs [ WordB;
         alts (map lit ["METADATA"; "SUMMARY"; "WELL"; "STANDARDS"; "SAMPLES";
                        "PAGE CONTENT"; "COMPLETE"; "FULL"; "SETTINGS"]);
         WordB ].

(** [\b(COMPLETE|EXTRACTED|FULL)\b] with [re.I] *)
Definition re_complete_i : regex :=
  seqs [ WordB; alts (map lit_i ["COMPLETE"; "EXTRACTED"; "FULL"]); WordB ].

(** [\b(CONTENT|CONTENTs|PAGE)\b] with [re.I] *)
Definition re_content_i : regex :=
  seqs [ WordB; alts (map lit_i ["CONTENT"; "CONTENTs"; "PAGE"]); WordB ].

(** [^\s*\|?\s*:?-{2,}\s*(\|.+)?$] *)
Definition re_separator : regex :=
  seqs [ Bol; Star space; Opt (chr "|"); Star space; Opt (chr ":");
         rep_min 2 (chr "-"); Star space;
         Opt (Seq (chr "|") (Plus dot)); Eol ].

(** [^\s*[\w \-()\/]+:\s*] *)
Definition key_char (c : ascii) : bool :=
  PyStr.isword c || PyStr.contains c (str " -()/").
Definition re_key_value : regex :=
  seqs [ Bol; Star space; Plus (Chr key_char); chr ":"; Star space ].

(** [\s*\|\s*] *)
Definition re_pipe : regex := seqs [ Star space; chr "|"; Star space ].

(** [^-{2,}] *)
Definition re_dashes : regex := Seq Bol (rep_min 2 (chr "-")).

(** [\n\s*\n] *)
Definition re_blank_line : regex :=
  seqs [ chr "010"; Star space; chr "010" ].

(** *** Section locator *)

(** [s.lower() == key.lower()] *)
Definition same_ci (s key : text) : bool :=
  PyStr.eqb (PyStr.lower s) (PyStr.lower key).

(** The heuristic test of [detect_section_headers] on a stripped line: all
    capitals, digits and a few signs, at least one letter, and one of the
    header words. *)
Definition looks_like_header (s : text) : bool :=
  fullmatch re_caps s && existsb PyStr.isalpha s && search re_header_word s.

(** The headers one line contributes to [detect_section_headers]. *)
Definition headers_of_line (i : nat) (ln : text) : list (nat * text) :=
  let s := PyStr.strip ln in
  if PyStr.is_empty s then []
  else
    map (fun key => (i, key))
        (filter (fun key => same_ci s key = true) FULL_CONTENT_KEYS)
    ++ (if looks_like_header s then [(i, s)] else []).

Definition detect_section_headers (lines : list text) : list (nat * text) :=
  concat (imap headers_of_line lines).

(** The test of the loop of [extract_section] on line [j]. *)
Definition ends_section (ln : text) : bool :=
  let s := PyStr.strip ln in
  negb (PyStr.is_empty s) && fullmatch re_caps s && search re_next_word s.

Fixpoint first_index_from (p : text → bool) (j : nat) (ls : list text)
  : option nat :=
  match ls with
  | [] => None
  | l :: ls' => if p l then Some j else first_index_from p (S j) ls'
  end.

(** [l[a:b]] *)
Definition slice {A} (a b : nat) (l : list A) : list A :=
  take (b - a) (drop a l).

(** [while ls and not ls[0].strip(): ls.pop(0)] *)
Fixpoint pop_blank_front (ls : list text) : list text :=
  match ls with
  | l :: ls' => if PyStr.isblank l then pop_blank_front ls' else ls
  | [] => []
  end.

(** [while ls and not ls[-1].strip(): ls.pop()] *)
Definition pop_blank_back (ls : list text) : list text :=
  reverse (pop_blank_front (reverse ls)).

Definition extract_section (lines : list text) (header_idx : nat)
  : list text :=
  let n := length lines in
  let next_idx :=
    default n (first_index_from ends_section (S header_idx)
                                (drop (S header_idx) lines)) in
  let section_lines := slice (S header_idx) next_idx lines in
  pop_blank_back (pop_blank_front section_lines).

(** [ln.strip().lower() in [k.lower() for k in FULL_CONTENT_KEYS]] *)
Definition is_exact_header (ln : text) : bool :=
  existsb (PyStr.eqb (PyStr.lower (PyStr.strip ln)))
          (map PyStr.lower FULL_CONTENT_KEYS).

Definition is_preferred (h : nat * text) : bool :=
  search re_complete_i h.2 && search re_content_i h.2.

(** The outcome [(None, None, None)] is [None]. *)
Definition find_full_content_section (raw_text : text)
  : option (list text * nat * text) :=
  let lines := PyStr.splitlines raw_text in
  match list_find (fun ln => is_exact_header ln = true) lines with
  | Some (i, ln) => Some (extract_section lines i, i, ln)
  | None =>
      let detected := detect_section_headers lines in
      match detected with
      | [] => None
      | first :: _ =>
          match list_find (fun h => is_preferred h = true) detected with
          | Some (_, (idx, txt)) => Some (extract_section lines idx, idx, txt)
          | None => Some (extract_section lines first.1, first.1, first.2)
          end
      end
  end.

(** *** Table recovery *)

Definition LF : text := str (String "010" "").

(** [ln.strip().startswith("|")] *)
Definition starts_with_pipe (ln : text) : bool :=
  PyStr.startswith (str "|") (PyStr.strip ln).

(** [ln.strip().startswith("|") and "|" in ln.strip()[1:]] *)
Definition is_pipe_row (ln : text) : bool :=
  starts_with_pipe ln && PyStr.contains "|" (drop 1 (PyStr.strip ln)).

Fixpoint take_while {A} (p : A → bool) (l : list A) : list A :=
  match l with
  | x :: l' => if p x then x :: take_while p l' else []
  | [] => []
  end.

Fixpoint extract_markdown_pipe_table (lines : list text) : option text :=
  match lines with
  | [] => None
  | ln :: rest =>
      match rest with
      | nxt :: more =>
          if is_pipe_row ln && search re_separator nxt
          then Some (PyStr.join LF (ln :: nxt :: take_while starts_with_pipe more))
          else extract_markdown_pipe_table rest
      | [] => None
      end
  end.

(** The loop state of [extract_csv_like_block]. *)
Record csv_scan := mkScan {
  block : list text;
  consec : nat;
  blocks : list (list text)
}.

Definition csv_step (st : csv_scan) (ln : text) : csv_scan :=
  if 1 <=? PyStr.count "," ln
  then mkScan (block st ++ [ln]) (S (consec st)) (blocks st)
  else mkScan [] 0 (if 2 <=? consec st
                    then blocks st ++ [block st] else blocks st).

(** [max(blocks, key=len)]: the first of the longest. *)
Definition longest (first : list text) (others : list (list text))
  : list text :=
  fold_left (fun best b => if length best <? length b then b else best)
            others first.

Definition extract_csv_like_block (lines : list text) : option text :=
  let st := fold_left csv_step lines (mkScan [] 0 []) in
  let blocks := if 2 <=? consec st
                then blocks st ++ [block st] else blocks st in
  match blocks with
  | b :: bs => Some (PyStr.join LF (longest b bs))
  | [] => None
  end.

Definition is_key_value_line (ln : text) : bool :=
  PyStr.contains ":" ln && pmatch re_key_value ln.

Definition extract_key_value_block (lines : list text)
  : option (list text) :=
  let kv_lines := filter (fun ln => is_key_value_line ln = true) lines in
  if 2 <=? length kv_lines then Some kv_lines else None.

Inductive method :=
| empty | markdown_pipe | markdown_pipe_manual | csv_block
| csv_block_relaxed | key_value | paragraphs | raw_single.

(** [l[i]] *)
Definition index {A} (l : list A) (i : nat) : result A :=
  match l !! i with
  | Some x => Ok x
  | None => Raise (Exn IndexError "list index out of range")
  end.

(** The cells of one line in the hand-made split of the pipe table. *)
Definition manual_cells (r : text) : list text :=
  map PyStr.strip
      (filter (fun cell => PyStr.is_empty (PyStr.strip cell) = false)
              (split re_pipe (PyStr.strip_chars (str ("| " +:+ String "009" "")) r))).

(** A key-value line as a row: [ln.split(":", 1)], both parts stripped. *)
Definition key_value_row (ln : text) : result (list text) :=
  match PyStr.split_once ":" ln with
  | (k, Some v) => Ok [PyStr.strip k; PyStr.strip v]
  | (_, None) => Raise (Exn IndexError "list index out of range")
  end.

Fixpoint mapM {A B} (f : A → result B) (l : list A) : result (list B) :=
  match l with
  | [] => Ok []
  | x :: l' => let* y := f x in let* ys := mapM f l' in Ok (y :: ys)
  end.

Section WithEngine.
Context `{E : Pandas.Engine}.

(** The [try] body of strategy 1. *)
Definition read_pipe_table (md : text) : result Pandas.DataFrame :=
  let* df := Pandas.read_csv (Pandas.mkOpts "|" true) md in
  let df := Pandas.select
              (fun j c => negb (PyStr.startswith (str "Unnamed") c)
                          || Pandas.notna_any (Pandas.column df j)) df in
  let df := Pandas.rename PyStr.strip df in
  Ok (Pandas.dropna_all df).

(** Strategies 3 to 5: they use no reader. *)
Definition parse_plain (section_lines : list text)
  : result (option Pandas.DataFrame * method) :=
  match extract_key_value_block section_lines with
  | Some ((_ :: _) as kv) =>
      let* rows := mapM key_value_row kv in
      let* df := Pandas.of_rows rows [str "Field"; str "Value"] in
      Ok (Some df, key_value)
  | _ =>
      let text := PyStr.strip (PyStr.join LF section_lines) in
      let paras :=
        filter (fun p => PyStr.is_empty p = false)
               (map PyStr.strip (split re_blank_line text)) in
      if 1 <? length paras
      then Ok (Some (Pandas.of_column (str "Paragraph") paras), paragraphs)
      else Ok (Some (Pandas.of_column (str "FullContent") [text]), raw_single)
  end.

(** Strategy 2 and what follows it. *)
Definition parse_from_csv (section_lines : list text)
  : result (option Pandas.DataFrame * method) :=
  match extract_csv_like_block section_lines with
  | Some ((_ :: _) as csv) =>
      match Pandas.read_csv (Pandas.mkOpts "," false) csv with
      | Ok df => Ok (Some df, csv_block)
      | Raise _ =>
          match Pandas.read_csv (Pandas.mkOpts "," true) csv with
          | Ok df => Ok (Some df, csv_block_relaxed)
          | Raise _ => parse_plain section_lines
          end
      end
  | _ => parse_plain section_lines
  end.

(** The [except] branch of strategy 1; [None] when it falls through. *)
Definition manual_pipe_table (md : text)
  : result (option (Pandas.DataFrame * method)) :=
  let rows := map manual_cells (PyStr.splitlines md) in
  if 2 <=? length rows then
    let* header := index rows 0 in
    let* second := index rows 1 in
    let* dashed :=
      (let* cell := index second 0 in
       if search re_dashes cell then Ok true
       else Ok (search re_dashes (PyStr.join (str "|") second))) in
    let data_rows := if dashed : bool then drop 2 rows else drop 1 rows in
    let* first := index data_rows 0 in
    let* df := Pandas.of_rows data_rows (take (length first) header) in
    Ok (Some (df, markdown_pipe_manual))
  else Ok None.

Definition parse_table_from_section (section_lines : list text)
  : result (option Pandas.DataFrame * method) :=
  match section_lines with
  | [] => Ok (None, empty)
  | _ =>
      match extract_markdown_pipe_table section_lines with
      | Some ((_ :: _) as md) =>
          match read_pipe_table md with
          | Ok df => Ok (Some df, markdown_pipe)
          | Raise _ =>
              let* r := manual_pipe_table md in
              match r with
              | Some (df, m) => Ok (Some df, m)
              | None => parse_from_csv section_lines
              end
          end
      | _ => parse_from_csv section_lines
      end
  end.

(** *** [main] *)

(** What [main] is run on: the stem of the path, whether the file
    exists, and its decoded content. *)
Record input_file := mkInput {
  stem : text;
  file_exists : bool;
  content : text
}.

(** The files [main] writes: a workbook with one sheet, as the sheet
    stores it, or a CSV. *)
Inductive written :=
| Excel (name : text) (sheet_name : text) (df : Pandas.DataFrame)
| Csv (name : text) (df : Pandas.DataFrame).

(** *** The workbook writer

    [df.to_excel] refuses a frame of more than 1,048,576 rows or 16,384
    columns, and hands the labels, then the cells column by column, to
    [openpyxl]; [openpyxl] keeps the first 32,767 characters of a string
    and then refuses it if one of them is a control character other than
    TAB, LF and CR.  Fonts, widths and the type of a cell (text, number,
    formula) are not represented, and [auto_format_excel] changes nothing
    else. *)
Definition is_illegal (c : ascii) : bool :=
  PyStr.in_range 0 8 c || PyStr.in_range 11 12 c || PyStr.in_range 14 31 c.

(** What a cell of the sheet keeps of a string. *)
Definition kept (v : text) : text := PyStr.slice_to 32767%N v.

Definition check_string (v : text) : result text :=
  if existsb is_illegal (kept v)
  then Raise (Exn IllegalCharacterError
                (string_of_list_ascii (kept v) +:+ " cannot be used in worksheets."))
  else Ok (kept v).

Definition check_cell (c : Pandas.cell) : result Pandas.cell :=
  match c with
  | Some v => let* v' := check_string v in Ok (Some v')
  | None => Ok None
  end.

Definition to_excel (df : Pandas.DataFrame) : result Pandas.DataFrame :=
  let num_rows := length (Pandas.rows df) in
  let num_cols := length (Pandas.columns df) in
  if (1048576 <? N.of_nat num_rows)%N || (16384 <? N.of_nat num_cols)%N
  then Raise (Exn ValueError
                ("This sheet is too large! Your sheet size is: "
                 +:+ Pandas.nat_to_string num_rows +:+ ", "
                 +:+ Pandas.nat_to_string num_cols
                 +:+ " Max sheet size is: 1048576, 16384"))
  else
    let* labels := mapM check_string (Pandas.columns df) in
    let* _ := mapM (fun j => mapM check_cell (Pandas.column df j))
                   (seq 0 num_cols) in
    Ok (Pandas.mkDataFrame labels
          (map (map (fun c : Pandas.cell => kept <$> c)) (Pandas.rows df))).

(** [main] returns its status and leaves the files it wrote.  Console
    output is not represented; the file system is taken to accept the
    files, and the files written before an exception are not
    represented. *)
Definition main (csv_path : input_file) : result (Z * list written) :=
  if negb (file_exists csv_path) then Ok (2%Z, [])
  else
    let raw := content csv_path in
    let out_xlsx := stem csv_path ++ OUTPUT_XLSX_SUFFIX in
    let out_csv := stem csv_path ++ OUTPUT_CSV_SUFFIX in
    match find_full_content_section raw with
    | None =>
        let df_raw := Pandas.of_column (str "FullContent_Raw")
                                       [PyStr.slice_to 100000%N raw] in
        let* sheet := to_excel df_raw in
        Ok (0%Z, [Excel out_xlsx (str "FullContent_Raw") sheet])
    | Some (section_lines, header_idx, header_text) =>
        let* (df, m) := parse_table_from_section section_lines in
        let write_raw :=
          let df_raw := Pandas.of_column (str "FullContent_Raw")
                                         [PyStr.join LF section_lines] in
          let* sheet := to_excel df_raw in
          Ok (0%Z, [Excel out_xlsx (str "FullContent_Raw") sheet]) in
        match df with
        | Some d =>
            if Pandas.empty d then write_raw
            else
              let* sheet := to_excel d in
              Ok (0%Z, [Csv out_csv d; Excel out_xlsx (str "FullContent") sheet])
        | None => write_raw
        end
    end.

End WithEngine.

(** *** Notions used to state and to prove the properties

    None of what follows is in the script. *)

(** The cells of the row of a [key: value] line in the data frame: what
    stands before the first colon and what stands after it, both
    stripped.  (A line without a colon has no row; its second cell is
    written as the empty string here.) *)
Definition field_value_cells (ln : text) : list Pandas.cell :=
  let '(k, v) := PyStr.split_once ":" ln in
  [Some (PyStr.strip k); Some (PyStr.strip (default [] v))].

(** The end of the separator pattern: [\s*(\|.+)?$]. *)
Definition separator_tail : regex :=
  Seq (Star space) (Seq (Opt (Seq (chr "|") (Plus dot))) Eol).

(** The part of the key-value pattern after the leading spaces. *)
Definition key_value_tail : regex :=
  Seq (Plus (Chr key_char)) (Seq (chr ":") (Star space)).

(** The lines of [LF.join(ls).lstrip()] and of [LF.join(ls).rstrip()]:
    the blank lines at that end are gone and the line next to them is
    stripped at that end. *)
Definition lstrip_lines (ls : list text) : list text :=
  match pop_blank_front ls with
  | [] => []
  | l :: rest => PyStr.lstrip_by PyStr.isspace l :: rest
  end.

Fixpoint rstrip_lines (ls : list text) : list text :=
  match ls with
  | [] => []
  | l :: rest =>
      match rstrip_lines rest with
      | [] => if PyStr.isblank l then [] else [PyStr.rstrip_by PyStr.isspace l]
      | kept => l :: kept
      end
  end.

(** The shape of the scan of [extract_csv_like_block]: the length of the
    current run of comma lines, and whether a run of two or more lines
    has been closed. *)
Definition comma_line (ln : text) : bool := 1 <=? PyStr.count "," ln.

Definition run_step (st : nat * bool) (b : bool) : nat * bool :=
  if b then (S st.1, st.2) else (0, st.2 || (2 <=? st.1)).

Definition run_found (st : nat * bool) : bool := st.2 || (2 <=? st.1).

Definition scan_shape (st : csv_scan) : nat * bool :=
  (consec st,
   match blocks st with [] => false | _ => true end).


(** The maximal runs of comma lines of [ls], left to right, the empty
    ones between two lines without a comma included; the first run
    continues [cur]. *)
Fixpoint comma_runs (cur : list text) (ls : list text) : list (list text) :=
  match ls with
  | [] => [cur]
  | l :: ls' =>
      if comma_line l then comma_runs (cur ++ [l]) ls'
      else cur :: comma_runs [] ls'
  end.

(** Where the run that follows the runs [rs] starts: each run is followed
    by one line without a comma. *)
Definition offset (rs : list (list text)) : nat :=
  sum_list_with (fun r => S (length r)) rs.

(** A line with something to read on it, and a line without. *)
Definition plain_line (l : text) : Prop :=
  PyStr.single_line l ∧ PyStr.isblank l = false.
Definition blank_line (l : text) : Prop :=
  PyStr.single_line l ∧ PyStr.isblank l = true.

(** The lines of a section made of paragraphs: each group of lines but
    the last is followed by one blank line. *)
Definition paragraph_lines (groups : list (list text * text))
    (last_group : list text) : list text :=
  concat (map (fun gb => gb.1 ++ [gb.2]) groups) ++ last_group.

(** The text of paragraphs, each but the last followed by a line feed, the
    white space of a blank line and a line feed. *)
Definition paragraph_text (paras : list (text * text)) (last_para : text) : text :=
  foldr (fun pw acc => pw.1 ++ "010"%char :: pw.2 ++ "010"%char :: acc)
        last_para paras.

(** After optional white space on the same line comes a character that is
    not white space. *)
Definition blocked (s : text) : Prop :=
  ∃ sp y z, s = sp ++ y :: z
            ∧ Forall (fun c => PyStr.isspace c = true ∧ c ≠ "010"%char) sp
            ∧ PyStr.isspace y = false.

(** A text in which no line feed is followed by a blank line. *)
Definition quiet (p : text) : Prop :=
  ∀ u v, p = u ++ "010"%char :: v → blocked v.

End FullContent.

(** ** [complete_pdf_extractor.py] *)

Module Extractor.

(** What [json.loads] returns.  A number keeps its literal; an object is
    the list of its entries in insertion order, and its keys are
    distinct ([json.loads] keeps one entry per key). *)
#[warning="-register-all"]
Inductive json :=
| JNull
| JBool (b : bool)
| JNum (literal : string)
| JStr (s : string)
| JList (items : list json)
| JObj (entries : list (string * json)).

(** The entries of an object as a finite map, for [d[key]] and
    [key in d]. *)
Definition members (entries : list (string * json)) : gmap string json :=
  list_to_map entries.

Definition type_error (msg : string) : exn := Exn TypeError msg.

Fixpoint is_substring (k s : string) : bool :=
  String.prefix k s ||
  match s with
  | String _ s' => is_substring k s'
  | EmptyString => false
  end.

(** [key in v] *)
Definition py_in (key : string) (v : json) : result bool :=
  match v with
  | JObj d => Ok (bool_decide (is_Some (members d !! key)))
  | JList items =>
      Ok (existsb (fun x => match x with
                            | JStr s => String.eqb s key
                            | _ => false
                            end) items)
  | JStr s => Ok (is_substring key s)
  | _ => Raise (type_error "argument is not iterable")
  end.

(** [v[key]] for a string [key] *)
Definition py_getitem (v : json) (key : string) : result json :=
  match v with
  | JObj d =>
      match members d !! key with
      | Some x => Ok x
      | None => Raise (Exn KeyError key)
      end
  | JList _ | JStr _ => Raise (type_error "indices must be integers")
  | _ => Raise (type_error "object is not subscriptable")
  end.

Fixpoint chars (s : string) : list json :=
  match s with
  | EmptyString => []
  | String c s' => JStr (String c EmptyString) :: chars s'
  end.

(** [acc.extend(v)]: the elements of a list, the keys of an object, the
    characters of a string; anything else cannot be iterated. *)
Definition py_extend (acc : list json) (v : json) : result (list json) :=
  match v with
  | JList items => Ok (acc ++ items)
  | JObj d => Ok (acc ++ (JStr <$> d.*1))
  | JStr s => Ok (acc ++ chars s)
  | _ => Raise (type_error "object is not iterable")
  end.

(** The key and the value that element [i] of a sequence passed to
    [dict.update] stands for: the element is itself iterated and must
    give two items (the items of a list, the characters of a string, the
    keys of an object). *)
Definition pair_of (i : nat) (x : json) : result (json * json) :=
  let wrong_length (n : nat) :=
    Exn ValueError
        ("dictionary update sequence element #" +:+ Pandas.nat_to_string i
         +:+ " has length " +:+ Pandas.nat_to_string n +:+ "; 2 is required") in
  let two (items : list json) :=
    match items with
    | [k; v] => Ok (k, v)
    | _ => Raise (wrong_length (length items))
    end in
  match x with
  | JList items => two items
  | JStr s => two (chars s)
  | JObj d => two (JStr <$> d.*1)
  | _ => Raise (type_error
                  ("cannot convert dictionary update sequence element #"
                   +:+ Pandas.nat_to_string i +:+ " to a sequence"))
  end.

(** [acc[k] = v] for a decoded key.  The dictionaries of the model hold
    the entries whose key is a string: an entry set under [null], a
    boolean or a number is read by no string key and is left out. *)
Definition set_item (acc : gmap string json) (k v : json)
  : result (gmap string json) :=
  match k with
  | JStr s => Ok (<[s := v]> acc)
  | JList _ => Raise (type_error "unhashable type: 'list'")
  | JObj _ => Raise (type_error "unhashable type: 'dict'")
  | JNull | JBool _ | JNum _ => Ok acc
  end.

Fixpoint update_pairs (i : nat) (items : list json) (acc : gmap string json)
  : result (gmap string json) :=
  match items with
  | [] => Ok acc
  | x :: rest =>
      let* kv := pair_of i x in
      let* acc' := set_item acc kv.1 kv.2 in
      update_pairs (S i) rest acc'
  end.

(** [acc.update(v)]: the entries of an object are set in [acc]; a list or
    a string is taken as a sequence of pairs; anything else cannot be
    iterated. *)
Definition py_update (acc : gmap string json) (v : json)
  : result (gmap string json) :=
  match v with
  | JObj d => Ok (members d ∪ acc)
  | JList items => update_pairs 0 items acc
  | JStr s => update_pairs 0 (chars s) acc
  | _ => Raise (type_error "object is not iterable")
  end.

Record page := mkPage {
  page_number : nat;
  text_content : string;
  structured_data : json
}.

Record results := mkResults {
  pdf_path : string;
  metadata : gmap string string;
  pages : list page;
  well_plate_data : list json;
  standards_table : list json;
  settings : gmap string json;
  samples_data : list json;
  full_content : string;
  summary : string
}.

(** The answer of the remote model: the call raises, or returns a message
    whose content is a list of blocks; only a text block has [.text]. *)
Inductive block := TextBlock (t : string) | OtherBlock.
Inductive reply := Failed (e : exn) | Message (content : list block).

Definition block_text (b : block) : result string :=
  match b with
  | TextBlock t => Ok t
  | OtherBlock => Raise (Exn TypeError "block has no attribute text")
  end.

(** [response = client.messages.create(...); response.content[0].text]:
    the call can raise, the content can be empty, its first block can lack
    a text. *)
Definition reply_text (rp : reply) : result string :=
  let* content_blocks :=
    match rp with
    | Failed e => Raise e
    | Message bs => Ok bs
    end in
  let* first := FullContent.index content_blocks 0 in
  block_text first.

Definition nat_to_string := Pandas.nat_to_string.

Definition NL : string := String "010" "".

(** The page record of the [except] branch of [analyze_page_detailed]. *)
Definition error_page (page_num : nat) (e : exn) : page :=
  mkPage page_num
         ("Error analyzing page " +:+ nat_to_string page_num +:+ ": " +:+ exn_msg e)
         (JObj []).

(** The two probed keys of a page: the value under [k1] if that key is
    present, else the value under [k2] if that one is, else nothing. *)
Definition probe (k1 k2 : string) (sd : json) : result (option json) :=
  let* b1 := py_in k1 sd in
  if b1 : bool then let* v := py_getitem sd k1 in Ok (Some v)
  else
    let* b2 := py_in k2 sd in
    if b2 : bool then let* v := py_getitem sd k2 in Ok (Some v)
    else Ok None.

(** The loop [for page in results['pages']: ... acc.extend(...)]. *)
Fixpoint extend_loop (k1 k2 : string) (ps : list page) (acc : list json)
  : result (list json) :=
  match ps with
  | [] => Ok acc
  | p :: ps' =>
      let* v := probe k1 k2 (structured_data p) in
      let* acc' := match v with
                   | Some x => py_extend acc x
                   | None => Ok acc
                   end in
      extend_loop k1 k2 ps' acc'
  end.

Definition extract_well_plate_data (r : results) : result results :=
  let* well_data := extend_loop "well_plate_data" "wells" (pages r) [] in
  Ok (mkResults (pdf_path r) (metadata r) (pages r) well_data
                (standards_table r) (settings r) (samples_data r)
                (full_content r) (summary r)).

Definition extract_standards_table (r : results) : result results :=
  let* standards := extend_loop "standards_table" "standards" (pages r) [] in
  Ok (mkResults (pdf_path r) (metadata r) (pages r) (well_plate_data r)
                standards (settings r) (samples_data r)
                (full_content r) (summary r)).

Definition extract_samples_data (r : results) : result results :=
  let* samples := extend_loop "samples" "sample_data" (pages r) [] in
  Ok (mkResults (pdf_path r) (metadata r) (pages r) (well_plate_data r)
                (standards_table r) (settings r) samples
                (full_content r) (summary r)).

(** The loop of [extract_settings]: [results['settings']] is updated in
    place, page after page. *)
Fixpoint update_loop (ps : list page) (acc : gmap string json)
  : result (gmap string json) :=
  match ps with
  | [] => Ok acc
  | p :: ps' =>
      let* v := probe "settings" "instrument_settings" (structured_data p) in
      let* acc' := match v with
                   | Some x => py_update acc x
                   | None => Ok acc
                   end in
      update_loop ps' acc'
  end.

Definition extract_settings (r : results) : result results :=
  let* s := update_loop (pages r) (settings r) in
  Ok (mkResults (pdf_path r) (metadata r) (pages r) (well_plate_data r)
                (standards_table r) s (samples_data r)
                (full_content r) (summary r)).

(** *** The aggregates as the specification words them

    The value of a page for a category: what its object holds under the
    first key when that key is present, else what it holds under the
    second key when that one is present, else nothing.  [spec_page_items]
    reads it as a list, [spec_page_settings] as an object. *)
Definition spec_page_value (k1 k2 : string) (p : page) : option json :=
  match structured_data p with
  | JObj d =>
      match members d !! k1 with
      | Some v => Some v
      | None => members d !! k2
      end
  | _ => None
  end.

Definition spec_page_items (k1 k2 : string) (p : page) : list json :=
  match spec_page_value k1 k2 p with
  | Some (JList items) => items
  | _ => []
  end.

Definition spec_page_settings (p : page) : gmap string json :=
  match spec_page_value "settings" "instrument_settings" p with
  | Some (JObj d) => members d
  | _ => ∅
  end.

(** The pages the aggregation is specified on: the structured data is an
    object and the value read for the category, if any, has the shape the
    category expects. *)
Definition has_list (k1 k2 : string) (p : page) : Prop :=
  (∃ m, structured_data p = JObj m) ∧
  ∀ v, spec_page_value k1 k2 p = Some v → ∃ items, v = JList items.

Definition has_settings_object (p : page) : Prop :=
  (∃ m, structured_data p = JObj m) ∧
  ∀ v, spec_page_value "settings" "instrument_settings" p = Some v →
       ∃ d, v = JObj d.

Section WithServices.

(** The services the extractor calls: the vision model on a page image
    (and the page number its prompt names), the model on the summary
    prompt, [json.loads] ([None] when it raises), the metadata of the
    PDF, and the writing of the output files. *)
Variable create_message : string → nat → reply.
Variable create_summary : string → reply.
Variable json_loads : string → option json.
Variable read_metadata : string → gmap string string.
Variable save_all_formats : results → result unit.

Definition analyze_page_detailed (img_b64 : string) (page_num : nat)
  : page :=
  let attempt : result page :=
    let* content := reply_text (create_message img_b64 page_num) in
    let structured_data :=
      match json_loads content with
      | Some v => v
      | None => JObj [("raw_content", JStr content)]
      end in
    Ok (mkPage page_num content structured_data) in
  match attempt with
  | Ok p => p
  | Raise e => error_page page_num e
  end.

(** The page loop of [extract_pdf_with_vision].  A document is the list
    of its pages, each the outcome of rendering it to a base-64 image;
    the loop itself guards nothing, so a page that fails to render
    raises out of it. *)
Fixpoint page_loop (doc : list (result string)) (page_num : nat)
                   (r : results) : result results :=
  match doc with
  | [] => Ok r
  | rendered :: doc' =>
      let* img_b64 := rendered in
      let page_analysis := analyze_page_detailed img_b64 (page_num + 1) in
      page_loop doc' (S page_num)
        (mkResults (pdf_path r) (metadata r)
           (pages r ++ [page_analysis])
           (well_plate_data r) (standards_table r) (settings r)
           (samples_data r)
           (full_content r +:+ NL +:+ NL +:+ "=== PAGE "
              +:+ nat_to_string (page_num + 1) +:+ " ===" +:+ NL
              +:+ text_content page_analysis)
           (summary r))
  end.

Definition generate_summary (content : string) : string :=
  if String.eqb content "" || (length (PyStr.strip (str content)) <? 50)
  then "No substantial content found for summary."
  else
    let attempt : result string :=
      reply_text (create_summary (String.substring 0 3000 content)) in
    match attempt with
    | Ok s => s
    | Raise e => "Summary generation failed: " +:+ exn_msg e
    end.

(** [None] is the [return None] of the outer [except]. *)
Definition extract_pdf_with_vision
    (path : string) (opened : result (list (result string)))
  : option results :=
  let attempt : result results :=
    let* doc := opened in
    let r0 := mkResults path (read_metadata path) [] [] [] ∅ [] "" "" in
    let* r := page_loop doc 0 r0 in
    let* r := extract_well_plate_data r in
    let* r := extract_standards_table r in
    let* r := extract_settings r in
    let* r := extract_samples_data r in
    let r := mkResults (pdf_path r) (metadata r) (pages r)
               (well_plate_data r) (standards_table r) (settings r)
               (samples_data r) (full_content r)
               (generate_summary (full_content r)) in
    let* _ := save_all_formats r in
    Ok r in
  match attempt with
  | Ok r => Some r
  | Raise _ => None
  end.

End WithServices.

(** *** [save_as_txt] and [save_as_detailed_csv]

    What the two writers put in their files.  The printers of Python
    values ([str], [json.dumps]) are parameters.  The entries of a
    dictionary are written in the order of the finite map. *)

Section Saving.

(** [str(v)], [json.dumps(v)] and [json.dumps(v, indent=2)] of a decoded
    value. *)
Variable py_str : json → string.
Variable json_dumps : json → string.
Variable json_dumps_indent : json → string.

(** [d.get(k, dflt)] *)
Definition get (d : list (string * json)) (k : string) (dflt : json) : json :=
  default dflt (members d !! k).

(** What [csv.writer] writes for a field: a string as it is, [None] as
    the empty field, any other value through [str]. *)
Definition csv_field (v : json) : string :=
  match v with
  | JStr s => s
  | JNull => ""
  | _ => py_str v
  end.

(** The row of one well; an entry that is not a dictionary has none. *)
Definition well_rows (well : json) : list (list string) :=
  match well with
  | JObj d =>
      let well_id := get d "well" (get d "well_id" (JStr "")) in
      let sample_type := get d "type" (get d "sample_type" (JStr "")) in
      let value := get d "value" (get d "raw_value" (JStr "")) in
      let details :=
        json_dumps (JObj (filter (fun kv => kv.1 ∉ ["well"; "type"; "value"]) d)) in
      [["WELL DATA"; csv_field well_id; csv_field sample_type; py_str value; details]]
  | _ => []
  end.

Definition standard_rows (std : json) : list (list string) :=
  match std with
  | JObj d =>
      let sample := get d "sample" (get d "standard" (JStr "")) in
      let conc := get d "concentration" (JStr "") in
      let well := get d "well" (JStr "") in
      let value := get d "value" (JStr "") in
      let back_calc := get d "back_calc" (get d "percent_back_calc" (JStr "")) in
      [["STANDARDS"; csv_field sample; py_str conc; csv_field well; py_str value;
        py_str back_calc]]
  | _ => []
  end.

Definition sample_rows (sample : json) : list (list string) :=
  match sample with
  | JObj d =>
      [["SAMPLE"; csv_field (get d "name" (JStr "")); csv_field (get d "type" (JStr ""));
        csv_field (get d "value" (JStr "")); json_dumps sample]]
  | _ => []
  end.

Definition page_row (p : page) : list string :=
  ["PAGE"; "Page_" +:+ nat_to_string (page_number p);
   String.substring 0 200 (text_content p) +:+ "..."; ""; ""].

(** The rows [save_as_detailed_csv] hands to the CSV writer, in order; a
    row is the list of its fields, [[]] the row of [writer.writerow([])].
    The rows of the entries of one dictionary come in the order of the
    finite map. *)
Definition save_as_detailed_csv (r : results) : list (list string) :=
  [ ["Section"; "Category"; "Field"; "Value"; "Additional_Info"]; [] ]
  ++ [ ["METADATA"; ""; ""; ""; ""] ]
  ++ map (fun kv => ["METADATA"; "PDF Info"; kv.1; kv.2; ""])
         (map_to_list (metadata r))
  ++ [ [] ]
  ++ [ ["INSTRUMENT SETTINGS"; ""; ""; ""; ""] ]
  ++ map (fun kv => ["SETTINGS"; "Instrument"; kv.1; py_str kv.2; ""])
         (map_to_list (settings r))
  ++ [ [] ]
  ++ [ ["WELL PLATE DATA"; ""; ""; ""; ""];
       ["WELL DATA"; "Well_ID"; "Sample_Type"; "Value"; "Additional_Details"] ]
  ++ concat (map well_rows (well_plate_data r))
  ++ [ [] ]
  ++ [ ["STANDARDS CALIBRATION"; ""; ""; ""; ""];
       ["STANDARDS"; "Sample"; "Concentration"; "Well"; "Value"; "Back_Calc"] ]
  ++ concat (map standard_rows (standards_table r))
  ++ [ [] ]
  ++ [ ["SAMPLES DATA"; ""; ""; ""; ""] ]
  ++ concat (map sample_rows (samples_data r))
  ++ [ [] ]
  ++ [ ["SUMMARY"; ""; ""; ""; ""];
       ["SUMMARY"; "Document Summary"; summary r; ""; ""] ]
  ++ [ [] ]
  ++ [ ["PAGE CONTENT"; ""; ""; ""; ""] ]
  ++ map page_row (pages r).

(** ["=" * 100] *)
Definition rule : string := String.concat "" (replicate 100 "=").

(** A section title of the text file between two rules. *)
Definition titled (title : string) : list string :=
  [rule +:+ NL; title +:+ NL; rule +:+ NL].

(** What [save_as_txt] writes, one string per [f.write]. *)
Definition save_as_txt_writes (r : results) : list string :=
  [rule +:+ NL; "FLUORESCENCE ASSAY - PDF EXTRACTION RESULTS" +:+ NL;
   rule +:+ NL +:+ NL]
  ++ ["PDF File: " +:+ pdf_path r +:+ NL;
      "Pages Processed: " +:+ nat_to_string (length (pages r)) +:+ NL +:+ NL]
  ++ titled "PDF METADATA"
  ++ map (fun kv => kv.1 +:+ ": " +:+ kv.2 +:+ NL) (map_to_list (metadata r))
  ++ [NL]
  ++ (if decide (settings r = ∅) then []
      else titled "INSTRUMENT SETTINGS"
           ++ [json_dumps_indent (JObj (map_to_list (settings r))); NL +:+ NL])
  ++ (match well_plate_data r with
      | [] => []
      | wells =>
          titled "WELL PLATE DATA"
          ++ concat (map (fun well => [json_dumps_indent well; NL]) wells)
          ++ [NL]
      end)
  ++ (match standards_table r with
      | [] => []
      | stds =>
          titled "STANDARDS CALIBRATION TABLE"
          ++ concat (map (fun std => [json_dumps_indent std; NL]) stds)
          ++ [NL]
      end)
  ++ titled "DOCUMENT SUMMARY"
  ++ [summary r; NL +:+ NL]
  ++ titled "COMPLETE EXTRACTED CONTENT"
  ++ [full_content r].

(** The content of the text file. *)
Definition save_as_txt (r : results) : string :=
  String.concat "" (save_as_txt_writes r).

End Saving.

(** *** Notions used to state the properties of the page loop and of the
    writers

    None of what follows is in the script. *)

(** What the page loop appends to the full content for a page. *)
Definition page_banner (p : page) : string :=
  NL +:+ NL +:+ "=== PAGE " +:+ nat_to_string (page_number p) +:+ " ===" +:+ NL
  +:+ text_content p.

(** A decoded reply that is not a container: [key in v] raises on it. *)
Definition is_scalar (v : json) : bool :=
  match v with
  | JNull | JBool _ | JNum _ => true
  | _ => false
  end.

(** [isinstance(v, dict)] *)
Definition is_object (v : json) : bool :=
  match v with JObj _ => true | _ => false end.

(** What one page adds to a list aggregate: the items of the value read
    for the category, as [extend] iterates them. *)
Definition page_items (k1 k2 : string) (p : page) : result (list json) :=
  let* v := probe k1 k2 (structured_data p) in
  match v with
  | Some x => py_extend [] x
  | None => Ok []
  end.

(** What one page sets in the settings: the entries [update] takes from
    the value read. *)
Definition page_settings (p : page) : result (gmap string json) :=
  let* v := probe "settings" "instrument_settings" (structured_data p) in
  match v with
  | Some x => py_update ∅ x
  | None => Ok ∅
  end.


End Extractor.

(** ** The scripts as programs: how a run ends *)

Module Scripts.

(** A run ends by reaching the end of the script, by [sys.exit(code)], or
    by an exception nobody catches; the interpreter turns these into the
    exit status of the process. *)
Inductive termination :=
| Finished
| SysExit (code : Z)
| Uncaught (e : exn).

Definition exit_status (t : termination) : Z :=
  match t with
  | Finished => 0
  | SysExit code => code
  | Uncaught _ => 1
  end.

(** *** [extract_fullcontent_to_excel.py], the [__main__] block

    [argv] is [sys.argv]; [open] gives the file a path names. *)
Definition extract_fullcontent_to_excel `{E : Pandas.Engine}
    (argv : list text) (open : text → FullContent.input_file) : termination :=
  if length argv <? 2 then SysExit 1
  else
    match FullContent.index argv 1 with
    | Raise e => Uncaught e
    | Ok csv_path =>
        match FullContent.main (open csv_path) with
        | Ok (code, _) => SysExit code
        | Raise e => Uncaught e
        end
    end.

(** *** [csv_to_excel_converter.py]

    The script takes no argument: its paths are written in the source.
    The CSV it reads is given by whether the file exists and by what
    [pd.read_csv] makes of it. *)
Record csv_source := mkSource {
  source_exists : bool;
  table : result Pandas.DataFrame
}.

(** A row of the sheet: a section header in column 1, or a key and its
    value.  Fonts, fills, borders and column widths are not represented. *)
Inductive sheet_row :=
| SectionRow (category : text)
| KeyValueRow (key value : text).

Fixpoint position (label : text) (cols : list text) : option nat :=
  match cols with
  | [] => None
  | c :: cols' =>
      if PyStr.eqb c label then Some 0 else S <$> position label cols'
  end.

(** [str(row[label]).strip()]; a missing cell prints as [nan]. *)
Definition field_of (df : Pandas.DataFrame) (row : list Pandas.cell)
    (label : string) : result text :=
  match position (str label) (Pandas.columns df) with
  | None => Raise (Exn KeyError label)
  | Some j => Ok (PyStr.strip (default (str "nan") (nth j row None)))
  end.

Definition sheet_row_of (df : Pandas.DataFrame) (row : list Pandas.cell)
  : result sheet_row :=
  let* category := field_of df row "Category" in
  let* field := field_of df row "Field" in
  let* value := field_of df row "Value" in
  if PyStr.startswith (str "===") category then Ok (SectionRow category)
  else
    let key := if PyStr.is_empty field then category
               else category ++ str " | " ++ field in
    Ok (KeyValueRow key value).

(** [None]: the file is missing, a message is printed and the function
    returns; otherwise the rows of the saved workbook. *)
Definition csv_to_excel_key_value (src : csv_source)
  : result (option (list sheet_row)) :=
  if negb (source_exists src) then Ok None
  else
    let* df := table src in
    let* sheet := FullContent.mapM (sheet_row_of df) (Pandas.rows df) in
    Ok (Some sheet).

Definition csv_to_excel_converter (src : csv_source) : termination :=
  match csv_to_excel_key_value src with
  | Ok _ => Finished
  | Raise e => Uncaught e
  end.

(** *** [Sonnet4/CSV_To_Excel.py]

    A script without functions and without arguments.  [pd.read_csv]
    raises [FileNotFoundError] on a missing file; [expand] stands for the
    expansion of the [structured_data] column ([json.loads],
    [pd.json_normalize], [drop], [join]). *)
Definition CSV_To_Excel_body (expand : Pandas.DataFrame → result Pandas.DataFrame)
    (src : csv_source) : result Pandas.DataFrame :=
  let* df :=
    if source_exists src then table src
    else Raise (Exn FileNotFoundError "No such file or directory") in
  if existsb (PyStr.eqb (str "structured_data")) (Pandas.columns df)
  then expand df
  else Ok df.

Definition CSV_To_Excel (expand : Pandas.DataFrame → result Pandas.DataFrame)
    (src : csv_source) : termination :=
  match CSV_To_Excel_body expand src with
  | Ok _ => Finished
  | Raise e => Uncaught e
  end.

End Scripts.

(** * Properties *)

(** ** Facts about the [str] methods and the data frames *)

Lemma split_once_found (c : ascii) (s : text) :
  PyStr.contains c s = true →
  ∃ k v, PyStr.split_once c s = (k, Some v).
Proof.
  induction s as [|d s IH]; simpl; [discriminate|].
  destruct (Ascii.eqb c d) eqn:Hcd; simpl; [eauto|].
  intros [k [v Hkv]]%IH. rewrite Hkv. eauto.
Qed.

Lemma width_uniform (n : nat) (data : list (list Pandas.cell)) :
  data ≠ [] → Forall (fun r => length r = n) data → Pandas.width data = n.
Proof.
  intros Hne Hall. induction Hall as [|r data Hr Hall IH]; [done|].
  simpl. destruct data as [|r' data'].
  - simpl. lia.
  - rewrite IH by done. lia.
Qed.

Lemma pad_full (r : list Pandas.cell) : Pandas.pad (length r) r = r.
Proof. unfold Pandas.pad. rewrite Nat.sub_diag. simpl. apply app_nil_r. Qed.

Lemma filter_all_true {A} (p : A → bool) (l : list A) :
  Forall (fun x => p x = true) l → filter (fun x => p x = true) l = l.
Proof.
  induction 1 as [|x l Hx _ IH]; [done|].
  rewrite filter_cons_True by done. by rewrite IH.
Qed.

(** The results of [mapM], element by element. *)
Lemma mapM_Ok {A B} (f : A → result B) (l : list A) (ys : list B) :
  FullContent.mapM f l = Ok ys ↔ Forall2 (fun x y => f x = Ok y) l ys.
Proof.
  revert ys. induction l as [|x l IH]; intros ys; simpl.
  - split; [by intros [= <-]; constructor|by inversion 1].
  - destruct (f x) as [y|e] eqn:Hx; cbn [bind].
    + destruct (FullContent.mapM f l) as [ys'|e] eqn:Hl; cbn [bind].
      * split.
        -- intros [= <-]. constructor; [done|]. by apply IH.
        -- inversion 1 as [|? y' ? ys'' Hy Hrest]; subst.
           apply IH in Hrest. congruence.
      * split; [done|]. inversion 1 as [|? y' ? ys'' Hy Hrest]; subst.
        apply IH in Hrest. done.
    + split; [done|]. inversion 1; subst. congruence.
Qed.

Lemma mapM_Raise {A B} (f : A → result B) (l : list A) (e : exn) :
  FullContent.mapM f l = Raise e ↔
  ∃ before x after,
    l = before ++ x :: after
    ∧ Forall (fun y => raised (f y) = false) before
    ∧ f x = Raise e.
Proof.
  split.
  - induction l as [|x l IH]; simpl; [done|].
    destruct (f x) as [y|e'] eqn:Hx; cbn [bind].
    + destruct (FullContent.mapM f l) as [ys'|e'] eqn:Hl; cbn [bind]; [done|].
      intros [= ->]. destruct (IH eq_refl) as (before & z & after & -> & Hb & Hz).
      exists (x :: before), z, after. repeat split; [|done].
      constructor; [by rewrite Hx|done].
    + intros [= ->]. by exists [], x, l.
  - intros (before & x & after & -> & Hbefore & Hx).
    induction Hbefore as [|b before Hb _ IH]; simpl.
    + by rewrite Hx.
    + destruct (f b); [|done]. cbn [bind]. by rewrite IH.
Qed.


(** ** Table recovery: the key-value strategy *)

Section KeyValue.
Context `{E : Pandas.Engine}.
Import FullContent.

Lemma key_value_rows (lines : list text) :
  Forall (fun ln => is_key_value_line ln = true) lines →
  ∃ rows, mapM key_value_row lines = Ok rows
          ∧ map (map Some) rows = map field_value_cells lines
          ∧ Forall (fun r => length r = 2) rows.
Proof.
  induction 1 as [|ln lines Hln _ (rows & Hrows & Hcells & Hlen)].
  - exists []. by repeat split.
  - unfold is_key_value_line in Hln. apply andb_true_iff in Hln as [Hcolon _].
    destruct (split_once_found _ _ Hcolon) as (k & v & Hkv).
    exists ([PyStr.strip k; PyStr.strip v] :: rows).
    simpl. unfold key_value_row at 1. rewrite Hkv. simpl. rewrite Hrows. simpl.
    repeat split.
    + unfold field_value_cells at 1. rewrite Hkv. simpl. by rewrite Hcells.
    + by constructor.
Qed.

Lemma key_value_table (kv : list text) :
  kv ≠ [] →
  Forall (fun ln => is_key_value_line ln = true) kv →
  (let* rows := mapM key_value_row kv in
   let* df := Pandas.of_rows rows [str "Field"; str "Value"] in
   Ok (Some df, key_value))
  = Ok (Some (Pandas.mkDataFrame [str "Field"; str "Value"]
                                 (map field_value_cells kv)),
        key_value).
Proof.
  intros Hne Hall.
  destruct (key_value_rows _ Hall) as (rows & -> & Hcells & Hrows).
  cbn [bind]. unfold Pandas.of_rows.
  destruct rows as [|r rows'].
  { destruct kv; [done|discriminate]. }
  assert (Hw : Pandas.width (map (map Some) (r :: rows')) = 2).
  { apply width_uniform; [done|].
    apply Forall_fmap. eapply Forall_impl; [exact Hrows|].
    intros x Hx. simpl. by rewrite length_map. }
  assert (Hpad : map (Pandas.pad 2) (map (map Some) (r :: rows'))
                 = map (map Some) (r :: rows')).
  { rewrite <- (map_id (map (map Some) (r :: rows'))) at 2.
    apply map_ext_Forall.
    apply Forall_fmap. eapply Forall_impl; [exact Hrows|].
    intros x Hx. simpl.
    replace 2 with (length (map Some x)) by (rewrite length_map; exact Hx).
    apply pad_full. }
  rewrite Hw. cbn [length Nat.eqb bind]. by rewrite Hpad, Hcells.
Qed.

Lemma parse_plain_key_value (lines : list text) :
  2 ≤ length lines →
  Forall (fun ln => is_key_value_line ln = true) lines →
  parse_plain lines
  = Ok (Some (Pandas.mkDataFrame [str "Field"; str "Value"]
                                 (map field_value_cells lines)),
        key_value).
Proof.
  intros Hlen Hall. unfold parse_plain, extract_key_value_block.
  rewrite filter_all_true by done.
  destruct (2 <=? length lines) eqn:Hle; [|apply Nat.leb_gt in Hle; lia].
  destruct lines as [|l1 lines']; [simpl in Hlen; lia|].
  by apply key_value_table.
Qed.

(** C4.  A section made only of two or more [key: value] lines, in which
    the script finds no markdown pipe table and no comma run of two or
    more lines, is returned as the table with the two columns [Field] and
    [Value] and one row per line, in the order of the lines; the method is
    [key_value]. *)
Theorem key_value_section_gives_field_value_table (lines : list text) :
  2 ≤ length lines →
  Forall (fun ln => is_key_value_line ln = true) lines →
  extract_markdown_pipe_table lines = None →
  extract_csv_like_block lines = None →
  parse_table_from_section lines
  = Ok (Some (Pandas.mkDataFrame [str "Field"; str "Value"]
                                 (map field_value_cells lines)),
        key_value).
Proof.
  intros Hlen Hall Hmd Hcsv.
  unfold parse_table_from_section, parse_from_csv.
  destruct lines as [|l1 lines']; [simpl in Hlen; lia|].
  rewrite Hmd, Hcsv. by apply parse_plain_key_value.
Qed.

End KeyValue.

Lemma key_value_section_witness :
  let lines := [str "Instrument: SpectraMax"; str "Temperature: 25 C"] in
  FullContent.parse_table_from_section (E := Pandas.python_engine) lines
  = Ok (Some (Pandas.mkDataFrame
                [str "Field"; str "Value"]
                [[Some (str "Instrument"); Some (str "SpectraMax")];
                 [Some (str "Temperature"); Some (str "25 C")]]),
        FullContent.key_value).
Proof.
  intros lines.
  rewrite (key_value_section_gives_field_value_table (E := Pandas.python_engine) lines).
  - reflexivity.
  - simpl; lia.
  - repeat constructor.
  - reflexivity.
  - reflexivity.
Defined.

(** ** Section locator *)

Section Locator.
Import FullContent.

Lemma no_exact_key (a : text) (keys : list text) :
  existsb (PyStr.eqb a) (map PyStr.lower keys) = false →
  filter (fun key => PyStr.eqb a (PyStr.lower key) = true) keys = [].
Proof.
  induction keys as [|k keys IH]; [done|]. simpl.
  intros [Hk Hks]%orb_false_iff.
  rewrite filter_cons_False by (rewrite Hk; discriminate). auto.
Qed.

Lemma headers_of_line_nil (i : nat) (ln : text) :
  is_exact_header ln = false →
  looks_like_header (PyStr.strip ln) = false →
  headers_of_line i ln = [].
Proof.
  intros Hexact Hlooks. unfold headers_of_line.
  destruct (PyStr.is_empty (PyStr.strip ln)); [done|].
  rewrite Hlooks. unfold same_ci.
  unfold is_exact_header in Hexact.
  rewrite (no_exact_key _ _ Hexact). done.
Qed.

Lemma concat_imap_nil {A B} (f : nat → A → list B) (l : list A) :
  (∀ i x, x ∈ l → f i x = []) → concat (imap f l) = [].
Proof.
  revert f. induction l as [|x l IH]; intros f Hf; [done|].
  simpl. rewrite Hf by left. simpl.
  apply IH. intros i y Hy. apply Hf. by right.
Qed.

Lemma first_index_from_at (p : text → bool) (k d : nat) (ls : list text) (x : text) :
  ls !! d = Some x → p x = true →
  (∀ d' y, d' < d → ls !! d' = Some y → p y = false) →
  first_index_from p k ls = Some (k + d).
Proof.
  revert k d. induction ls as [|l ls IH]; intros k d Hd Hx Hbefore; [done|].
  destruct d as [|d]; simpl in *.
  - injection Hd as ->. rewrite Hx. f_equal. lia.
  - rewrite (Hbefore 0 l) by (done || lia).
    rewrite (IH (S k) d); [f_equal; lia|done..|].
    intros d' y Hd' Hy. apply (Hbefore (S d') y); [lia|done].
Qed.

(** What the two [while] loops of [extract_section] leave. *)
Lemma pop_blank_front_spec (ls : list text) :
  ∃ pre, ls = pre ++ pop_blank_front ls
         ∧ Forall (fun ln => PyStr.isblank ln = true) pre
         ∧ ∀ ln, head (pop_blank_front ls) = Some ln → PyStr.isblank ln = false.
Proof.
  induction ls as [|l ls (pre & Hls & Hpre & Hhead)].
  - exists []. by repeat split.
  - simpl. destruct (PyStr.isblank l) eqn:Hl.
    + exists (l :: pre). repeat split; [by rewrite Hls at 1|by constructor|done].
    + exists []. repeat split; [done|]. simpl. by intros ? [= <-].
Qed.

Lemma pop_blank_both_spec (ls : list text) :
  ∃ pre post,
    ls = pre ++ pop_blank_back (pop_blank_front ls) ++ post
    ∧ Forall (fun ln => PyStr.isblank ln = true) pre
    ∧ Forall (fun ln => PyStr.isblank ln = true) post
    ∧ (∀ ln, head (pop_blank_back (pop_blank_front ls)) = Some ln →
             PyStr.isblank ln = false)
    ∧ (∀ ln, last (pop_blank_back (pop_blank_front ls)) = Some ln →
             PyStr.isblank ln = false).
Proof.
  destruct (pop_blank_front_spec ls) as (pre & Hls & Hpre & Hhead).
  set (mid := pop_blank_front ls) in *.
  destruct (pop_blank_front_spec (reverse mid)) as (post & Hmid & Hpost & Hlast).
  unfold pop_blank_back. set (core := pop_blank_front (reverse mid)) in *.
  exists pre, (reverse post). repeat split.
  - rewrite <- reverse_app, <- Hmid, reverse_involutive. exact Hls.
  - exact Hpre.
  - by apply Forall_reverse.
  - intros ln Hln. rewrite head_reverse in Hln.
    destruct (decide (core = [])) as [Hcore|Hcore].
    { rewrite Hcore in Hln. done. }
    (* the first line of the result is the first line of [mid] *)
    assert (Hh : head mid = Some ln).
    { rewrite <- (reverse_involutive mid), head_reverse.
      rewrite Hmid. rewrite last_app. by rewrite Hln. }
    by apply Hhead.
  - intros ln Hln. rewrite last_reverse in Hln. by apply Hlast.
Qed.

(** C3 (amended).  On a text none of whose lines is an exact header or
    passes the heuristic header test, the locator returns the "not found"
    outcome.  On a text whose first exact header is line [i], and in which
    line [j] is the first line after [i] that passes the section-end test
    of [extract_section] (as a line [METADATA] does), the body returned is
    the lines strictly between [i] and [j] without their leading and
    trailing blank lines. *)
Theorem find_full_content_section_spec (raw : text) :
  let lines := PyStr.splitlines raw in
  ((∀ ln, ln ∈ lines →
          is_exact_header ln = false
          ∧ looks_like_header (PyStr.strip ln) = false) →
   find_full_content_section raw = None)
  ∧
  (∀ i j hdr nxt,
     lines !! i = Some hdr → is_exact_header hdr = true →
     (∀ k ln, k < i → lines !! k = Some ln → is_exact_header ln = false) →
     i < j → lines !! j = Some nxt → ends_section nxt = true →
     (∀ k ln, i < k < j → lines !! k = Some ln → ends_section ln = false) →
     ∃ body pre post,
       find_full_content_section raw = Some (body, i, hdr)
       ∧ slice (S i) j lines = pre ++ body ++ post
       ∧ Forall (fun ln => PyStr.isblank ln = true) pre
       ∧ Forall (fun ln => PyStr.isblank ln = true) post
       ∧ (∀ ln, head body = Some ln → PyStr.isblank ln = false)
       ∧ (∀ ln, last body = Some ln → PyStr.isblank ln = false)).
Proof.
  intros lines. split.
  - intros Hnone. unfold find_full_content_section. fold lines.
    destruct (list_find _ lines) as [[i ln]|] eqn:Hfind.
    + apply list_find_Some in Hfind as (Hi & Hexact & _).
      apply list_elem_of_lookup_2 in Hi. destruct (Hnone _ Hi). congruence.
    + unfold detect_section_headers. rewrite concat_imap_nil; [done|].
      intros i x Hx. destruct (Hnone _ Hx). by apply headers_of_line_nil.
  - intros i j hdr nxt Hi Hexact Hfirst Hij Hj Hend Hbetween.
    unfold find_full_content_section. fold lines.
    assert (Hfind : list_find (fun ln => is_exact_header ln = true) lines
                    = Some (i, hdr)).
    { apply list_find_Some. repeat split; [done..|].
      intros k y Hk Hlt. rewrite (Hfirst k y) by done. discriminate. }
    rewrite Hfind. unfold extract_section.
    rewrite (first_index_from_at ends_section (S i) (j - S i) _ nxt).
    + replace (S i + (j - S i)) with j by lia. simpl.
      destruct (pop_blank_both_spec (slice (S i) j lines))
        as (pre & post & Hsplit & Hpre & Hpost & Hhead & Hlast).
      eexists _, pre, post. repeat split; [exact Hsplit|done..].
    + rewrite lookup_drop. by replace (S i + (j - S i)) with j by lia.
    + done.
    + intros d' y Hd' Hy. rewrite lookup_drop in Hy.
      apply (Hbetween (S i + d') y); [lia|done].
Qed.

End Locator.

Lemma find_full_content_section_spec_witness :
  FullContent.find_full_content_section
    (PyStr.join FullContent.LF [str "Plate report"; str "well A1, 0.52"])
  = None
  ∧ ∃ body pre post,
      FullContent.find_full_content_section
        (PyStr.join FullContent.LF
           [str "Plate report"; str "FULL CONTENT"; str "";
            str "Read at 25 C"; str "  "; str "METADATA"; str "Author: lab"])
      = Some (body, 1, str "FULL CONTENT")
      ∧ [str ""; str "Read at 25 C"; str "  "] = pre ++ body ++ post
      ∧ Forall (fun ln => PyStr.isblank ln = true) pre
      ∧ Forall (fun ln => PyStr.isblank ln = true) post
      ∧ (∀ ln, head body = Some ln → PyStr.isblank ln = false)
      ∧ (∀ ln, last body = Some ln → PyStr.isblank ln = false).
Proof.
  split.
  - apply (proj1 (find_full_content_section_spec _)).
    apply Forall_forall. repeat constructor.
  - apply (proj2 (find_full_content_section_spec
                    (PyStr.join FullContent.LF
                       [str "Plate report"; str "FULL CONTENT"; str "";
                        str "Read at 25 C"; str "  "; str "METADATA";
                        str "Author: lab"]))
                 1 5 (str "FULL CONTENT") (str "METADATA")).
    + reflexivity.
    + reflexivity.
    + intros [|k] ln Hk; [intros [= <-]; reflexivity|lia].
    + lia.
    + reflexivity.
    + reflexivity.
    + intros k ln Hk.
      destruct k as [|[|[|[|[|k]]]]]; try lia; intros [= <-]; reflexivity.
Defined.

(** C3, as the claim words it: an exact header followed by a later line
    [METADATA] does not make the body the lines between the two when
    another section header stands in between; the body ends there. *)
Lemma find_full_content_section_stops_at_first_header :
  ¬ (∀ raw i j hdr nxt,
       let lines := PyStr.splitlines raw in
       lines !! i = Some hdr → FullContent.is_exact_header hdr = true →
       (∀ k ln, k < i → lines !! k = Some ln →
                FullContent.is_exact_header ln = false) →
       i < j → lines !! j = Some nxt → PyStr.strip nxt = str "METADATA" →
       (∀ k ln, i < k < j → lines !! k = Some ln →
                PyStr.strip ln ≠ str "METADATA") →
       ∃ body pre post,
         FullContent.find_full_content_section raw = Some (body, i, hdr)
         ∧ FullContent.slice (S i) j lines = pre ++ body ++ post
         ∧ Forall (fun ln => PyStr.isblank ln = true) pre
         ∧ Forall (fun ln => PyStr.isblank ln = true) post).
Proof.
  intros Hclaim.
  destruct (Hclaim
              (PyStr.join FullContent.LF
                 [str "FULL CONTENT"; str "abc"; str "SUMMARY"; str "def";
                  str "METADATA"])
              0 4 (str "FULL CONTENT") (str "METADATA"))
    as (body & pre & post & Hfind & Hsplit & Hpre & Hpost).
  - reflexivity.
  - reflexivity.
  - intros k ln Hk. lia.
  - lia.
  - reflexivity.
  - reflexivity.
  - intros k ln Hk.
    destruct k as [|[|[|[|k]]]]; try lia; intros [= <-]; discriminate.
  - vm_compute in Hfind. injection Hfind as <-.
    vm_compute in Hsplit.
    destruct pre as [|p pre].
    + simpl in Hsplit. injection Hsplit as <-.
      inversion Hpost as [|? ? Hblank _]. vm_compute in Hblank. discriminate.
    + simpl in Hsplit. injection Hsplit as <- _.
      inversion Hpre as [|? ? Hblank _]. vm_compute in Hblank. discriminate.
Qed.

(** ** The fallback of [main] *)

Section Writer.
Import PyStr FullContent.


Lemma check_string_Raise (v : text) (e : exn) :
  check_string v = Raise e →
  existsb is_illegal (kept v) = true ∧ exn_class e = IllegalCharacterError.
Proof.
  unfold check_string. destruct (existsb is_illegal (kept v)); [|done].
  by intros [= <-].
Qed.






End Writer.

Section MainFallback.
Context `{E : Pandas.Engine}.
Import PyStr FullContent.


End MainFallback.



(** ** The aggregates of the PDF extractor *)

Section Aggregation.
Import Extractor.

Lemma probe_object (k1 k2 : string) (d : list (string * json)) :
  probe k1 k2 (JObj d)
  = Ok (match members d !! k1 with Some v => Some v | None => members d !! k2 end).
Proof.
  unfold probe, py_in, py_getitem.
  destruct (members d !! k1) as [v1|] eqn:H1; cbn; [done|].
  destruct (members d !! k2) as [v2|] eqn:H2; cbn; done.
Qed.

Lemma probe_page (k1 k2 : string) (p : page) (d : list (string * json)) :
  structured_data p = JObj d →
  probe k1 k2 (structured_data p) = Ok (spec_page_value k1 k2 p).
Proof. intros Hd. unfold spec_page_value. rewrite Hd. apply probe_object. Qed.

Lemma py_extend_acc (acc : list json) (x : json) :
  py_extend acc x = let* l := py_extend [] x in Ok (acc ++ l).
Proof. by destruct x. Qed.

(** The loop of the list aggregates, page by page. *)
Lemma extend_loop_pages (k1 k2 : string) (ps : list page) (acc : list json) :
  extend_loop k1 k2 ps acc
  = let* ls := FullContent.mapM (page_items k1 k2) ps in Ok (acc ++ concat ls).
Proof.
  revert acc. induction ps as [|p ps IH]; intros acc; simpl.
  - by rewrite app_nil_r.
  - unfold page_items.
    destruct (probe k1 k2 (structured_data p)) as [[x|]|e]; cbn [bind]; [| |done].
    + rewrite py_extend_acc.
      destruct (py_extend [] x) as [l|e]; cbn [bind]; [|done].
      rewrite IH. destruct (FullContent.mapM _ ps); cbn [bind]; [|done].
      simpl. by rewrite app_assoc.
    + rewrite IH. by destruct (FullContent.mapM _ ps).
Qed.

Lemma extend_loop_concat (k1 k2 : string) (ps : list page) (acc : list json) :
  Forall (has_list k1 k2) ps →
  extend_loop k1 k2 ps acc
  = Ok (acc ++ concat (map (spec_page_items k1 k2) ps)).
Proof.
  intros Hps. revert acc.
  induction Hps as [|p ps [[m Hm] Hlist] _ IH]; intros acc; simpl.
  - by rewrite app_nil_r.
  - rewrite (probe_page _ _ _ _ Hm). simpl. unfold spec_page_items.
    destruct (spec_page_value k1 k2 p) as [v|] eqn:Hv.
    + destruct (Hlist v eq_refl) as [items ->]. simpl.
      rewrite IH. by rewrite <- app_assoc.
    + simpl. by rewrite IH.
Qed.

Lemma page_items_list (k1 k2 : string) (p : page) :
  has_list k1 k2 p → page_items k1 k2 p = Ok (spec_page_items k1 k2 p).
Proof.
  intros [[m Hm] Hlist]. unfold page_items, spec_page_items.
  rewrite (probe_page _ _ _ _ Hm). cbn [bind].
  destruct (spec_page_value k1 k2 p) as [v|] eqn:Hv; [|done].
  by destruct (Hlist v eq_refl) as [items ->].
Qed.

Lemma length_concat_sum {A} (ls : list (list A)) :
  length (concat ls) = sum_list (map length ls).
Proof.
  induction ls as [|l ls IH]; [done|]. simpl. by rewrite length_app, IH.
Qed.

(** What a merge of a list aggregate gives: the concatenation of what the
    pages add, in page order, or the exception of the first page whose
    value cannot be merged. *)
#[warning="-inconsistent-scopes"]
Local Abbreviation merged k1 k2 out field r :=
  (match out with
   | Ok r' =>
       ∃ ls, Forall2 (fun p l => page_items k1 k2 p = Ok l) (pages r) ls
             ∧ field r' = concat ls
             ∧ length (field r') = sum_list (map length ls)
             ∧ pages r' = pages r
   | Raise e =>
       ∃ before p after,
         pages r = before ++ p :: after
         ∧ Forall (fun q => raised (page_items k1 k2 q) = false) before
         ∧ page_items k1 k2 p = Raise e
   end).

(** C8 (amended).  When [extract_well_plate_data] returns, the aggregated
    well-plate list is the concatenation, page after page, of what each
    page adds: the items of the value under [well_plate_data] when that
    key is present, else of the value under [wells] when that one is
    present, else nothing.  Nothing is reordered and nothing is removed:
    the length of the aggregate is the sum of the lengths.  It raises,
    with the exception of the first page that cannot be merged, as soon as
    the structured data of a page cannot be probed or the value read
    cannot be iterated.  Likewise the standards list with
    [standards_table] and [standards].  On a page whose structured data is
    an object holding a list under the key read, what the page adds is
    that list; and on pages all of this shape the merge returns the
    concatenation of these lists. *)
Theorem aggregated_lists_are_concatenations (r : results) :
  merged "well_plate_data" "wells" (extract_well_plate_data r) well_plate_data r
  ∧ merged "standards_table" "standards" (extract_standards_table r)
           standards_table r
  ∧ (∀ k1 k2 p, has_list k1 k2 p →
       page_items k1 k2 p = Ok (spec_page_items k1 k2 p))
  ∧ (Forall (has_list "well_plate_data" "wells") (pages r) →
     ∃ r', extract_well_plate_data r = Ok r'
           ∧ well_plate_data r'
             = concat (map (spec_page_items "well_plate_data" "wells") (pages r)))
  ∧ (Forall (has_list "standards_table" "standards") (pages r) →
     ∃ r', extract_standards_table r = Ok r'
           ∧ standards_table r'
             = concat (map (spec_page_items "standards_table" "standards") (pages r))).
Proof.
  assert (Hmerged : ∀ k1 k2,
            match extend_loop k1 k2 (pages r) [] with
            | Ok acc =>
                ∃ ls, Forall2 (fun p l => page_items k1 k2 p = Ok l) (pages r) ls
                      ∧ acc = concat ls
            | Raise e =>
                ∃ before p after,
                  pages r = before ++ p :: after
                  ∧ Forall (fun q => raised (page_items k1 k2 q) = false) before
                  ∧ page_items k1 k2 p = Raise e
            end).
  { intros k1 k2. rewrite extend_loop_pages.
    destruct (FullContent.mapM (page_items k1 k2) (pages r)) as [ls|e] eqn:Hls;
      cbn [bind].
    - exists ls. split; [by apply mapM_Ok|done].
    - by apply mapM_Raise. }
  split; [|split; [|split; [|split]]].
  - unfold extract_well_plate_data.
    specialize (Hmerged "well_plate_data" "wells").
    destruct (extend_loop _ _ _ _) as [acc|e]; cbn [bind]; [|done].
    destruct Hmerged as (ls & Hls & ->). exists ls.
    cbn [well_plate_data pages]. repeat split; [done|].
    apply length_concat_sum.
  - unfold extract_standards_table.
    specialize (Hmerged "standards_table" "standards").
    destruct (extend_loop _ _ _ _) as [acc|e]; cbn [bind]; [|done].
    destruct Hmerged as (ls & Hls & ->). exists ls.
    cbn [standards_table pages]. repeat split; [done|].
    apply length_concat_sum.
  - apply page_items_list.
  - intros Hps. unfold extract_well_plate_data.
    rewrite (extend_loop_concat _ _ _ [] Hps). cbn [bind]. by eexists.
  - intros Hps. unfold extract_standards_table.
    rewrite (extend_loop_concat _ _ _ [] Hps). cbn [bind]. by eexists.
Qed.

Lemma update_pairs_acc (i : nat) (items : list json) (acc : gmap string json) :
  update_pairs i items acc
  = let* d := update_pairs i items ∅ in Ok (d ∪ acc).
Proof.
  revert i acc. induction items as [|x items IH]; intros i acc; simpl.
  - by rewrite (left_id_L ∅ (∪)).
  - destruct (pair_of i x) as [[k v]|e]; cbn [bind fst snd]; [|done].
    destruct k as [| | |s| |]; cbn [set_item bind]; try done; try apply IH.
    rewrite (IH (S i) (<[s:=v]> acc)), (IH (S i) (<[s:=v]> ∅)).
    destruct (update_pairs (S i) items ∅) as [d|e]; cbn [bind]; [|done].
    f_equal. rewrite insert_empty, insert_union_singleton_l.
    by rewrite (assoc_L (∪)).
Qed.

Lemma py_update_acc (acc : gmap string json) (x : json) :
  py_update acc x = let* d := py_update ∅ x in Ok (d ∪ acc).
Proof.
  destruct x; cbn [py_update bind]; try done; try apply update_pairs_acc.
  by rewrite (right_id_L ∅ (∪)).
Qed.

(** The loop of the settings, page by page. *)
Lemma update_loop_pages (ps : list page) (acc : gmap string json) :
  update_loop ps acc
  = let* ds := FullContent.mapM page_settings ps in
    Ok (foldl (fun a d => d ∪ a) acc ds).
Proof.
  revert acc. induction ps as [|p ps IH]; intros acc; simpl; [done|].
  unfold page_settings.
  destruct (probe "settings" "instrument_settings" (structured_data p))
    as [[x|]|e]; cbn [bind]; [| |done].
  - rewrite py_update_acc.
    destruct (py_update ∅ x) as [d|e]; cbn [bind]; [|done].
    rewrite IH. by destruct (FullContent.mapM _ ps).
  - rewrite IH. destruct (FullContent.mapM _ ps); cbn [bind]; [|done].
    simpl. by rewrite (left_id_L ∅ (∪)).
Qed.

Lemma fold_untouched (k : string) (ds : list (gmap string json))
    (acc : gmap string json) :
  Forall (fun d => d !! k = None) ds →
  foldl (fun a d => d ∪ a) acc ds !! k = acc !! k.
Proof.
  intros Hds. revert acc. induction Hds as [|d ds Hd _ IH]; intros acc; [done|].
  simpl. rewrite IH. by rewrite lookup_union_r.
Qed.

Lemma page_settings_object (p : page) :
  has_settings_object p → page_settings p = Ok (spec_page_settings p).
Proof.
  intros [[m Hm] Hobj]. unfold page_settings, spec_page_settings.
  rewrite (probe_page _ _ _ _ Hm). cbn [bind].
  destruct (spec_page_value "settings" "instrument_settings" p) as [v|] eqn:Hv;
    [|done].
  destruct (Hobj v eq_refl) as [d ->]. cbn [py_update].
  by rewrite (right_id_L ∅ (∪)).
Qed.

(** C9 (amended).  When [extract_settings] returns, the settings are the
    initial ones updated, page after page, with what each page sets: a
    key set by a page and by no later page has that page's value at the
    end, whatever earlier pages or the initial settings held for it, and a
    key no page sets keeps its initial value.  It raises, with the
    exception of the first page that cannot be merged, as soon as the
    structured data of a page cannot be probed or the value read is
    neither a dictionary nor a sequence of pairs.  A page whose structured
    data is an object sets what it holds under [settings];
    [instrument_settings] is read only when the key [settings] is
    absent. *)
Theorem settings_later_page_wins (r : results) :
  match extract_settings r with
  | Ok r' =>
      ∃ ds,
        Forall2 (fun p d => page_settings p = Ok d) (pages r) ds
        ∧ settings r' = foldl (fun a d => d ∪ a) (settings r) ds
        ∧ (∀ before d after k v,
             ds = before ++ d :: after →
             d !! k = Some v →
             Forall (fun d' => d' !! k = None) after →
             settings r' !! k = Some v)
        ∧ (∀ k, Forall (fun d => d !! k = None) ds →
                settings r' !! k = settings r !! k)
        ∧ pages r' = pages r
  | Raise e =>
      ∃ before p after,
        pages r = before ++ p :: after
        ∧ Forall (fun q => raised (page_settings q) = false) before
        ∧ page_settings p = Raise e
  end
  ∧ (∀ p d v, structured_data p = JObj d → members d !! "settings" = Some v →
              probe "settings" "instrument_settings" (structured_data p)
              = Ok (Some v))
  ∧ (∀ p d, structured_data p = JObj d → members d !! "settings" = None →
            probe "settings" "instrument_settings" (structured_data p)
            = Ok (members d !! "instrument_settings"))
  ∧ (∀ p, has_settings_object p →
          page_settings p = Ok (spec_page_settings p)).
Proof.
  split; [|split; [|split]].
  - unfold extract_settings. rewrite update_loop_pages.
    destruct (FullContent.mapM page_settings (pages r)) as [ds|e] eqn:Hds;
      cbn [bind].
    + exists ds. cbn [settings pages]. split; [by apply mapM_Ok|].
      split; [done|]. split; [|split; [|done]].
      * intros before d after k v -> Hd Hafter.
        rewrite foldl_app. simpl. rewrite fold_untouched by done.
        by apply lookup_union_Some_l.
      * intros k Hnone. by apply fold_untouched.
    + by apply mapM_Raise.
  - intros p d v -> Hv. rewrite probe_object. by rewrite Hv.
  - intros p d -> Hv. rewrite probe_object. by rewrite Hv.
  - apply page_settings_object.
Qed.

End Aggregation.

(** Checks the shape of the pages of a concrete document. *)
Ltac page_shapes :=
  lazymatch goal with
  | |- Forall _ [] => constructor
  | |- Forall _ (_ :: _) => constructor
  | |- Extractor.has_list _ _ _ => split
  | |- Extractor.has_settings_object _ => split
  | |- ∃ m, _ = Extractor.JObj m => eexists; reflexivity
  | |- ∀ v, _ = Some v → _ =>
      let H := fresh in
      intros ? H; vm_compute in H; first [discriminate H | injection H as <-; eauto]
  end.

Lemma aggregated_lists_witness :
  let well (id : string) := Extractor.JObj [("well", Extractor.JStr id)] in
  let p1 := Extractor.mkPage 1 "page 1"
              (Extractor.JObj [("well_plate_data", Extractor.JList [well "A1"]);
                               ("wells", Extractor.JList [well "H12"])]) in
  let p2 := Extractor.mkPage 2 "page 2"
              (Extractor.JObj [("wells", Extractor.JList [well "B1"; well "A1"])]) in
  let p3 := Extractor.mkPage 3 "page 3" (Extractor.JObj []) in
  let r := Extractor.mkResults "plate.pdf" ∅ [p1; p2; p3] [] [] ∅ [] "" "" in
  ∃ r', Extractor.extract_well_plate_data r = Ok r'
        ∧ Extractor.well_plate_data r' = [well "A1"; well "B1"; well "A1"].
Proof.
  intros well p1 p2 p3 r.
  destruct (aggregated_lists_are_concatenations r) as (_ & _ & _ & Hwells & _).
  destruct Hwells as (r' & Hr' & Hwells).
  - unfold r, p1, p2, p3. cbn [Extractor.pages]. repeat page_shapes.
  - exists r'. split; [exact Hr'|]. rewrite Hwells. reflexivity.
Defined.

(** C8, as the claim words it for every list of page records: a page
    whose reply gives [null] under the key makes the merge raise, so that
    there is no aggregated list (and [extract_pdf_with_vision] returns
    [None]). *)
Lemma null_value_breaks_the_merge :
  let p1 := Extractor.mkPage 1 "page 1"
              (Extractor.JObj
                 [("well_plate_data",
                   Extractor.JList [Extractor.JObj [("well", Extractor.JStr "A1")]])]) in
  let p2 := Extractor.mkPage 2 "page 2"
              (Extractor.JObj [("well_plate_data", Extractor.JNull)]) in
  let r := Extractor.mkResults "plate.pdf" ∅ [p1; p2] [] [] ∅ [] "" "" in
  Extractor.extract_well_plate_data r
  = Raise (Extractor.type_error "object is not iterable")
  ∧ ¬ (∀ r : Extractor.results,
         ∃ r', Extractor.extract_well_plate_data r = Ok r'
               ∧ Extractor.well_plate_data r'
                 = concat (map (Extractor.spec_page_items "well_plate_data" "wells")
                               (Extractor.pages r))).
Proof.
  intros p1 p2 r. split; [reflexivity|].
  intros H. destruct (H r) as (r' & Hr' & _). discriminate Hr'.
Defined.

Lemma settings_later_page_wins_witness :
  let p1 := Extractor.mkPage 1 "page 1"
              (Extractor.JObj
                 [("settings", Extractor.JObj [("PMT", Extractor.JStr "Low")]);
                  ("instrument_settings",
                   Extractor.JObj [("PMT", Extractor.JStr "Ignored")])]) in
  let p2 := Extractor.mkPage 2 "page 2"
              (Extractor.JObj
                 [("instrument_settings",
                   Extractor.JObj [("PMT", Extractor.JStr "High")])]) in
  let p3 := Extractor.mkPage 3 "page 3"
              (Extractor.JObj
                 [("settings",
                   Extractor.JList [Extractor.JList [Extractor.JStr "Gain";
                                                     Extractor.JNum "2"]])]) in
  let r := Extractor.mkResults "plate.pdf" ∅ [p1; p2; p3] [] [] ∅ [] "" "" in
  ∃ r', Extractor.extract_settings r = Ok r'
        ∧ Extractor.settings r' !! "PMT" = Some (Extractor.JStr "High")
        ∧ Extractor.settings r' !! "Gain" = Some (Extractor.JNum "2").
Proof.
  intros p1 p2 p3 r.
  pose proof (proj1 (settings_later_page_wins r)) as (ds & Hds & _ & Hlast & _).
  eexists. split; [reflexivity|].
  set (d1 := ({[ "PMT" := Extractor.JStr "Low" ]} : gmap string Extractor.json)).
  set (d2 := ({[ "PMT" := Extractor.JStr "High" ]} : gmap string Extractor.json)).
  set (d3 := ({[ "Gain" := Extractor.JNum "2" ]} : gmap string Extractor.json)).
  assert (Hpages : FullContent.mapM Extractor.page_settings (Extractor.pages r)
                   = Ok [d1; d2; d3]) by (vm_compute; reflexivity).
  apply mapM_Ok in Hds. rewrite Hpages in Hds. injection Hds as <-.
  split.
  - apply (Hlast [d1] d2 [d3] "PMT" (Extractor.JStr "High")).
    + reflexivity.
    + vm_compute. reflexivity.
    + repeat constructor.
  - apply (Hlast [d1; d2] d3 [] "Gain" (Extractor.JNum "2")).
    + reflexivity.
    + vm_compute. reflexivity.
    + constructor.
Defined.

(** C9, as the claim words it for every sequence of pages: a page whose
    reply gives [null] under [settings] makes the merge raise, and the
    settings of the earlier pages are lost with it. *)
Lemma null_settings_break_the_merge :
  let p1 := Extractor.mkPage 1 "page 1"
              (Extractor.JObj
                 [("settings", Extractor.JObj [("PMT", Extractor.JStr "Low")])]) in
  let p2 := Extractor.mkPage 2 "page 2"
              (Extractor.JObj [("settings", Extractor.JNull)]) in
  let r := Extractor.mkResults "plate.pdf" ∅ [p1; p2] [] [] ∅ [] "" "" in
  Extractor.extract_settings r
  = Raise (Extractor.type_error "object is not iterable")
  ∧ ¬ (∀ r : Extractor.results,
         ∃ r', Extractor.extract_settings r = Ok r'
               ∧ ∀ before p after k v,
                   Extractor.pages r = before ++ p :: after →
                   Extractor.spec_page_settings p !! k = Some v →
                   Forall (fun q => Extractor.spec_page_settings q !! k = None) after →
                   Extractor.settings r' !! k = Some v).
Proof.
  intros p1 p2 r. split; [reflexivity|].
  intros H. destruct (H r) as (r' & Hr' & _). discriminate Hr'.
Defined.

(** ** Exit statuses *)

Section ExitStatus.
Context `{E : Pandas.Engine}.
Import Scripts.

Lemma main_status (f : FullContent.input_file) (code : Z)
    (out : list FullContent.written) :
  FullContent.main f = Ok (code, out) →
  code = if FullContent.file_exists f then 0%Z else 2%Z.
Proof.
  unfold FullContent.main.
  destruct (FullContent.file_exists f); simpl negb; cbv iota;
    [|by intros [= <- _]].
  destruct (FullContent.find_full_content_section _) as [[[sl hi] ht]|].
  - destruct (FullContent.parse_table_from_section sl) as [[[df|] m]|e];
      cbn [bind]; [| |done].
    + destruct (Pandas.empty df);
        destruct (FullContent.to_excel _); cbn [bind]; [|done| |done];
        by intros [= <- _].
    + destruct (FullContent.to_excel _); cbn [bind]; [|done].
      by intros [= <- _].
  - destruct (FullContent.to_excel _); cbn [bind]; [|done].
    by intros [= <- _].
Qed.

(** C6 (amended).  [extract_fullcontent_to_excel.py] exits with 1 when the
    path argument is missing, with 2 when the file it names does not
    exist, and with 0 when the file exists and [main] completes.  The two
    other scripts take no argument and never choose a status:
    [csv_to_excel_converter.py] ends with 0 when it completes, and also
    when its input file is missing (it prints a message and returns);
    [CSV_To_Excel.py] ends with 0 when it completes, and with the status 1
    of an uncaught [FileNotFoundError] when its input file is missing. *)
Theorem exit_statuses_of_the_scripts :
  (∀ argv open, length argv < 2 →
     exit_status (extract_fullcontent_to_excel argv open) = 1%Z)
  ∧ (∀ argv open path,
       argv !! 1 = Some path → FullContent.file_exists (open path) = false →
       exit_status (extract_fullcontent_to_excel argv open) = 2%Z)
  ∧ (∀ argv open path result,
       argv !! 1 = Some path → FullContent.file_exists (open path) = true →
       FullContent.main (open path) = Ok result →
       exit_status (extract_fullcontent_to_excel argv open) = 0%Z)
  ∧ (∀ src, source_exists src = false →
       exit_status (csv_to_excel_converter src) = 0%Z)
  ∧ (∀ src sheet, csv_to_excel_key_value src = Ok sheet →
       exit_status (csv_to_excel_converter src) = 0%Z)
  ∧ (∀ expand src, source_exists src = false →
       exit_status (CSV_To_Excel expand src) = 1%Z)
  ∧ (∀ expand src df, CSV_To_Excel_body expand src = Ok df →
       exit_status (CSV_To_Excel expand src) = 0%Z).
Proof.
  repeat split.
  - intros argv open Hlen. unfold extract_fullcontent_to_excel.
    by rewrite (proj2 (Nat.ltb_lt _ _) Hlen).
  - intros argv open path Hpath Hmissing. unfold extract_fullcontent_to_excel.
    apply lookup_lt_Some in Hpath as Hlen.
    rewrite (proj2 (Nat.ltb_ge _ _)) by lia.
    unfold FullContent.index. rewrite Hpath.
    unfold FullContent.main. by rewrite Hmissing.
  - intros argv open path [code out] Hpath Hexists Hmain.
    unfold extract_fullcontent_to_excel.
    apply lookup_lt_Some in Hpath as Hlen.
    rewrite (proj2 (Nat.ltb_ge _ _)) by lia.
    unfold FullContent.index. rewrite Hpath, Hmain. simpl.
    apply main_status in Hmain. by rewrite Hexists in Hmain.
  - intros src Hmissing. unfold csv_to_excel_converter, csv_to_excel_key_value.
    by rewrite Hmissing.
  - intros src sheet Hok. unfold csv_to_excel_converter. by rewrite Hok.
  - intros expand src Hmissing. unfold CSV_To_Excel, CSV_To_Excel_body.
    by rewrite Hmissing.
  - intros expand src df Hok. unfold CSV_To_Excel. by rewrite Hok.
Qed.

End ExitStatus.

Lemma exit_statuses_witness :
  let present := FullContent.mkInput (str "pg1_data") true (str "Name: a") in
  let absent := FullContent.mkInput (str "pg1_data") false [] in
  let table := Pandas.mkDataFrame [str "Category"; str "Field"; str "Value"]
                 [[Some (str "=== METADATA ==="); None; None];
                  [Some (str "PDF Info"); Some (str "title"); Some (str "Plate 7")]] in
  Scripts.exit_status
    (Scripts.extract_fullcontent_to_excel (E := Pandas.python_engine)
       [str "extract.py"] (fun _ => present)) = 1%Z
  ∧ Scripts.exit_status
      (Scripts.extract_fullcontent_to_excel (E := Pandas.python_engine)
         [str "extract.py"; str "pg1_data.csv"] (fun _ => absent)) = 2%Z
  ∧ Scripts.exit_status
      (Scripts.extract_fullcontent_to_excel (E := Pandas.python_engine)
         [str "extract.py"; str "pg1_data.csv"] (fun _ => present)) = 0%Z
  ∧ Scripts.exit_status
      (Scripts.csv_to_excel_converter
         (Scripts.mkSource false (Raise (Exn FileNotFoundError "")))) = 0%Z
  ∧ Scripts.exit_status
      (Scripts.csv_to_excel_converter (Scripts.mkSource true (Ok table))) = 0%Z
  ∧ Scripts.exit_status
      (Scripts.CSV_To_Excel Ok
         (Scripts.mkSource false (Raise (Exn FileNotFoundError "")))) = 1%Z
  ∧ Scripts.exit_status
      (Scripts.CSV_To_Excel Ok (Scripts.mkSource true (Ok table))) = 0%Z.
Proof.
  intros present absent table.
  destruct (exit_statuses_of_the_scripts (E := Pandas.python_engine))
    as (H1 & H2 & H3 & H4 & H5 & H6 & H7).
  split; [apply H1; simpl; lia|].
  split; [by apply (H2 _ _ (str "pg1_data.csv"))|].
  split; [by eapply (H3 _ _ (str "pg1_data.csv"))|].
  split; [by apply H4|].
  split; [by eapply H5|].
  split; [by apply H6|].
  by eapply H7.
Defined.

(** C6, as the claim words it for every script: the converter does not
    exit with 2 on a missing input file. *)
Lemma converter_missing_input_exits_with_0 :
  ¬ (∀ src, Scripts.source_exists src = false →
            Scripts.exit_status (Scripts.csv_to_excel_converter src) = 2%Z).
Proof.
  intros Hclaim.
  specialize (Hclaim (Scripts.mkSource false (Raise (Exn FileNotFoundError "")))
                     eq_refl).
  discriminate Hclaim.
Qed.

(** ** Table recovery: the pipe table comes first *)

Section PipeTable.
Context `{E : Pandas.Engine}.
Import FullContent.

Lemma splitlines_nonempty (s : text) :
  s ≠ [] → 1 ≤ length (PyStr.splitlines s).
Proof.
  destruct s as [|c s]; [done|]. intros _. cbn [PyStr.splitlines].
  destruct (PyStr.islinebreak c).
  - destruct s as [|d s]; cbn [length]; [lia|].
    destruct (_ && _); cbn [length]; lia.
  - destruct (PyStr.splitlines s); cbn [length]; lia.
Qed.

Lemma splitlines_two (a b : text) :
  b ≠ [] → 2 ≤ length (PyStr.splitlines (a ++ "010"%char :: b)).
Proof.
  intros Hb. induction a as [|c a IH].
  - destruct b as [|d b]; [done|].
    change (PyStr.splitlines ([] ++ "010"%char :: d :: b))
      with ([] :: PyStr.splitlines (d :: b)).
    cbn [length].
    pose proof (splitlines_nonempty (d :: b) ltac:(done)). lia.
  - cbn [app PyStr.splitlines].
    destruct (PyStr.islinebreak c).
    + destruct (a ++ "010"%char :: b) as [|d rest] eqn:Hrest.
      { by destruct a. }
      destruct (_ && _); cbn [length].
      * assert (rest ≠ []) as Hne.
        { destruct a as [|? a]; simpl in Hrest; injection Hrest as _ <-;
            [done|by destruct a]. }
        pose proof (splitlines_nonempty rest Hne). lia.
      * pose proof (splitlines_nonempty (d :: rest) ltac:(done)). lia.
    + destruct (PyStr.splitlines (a ++ "010"%char :: b)); cbn [length] in *; lia.
Qed.

Lemma join_cons_cons (sep p q : text) (ps : list text) :
  PyStr.join sep (p :: q :: ps) = p ++ sep ++ PyStr.join sep (q :: ps).
Proof. done. Qed.

Lemma join_head_nonempty (sep p : text) (ps : list text) :
  p ≠ [] → PyStr.join sep (p :: ps) ≠ [].
Proof. destruct ps; simpl; [done|]. by destruct p. Qed.

(** What [extract_markdown_pipe_table] returns is a block of at least two
    lines whose second line passes the separator test. *)
Lemma extract_markdown_pipe_table_block (lines : list text) (md : text) :
  extract_markdown_pipe_table lines = Some md →
  ∃ ln nxt more,
    md = PyStr.join LF (ln :: nxt :: more)
    ∧ is_pipe_row ln = true ∧ Re.search re_separator nxt = true.
Proof.
  induction lines as [|ln lines IH]; [done|]. simpl.
  destruct lines as [|nxt more]; [done|].
  destruct (is_pipe_row ln && Re.search re_separator nxt) eqn:Htest.
  - intros [= <-]. apply andb_true_iff in Htest as [? ?]. by eexists _, _, _.
  - exact IH.
Qed.

Lemma extract_markdown_pipe_table_found (lines : list text) (i : nat)
    (hdr sepl : text) :
  lines !! i = Some hdr → lines !! S i = Some sepl →
  is_pipe_row hdr = true → Re.search re_separator sepl = true →
  ∃ md, extract_markdown_pipe_table lines = Some md.
Proof.
  revert i. induction lines as [|ln lines IH]; intros i Hi HSi Hrow Hsep; [done|].
  simpl. destruct lines as [|nxt more]; [by destruct i|].
  destruct (is_pipe_row ln && Re.search re_separator nxt) eqn:Htest; [eauto|].
  destruct i as [|i].
  - simpl in Hi, HSi. injection Hi as ->. injection HSi as ->.
    by rewrite Hrow, Hsep in Htest.
  - by apply (IH i).
Qed.

Lemma pipe_block_lines (ln nxt : text) (more : list text) :
  Re.search re_separator nxt = true →
  2 ≤ length (PyStr.splitlines (PyStr.join LF (ln :: nxt :: more)))
  ∧ PyStr.join LF (ln :: nxt :: more) ≠ [].
Proof.
  intros Hsep.
  assert (nxt ≠ []) as Hnxt by (intros ->; discriminate Hsep).
  rewrite join_cons_cons. change (LF ++ ?x) with ("010"%char :: x).
  split.
  - apply splitlines_two. by apply join_head_nonempty.
  - by destruct ln.
Qed.

Lemma manual_pipe_table_method (md : text) :
  2 ≤ length (PyStr.splitlines md) →
  (∃ e, manual_pipe_table md = Raise e)
  ∨ (∃ df, manual_pipe_table md = Ok (Some (df, markdown_pipe_manual))).
Proof.
  intros Hlen. unfold manual_pipe_table.
  rewrite length_map. rewrite (proj2 (Nat.leb_le _ _) Hlen).
  repeat match goal with
         | |- context [bind ?m _] =>
             destruct m eqn:?; cbn [bind]; [|by left; eexists]
         end.
  right. by eexists.
Qed.

(** C2 (amended).  When some line of the section, stripped, starts with a
    pipe and holds another pipe, and the line after it passes the
    separator test, the section has a pipe-table block, and the later
    strategies are never tried: if the pipe-delimited read of the block
    succeeds its table is returned with the method [markdown_pipe]; if
    that read fails and the split by hand gives a table, this one is
    returned with the method [markdown_pipe_manual]; and every result the
    function returns has one of these two methods, whatever comma runs
    the section also holds. *)
Theorem pipe_table_wins_over_later_strategies (lines : list text) :
  (∃ i hdr sepl,
     lines !! i = Some hdr ∧ lines !! S i = Some sepl
     ∧ is_pipe_row hdr = true ∧ Re.search re_separator sepl = true) →
  ∃ md,
    extract_markdown_pipe_table lines = Some md
    ∧ (∀ df, read_pipe_table md = Ok df →
             parse_table_from_section lines = Ok (Some df, markdown_pipe))
    ∧ (∀ e df, read_pipe_table md = Raise e →
               manual_pipe_table md = Ok (Some (df, markdown_pipe_manual)) →
               parse_table_from_section lines
               = Ok (Some df, markdown_pipe_manual))
    ∧ (∀ df m, parse_table_from_section lines = Ok (df, m) →
               m = markdown_pipe ∨ m = markdown_pipe_manual).
Proof.
  intros (i & hdr & sepl & Hi & HSi & Hrow & Hsep).
  destruct (extract_markdown_pipe_table_found _ _ _ _ Hi HSi Hrow Hsep)
    as [md Hmd].
  exists md. split; [exact Hmd|].
  destruct (extract_markdown_pipe_table_block _ _ Hmd)
    as (ln & nxt & more & -> & _ & Hnxt).
  destruct (pipe_block_lines ln nxt more Hnxt) as [Hlen Hne].
  assert (lines ≠ []) as Hlines by (intros ->; done).
  unfold parse_table_from_section.
  destruct lines as [|l0 lines']; [done|]. rewrite Hmd.
  destruct (PyStr.join LF (ln :: nxt :: more)) as [|c md'] eqn:Hjoin; [done|].
  split; [|split].
  - intros df ->. done.
  - intros e df -> ->. done.
  - intros df m. destruct (read_pipe_table (c :: md')) as [df0|e].
    + intros [= _ <-]. by left.
    + destruct (manual_pipe_table_method (c :: md') Hlen) as [[e' ->]|[df' ->]].
      * done.
      * cbn [bind]. intros [= _ <-]. by right.
Qed.

End PipeTable.

Lemma pipe_table_wins_witness :
  let lines := [str "| Well | Value |"; str "|------|-------|";
                str "| A1 | 0.52 |"; str "x,1"; str "y,2"] in
  let ragged := [str "| Well | Value |"; str "|------|-------|";
                 str "| A1 | 0.52 | |"; str "x,1"; str "y,2"] in
  FullContent.extract_csv_like_block lines
  = Some (PyStr.join FullContent.LF [str "x,1"; str "y,2"])
  ∧ FullContent.parse_table_from_section (E := Pandas.python_engine) lines
    = Ok (Some (Pandas.mkDataFrame
                  [str "Well"; str "Value"]
                  [[Some (str "------"); Some (str "-------")];
                   [Some (str "A1 "); Some (str "0.52 ")]]),
          FullContent.markdown_pipe)
  ∧ FullContent.parse_table_from_section (E := Pandas.python_engine) ragged
    = Ok (Some (Pandas.mkDataFrame
                  [str "Well"; str "Value"]
                  [[Some (str "A1"); Some (str "0.52")]]),
          FullContent.markdown_pipe_manual).
Proof.
  intros lines ragged. split; [reflexivity|]. split.
  - destruct (pipe_table_wins_over_later_strategies
                (E := Pandas.python_engine) lines)
      as (md & Hmd & Hread & _).
    + exists 0, (str "| Well | Value |"), (str "|------|-------|").
      repeat split; reflexivity.
    + vm_compute in Hmd. injection Hmd as <-.
      apply Hread. reflexivity.
  - destruct (pipe_table_wins_over_later_strategies
                (E := Pandas.python_engine) ragged)
      as (md & Hmd & _ & Hmanual & _).
    + exists 0, (str "| Well | Value |"), (str "|------|-------|").
      repeat split; reflexivity.
    + vm_compute in Hmd. injection Hmd as <-.
      eapply Hmanual; vm_compute; reflexivity.
Defined.

(** C2, as the claim words it: a line that starts with a pipe followed by
    a dashed separator line is not enough for strategy 1.  The header line
    of this one-column table holds no second pipe, the script sees no pipe
    table in it, and the comma run of its rows is parsed by strategy 2. *)
Lemma single_pipe_header_goes_to_csv_block :
  ¬ (∀ (E : Pandas.Engine) (lines : list text),
       (∃ i hdr sepl,
          lines !! i = Some hdr ∧ lines !! S i = Some sepl
          ∧ FullContent.starts_with_pipe hdr = true
          ∧ Re.search FullContent.re_separator sepl = true) →
       ∃ df m,
         FullContent.parse_table_from_section lines = Ok (df, m)
         ∧ (m = FullContent.markdown_pipe ∨ m = FullContent.markdown_pipe_manual)).
Proof.
  intros Hclaim.
  destruct (Hclaim Pandas.python_engine
              [str "| Item"; str "|------"; str "| a,b"; str "| c,d"])
    as (df & m & Hparse & Hm).
  - exists 0, (str "| Item"), (str "|------"). repeat split; reflexivity.
  - vm_compute in Hparse. injection Hparse as _ <-.
    destruct Hm; discriminate.
Qed.

(** ** Table recovery: what can go wrong in strategy 1 *)

Section ManualSplit.
Context `{E : Pandas.Engine}.
Import FullContent.

(** The empty section is the explicit [empty] outcome. *)
Lemma parse_table_from_section_empty :
  parse_table_from_section [] = Ok (None, empty).
Proof. reflexivity. Qed.

Lemma key_value_lines_filtered (lines : list text) :
  Forall (fun ln => is_key_value_line ln = true)
         (filter (fun ln => is_key_value_line ln = true) lines).
Proof.
  apply Forall_forall. intros ln Hln. by apply list_elem_of_filter in Hln as [? _].
Qed.

(** Strategies 3 to 5 never raise and never return an empty table. *)
Lemma parse_plain_returns (lines : list text) :
  ∃ df m, parse_plain lines = Ok (Some df, m)
          ∧ Pandas.empty df = false
          ∧ (m = key_value ∨ m = paragraphs ∨ m = raw_single).
Proof.
  unfold parse_plain, extract_key_value_block.
  pose proof (key_value_lines_filtered lines) as Hall.
  set (kv := filter _ lines) in *.
  destruct (2 <=? length kv) eqn:Hkv.
  - apply Nat.leb_le in Hkv.
    destruct kv as [|k1 kv']; [simpl in Hkv; lia|].
    rewrite key_value_table by done.
    eexists _, _. repeat split; eauto.
  - set (paras := filter _ _).
    destruct (1 <? length paras) eqn:Hparas.
    + apply Nat.ltb_lt in Hparas.
      eexists _, _. repeat split; [|eauto].
      destruct paras; [simpl in Hparas; lia|done].
    + eexists _, _. repeat split; eauto.
Qed.

(** Without a pipe-table block the function never raises. *)
Lemma parse_without_pipe_block_returns (lines : list text) :
  extract_markdown_pipe_table lines = None →
  ∃ r, parse_table_from_section lines = Ok r.
Proof.
  intros Hmd. unfold parse_table_from_section.
  destruct lines as [|l0 lines']; [eauto|]. rewrite Hmd.
  unfold parse_from_csv.
  destruct (parse_plain_returns (l0 :: lines')) as (df & m & -> & _).
  destruct (extract_csv_like_block _) as [[|c csv]|]; eauto.
  destruct (Pandas.read_csv _ _); eauto.
  destruct (Pandas.read_csv _ _); eauto.
Qed.

(** C1, at the input that breaks it.  The block of this section is a pipe
    table whose data row has more cells than its header.  When the
    pipe-delimited read rejects the block, the [except] branch splits it
    by hand and builds the table from one row of four cells and two column
    labels; the constructor raises [ValueError] inside the handler, and
    [parse_table_from_section] raises instead of falling back. *)
Theorem ragged_pipe_table_raises :
  let lines := [str "| a | b |"; str "|---|---|"; str "| 1 | 2 | 3 | 4 |"] in
  raised (Pandas.read_csv (Pandas.mkOpts "|" true) (PyStr.join LF lines)) = true →
  extract_markdown_pipe_table lines = Some (PyStr.join LF lines)
  ∧ parse_table_from_section lines
    = Raise (Exn ValueError "2 columns passed, passed data had 4 columns").
Proof.
  intros lines Hraise. split; [reflexivity|].
  unfold parse_table_from_section.
  change (extract_markdown_pipe_table lines) with (Some (PyStr.join LF lines)).
  change (PyStr.join LF lines) with (str "| a | b |" ++ "010"%char :: PyStr.join LF (tail lines)) at 1.
  cbn [str list_ascii_of_string app].
  change ("|"%char :: " "%char :: "a"%char :: " "%char :: "|"%char :: " "%char
          :: "b"%char :: " "%char :: "|"%char :: "010"%char :: PyStr.join LF (tail lines))
    with (PyStr.join LF lines).
  unfold read_pipe_table.
  destruct (Pandas.read_csv _ _) as [df|e]; [discriminate Hraise|].
  cbn [bind]. reflexivity.
Qed.

End ManualSplit.

Lemma ragged_pipe_table_raises_witness :
  FullContent.parse_table_from_section (E := Pandas.python_engine)
    [str "| a | b |"; str "|---|---|"; str "| 1 | 2 | 3 | 4 |"]
  = Raise (Exn ValueError "2 columns passed, passed data had 4 columns").
Proof.
  apply (ragged_pipe_table_raises (E := Pandas.python_engine)).
  reflexivity.
Defined.

(** ** The two readings of a pattern agree *)

Section RegexSemantics.
Import Re.

Lemma star_ends_sound (a : regex) (fuel : nat) :
  (∀ c c', c' ∈ ends a c → matches a c c') →
  ∀ c c', c' ∈ star_ends (ends a) fuel c → matches (Star a) c c'.
Proof.
  intros Ha. induction fuel as [|fuel IH]; intros c c'; simpl.
  - intros ->%list_elem_of_singleton. constructor.
  - rewrite elem_of_app, list_elem_of_singleton.
    intros [Hin| ->]; [|constructor].
    apply list_elem_of_In, in_flat_map in Hin as (c1 & Hc1 & Hin).
    apply list_elem_of_In in Hc1.
    destruct (length c1.2 <? length c.2) eqn:Hlt; [|by destruct Hin].
    apply Nat.ltb_lt in Hlt. apply list_elem_of_In in Hin.
    eapply M_StarCons; eauto.
Qed.

Lemma ends_sound (r : regex) (c c' : cursor) :
  c' ∈ ends r c → matches r c c'.
Proof.
  revert c c'. induction r as [|p|a IHa b IHb|a IHa b IHb|a IHa| | |];
    intros [prev s] c'; cbn [ends fst snd].
  - intros ->%list_elem_of_singleton. constructor.
  - destruct s as [|x rest]; [by intros ?%elem_of_nil|].
    destruct (p x) eqn:Hp; [|by intros ?%elem_of_nil].
    intros ->%list_elem_of_singleton. by constructor.
  - intros (c1 & Hc1 & Hin)%list_elem_of_In%in_flat_map.
    apply list_elem_of_In in Hc1, Hin. econstructor; eauto.
  - rewrite elem_of_app. intros [?|?]; [apply M_AltL|apply M_AltR]; auto.
  - by apply star_ends_sound.
  - destruct prev; [by intros ?%elem_of_nil|].
    intros ->%list_elem_of_singleton. constructor.
  - destruct s as [|x [|y rest]].
    + intros ->%list_elem_of_singleton. constructor.
    + destruct (Ascii.eqb x "010") eqn:Hx; [|by intros ?%elem_of_nil].
      apply Ascii.eqb_eq in Hx as ->.
      intros ->%list_elem_of_singleton. constructor.
    + by intros ?%elem_of_nil.
  - destruct (xorb _ _) eqn:Hx; [|by intros ?%elem_of_nil].
    intros ->%list_elem_of_singleton. by constructor.
Qed.

(** A match ends in a suffix of where it starts. *)
Lemma matches_suffix (r : regex) (c c' : cursor) :
  matches r c c' → ∃ u, c.2 = u ++ c'.2.
Proof.
  induction 1 as [c|p prev x rest Hp|a b c c' c'' _ [u Hu] _ [v Hv]
                  |a b c c' _ IH|a b c c' _ IH|a c
                  |a c c' c'' _ [u Hu] Hlt _ [v Hv]|s|prev|prev|c Hx];
    try (by exists []).
  - by exists [x].
  - exists (u ++ v). by rewrite Hu, Hv, app_assoc.
  - done.
  - done.
  - exists (u ++ v). by rewrite Hu, Hv, app_assoc.
Qed.

Lemma matches_length (r : regex) (c c' : cursor) :
  matches r c c' → length c'.2 ≤ length c.2.
Proof.
  intros [u Hu]%matches_suffix. rewrite Hu, length_app. lia.
Qed.

Lemma star_ends_fuel (step : cursor → list cursor) (f1 f2 : nat) (c : cursor) :
  length c.2 < f1 → length c.2 < f2 →
  star_ends step f1 c = star_ends step f2 c.
Proof.
  revert f2 c. induction f1 as [|f1 IH]; intros [|f2] c H1 H2; try lia.
  simpl. f_equal. apply flat_map_ext. intros c1.
  destruct (length c1.2 <? length c.2) eqn:Hlt; [|done].
  apply Nat.ltb_lt in Hlt. apply IH; lia.
Qed.

Lemma ends_complete (r : regex) (c c' : cursor) :
  matches r c c' → c' ∈ ends r c.
Proof.
  induction 1 as [c|p prev x rest Hp|a b c c' c'' _ IHa _ IHb
                  |a b c c' _ IH|a b c c' _ IH|a c
                  |a c c' c'' _ IHa Hlt _ IHs|s|prev|prev|c Hx];
    cbn [ends fst snd].
  - by apply list_elem_of_singleton.
  - rewrite Hp. by apply list_elem_of_singleton.
  - apply list_elem_of_In, in_flat_map. exists c'.
    split; by apply list_elem_of_In.
  - apply elem_of_app. by left.
  - apply elem_of_app. by right.
  - cbn [star_ends]. apply elem_of_app. right. by apply list_elem_of_singleton.
  - cbn [star_ends]. apply elem_of_app. left.
    apply list_elem_of_In, in_flat_map. exists c'.
    split; [by apply list_elem_of_In|].
    rewrite (proj2 (Nat.ltb_lt _ _) Hlt). apply list_elem_of_In.
    cbn [ends] in IHs.
    by rewrite (star_ends_fuel _ (length c.2) (S (length c'.2))) by lia.
  - by apply list_elem_of_singleton.
  - by apply list_elem_of_singleton.
  - by apply list_elem_of_singleton.
  - rewrite Hx. by apply list_elem_of_singleton.
Qed.

Lemma pmatch_matches (r : regex) (s : text) :
  pmatch r s = true ↔ ∃ c', matches r (start s) c'.
Proof.
  unfold pmatch. split.
  - destruct (ends r (start s)) as [|c' l] eqn:Hends; [done|].
    intros _. exists c'. apply ends_sound. rewrite Hends. left.
  - intros [c' Hc']. apply ends_complete in Hc'.
    destruct (ends r (start s)); [by apply elem_of_nil in Hc'|done].
Qed.

(** A pattern that begins with [^] is only found at the start. *)
Lemma search_anchored (r : regex) (s : text) :
  search (Seq Bol r) s = pmatch (Seq Bol r) s.
Proof.
  unfold search, pmatch, start.
  destruct s as [|x s]; simpl; [by rewrite orb_false_r|].
  rewrite app_nil_r.
  assert (Hrest : ∀ p s', existsb (fun c => match ends (Seq Bol r) c with
                                            | [] => false | _ => true end)
                                  (cursors (Some p) s') = false).
  { intros p s'. revert p. induction s' as [|y s' IH]; intros p; simpl; [done|].
    apply IH. }
  rewrite Hrest. by rewrite orb_false_r.
Qed.

End RegexSemantics.

Section RegexShapes.
Import Re.

Lemma matches_app_right (r : regex) (c c' : cursor) (w : text) :
  no_lookahead r = true → matches r c c' →
  matches r (c.1, c.2 ++ w) (c'.1, c'.2 ++ w).
Proof.
  intros Hr H. induction H as [c|p prev x rest Hp|a b c c' c'' _ IHa _ IHb
                  |a b c c' _ IH|a b c c' _ IH|a c
                  |a c c' c'' _ IHa Hlt _ IHs|s|prev|prev|c Hx];
    simpl in Hr; try discriminate; try apply andb_true_iff in Hr as [Ha Hb].
  - constructor.
  - simpl. by constructor.
  - econstructor; eauto.
  - apply M_AltL; auto.
  - apply M_AltR; auto.
  - constructor.
  - eapply M_StarCons; [by apply IHa| |by apply IHs].
    simpl. rewrite !length_app. lia.
  - constructor.
Qed.

Lemma matches_prev_indep (r : regex) (c c' : cursor) :
  no_anchor r = true → matches r c c' →
  ∀ q, ∃ q', matches r (q, c.2) (q', c'.2).
Proof.
  intros Hr H. induction H as [c|p prev x rest Hp|a b c c' c'' _ IHa _ IHb
                  |a b c c' _ IH|a b c c' _ IH|a c
                  |a c c' c'' _ IHa Hlt _ IHs|s|prev|prev|c Hx];
    simpl in Hr; try discriminate; try apply andb_true_iff in Hr as [Ha Hb];
    intros q.
  - exists q. constructor.
  - exists (Some x). by constructor.
  - destruct (IHa Ha q) as [q1 H1]. destruct (IHb Hb q1) as [q2 H2].
    exists q2. econstructor; eauto.
  - destruct (IH Ha q) as [q1 H1]. exists q1. by apply M_AltL.
  - destruct (IH Hb q) as [q1 H1]. exists q1. by apply M_AltR.
  - exists q. constructor.
  - destruct (IHa Hr q) as [q1 H1]. destruct (IHs Hr q1) as [q2 H2].
    exists q2. eapply M_StarCons; eauto.
Qed.

Lemma star_chr_elim (p : ascii → bool) (c c' : cursor) :
  matches (Star (Chr p)) c c' →
  ∃ w, c.2 = w ++ c'.2 ∧ Forall (fun x => p x = true) w.
Proof.
  intros H. remember (Star (Chr p)) as r eqn:Hr.
  induction H as [| | | | |a c|a c c' c'' Ha _ Hlt Hs IHs| | | |];
    try discriminate.
  - exists []. by split.
  - injection Hr as ->. destruct (IHs eq_refl) as (w & Hw & Hall).
    inversion Ha as [|? prev x rest Hp| | | | | | | | |]; subst.
    exists (x :: w). simpl in *. split; [by rewrite Hw|by constructor].
Qed.

Lemma star_chr_intro (p : ascii → bool) (prev : option ascii) (w rest : text) :
  Forall (fun x => p x = true) w →
  ∃ prev', matches (Star (Chr p)) (prev, w ++ rest) (prev', rest).
Proof.
  intros Hw. revert prev. induction Hw as [|x w Hx _ IH]; intros prev.
  - exists prev. constructor.
  - destruct (IH (Some x)) as [prev' H]. exists prev'.
    change ((x :: w) ++ rest) with (x :: (w ++ rest)).
    eapply M_StarCons; [by constructor| |exact H].
    cbn [fst snd length]. lia.
Qed.

(** Extending the input after a pattern whose first part does not look
    ahead: it is enough to extend the match of the rest. *)
Lemma seq_extend (a b : regex) (w : text) (c c'' : cursor) :
  no_lookahead a = true →
  matches (Seq a b) c c'' →
  (∀ c', (∃ u, c.2 = u ++ c'.2) → matches b c' c'' →
         ∃ d, matches b (c'.1, c'.2 ++ w) d) →
  ∃ d, matches (Seq a b) (c.1, c.2 ++ w) d.
Proof.
  intros Ha H Hb. inversion H as [| |? ? ? c' ? H1 H2| | | | | | | |]; subst.
  destruct (Hb c' (matches_suffix _ _ _ H1) H2) as [d Hd].
  exists d. econstructor; [|exact Hd]. by apply matches_app_right.
Qed.

End RegexShapes.

Section ScriptPatterns.
Import Re FullContent.

Lemma no_linefeed (w : text) :
  PyStr.single_line w → Forall (fun x => negb (Ascii.eqb x "010") = true) w.
Proof.
  intros H. eapply Forall_impl; [exact H|]. intros x Hx. simpl in Hx.
  destruct (Ascii.eqb x "010") eqn:Heq; [|done].
  apply Ascii.eqb_eq in Heq as ->. discriminate Hx.
Qed.

Lemma chr_elim (a : ascii) (c c' : cursor) :
  matches (chr a) c c' → c.2 = a :: c'.2.
Proof.
  intros H. inversion H as [|? prev x rest Hx| | | | | | | | |]; subst.
  apply Ascii.eqb_eq in Hx as ->. done.
Qed.

Lemma chr_intro (a : ascii) (prev : option ascii) (rest : text) :
  matches (chr a) (prev, a :: rest) (Some a, rest).
Proof. constructor. apply Ascii.eqb_refl. Qed.

Lemma plus_chr_elim (p : ascii → bool) (c c' : cursor) :
  matches (Plus (Chr p)) c c' →
  ∃ y t, c.2 = y :: t ++ c'.2 ∧ Forall (fun x => p x = true) (y :: t).
Proof.
  intros H. inversion H as [| |? ? ? c1 ? Hone Hmore| | | | | | | |]; subst.
  inversion Hone as [|? prev y rest Hy| | | | | | | | |]; subst.
  destruct (star_chr_elim _ _ _ Hmore) as (t & Ht & Hall).
  exists y, t. simpl in Ht. simpl. split; [by rewrite Ht|by constructor].
Qed.

Lemma plus_chr_intro (p : ascii → bool) (prev : option ascii) (y : ascii)
    (t rest : text) :
  Forall (fun x => p x = true) (y :: t) →
  ∃ q, matches (Plus (Chr p)) (prev, y :: t ++ rest) (q, rest).
Proof.
  intros Hall. inversion Hall as [|? ? Hy Ht]; subst.
  destruct (star_chr_intro p (Some y) t rest Ht) as [q Hq].
  exists q. econstructor; [by constructor|exact Hq].
Qed.

Lemma separator_tail_extend (c c' : cursor) (w : text) :
  PyStr.single_line c.2 → PyStr.single_line w →
  Forall (fun x => PyStr.isspace x = true) w →
  matches separator_tail c c' →
  ∃ d, matches separator_tail (c.1, c.2 ++ w) d.
Proof.
  intros Hline Hw Hspace H.
  inversion H as [| |? ? ? c1 ? Hstar Hrest| | | | | | | |]; subst.
  inversion Hrest as [| |? ? ? c2 ? Hopt Heol| | | | | | | |]; subst.
  destruct (star_chr_elim _ _ _ Hstar) as (u & Hu & Huspace).
  destruct (matches_suffix _ _ _ Hopt) as [v Hv].
  assert (Hline2 : PyStr.single_line c2.2).
  { unfold PyStr.single_line in *. rewrite Hu, Hv in Hline.
    by apply Forall_app in Hline as [_ [_ ?]%Forall_app]. }
  assert (Hend : c2.2 = []).
  { inversion Heol; subst; [done|]. cbn [snd] in Hline2.
    inversion Hline2 as [|? ? Hlf _]. discriminate Hlf. }
  inversion Hopt as [| | |? ? ? ? Htaken|? ? ? ? Hskip| | | | | |]; subst.
  - (* the group [\|.+] matched *)
    inversion Htaken as [| |? ? ? c3 ? Hpipe Hdots| | | | | | | |]; subst.
    apply chr_elim in Hpipe.
    destruct (plus_chr_elim _ _ _ Hdots) as (y & t & Hyt & Hdotp).
    rewrite Hend, app_nil_r in Hyt.
    destruct (plus_chr_intro (fun x => negb (Ascii.eqb x "010")) (Some "|"%char)
                y (t ++ w) []) as [q Hq].
    { inversion Hdotp; subst. constructor; [done|].
      apply Forall_app. split; [done|by apply no_linefeed]. }
    rewrite app_nil_r in Hq.
    exists (q, []).
    econstructor; [by apply (matches_app_right _ _ _ w) in Hstar|].
    cbn [fst snd]. rewrite Hpipe, Hyt.
    econstructor; [|constructor].
    apply M_AltL. econstructor; [apply chr_intro|exact Hq].
  - (* no group: the spaces run to the end *)
    inversion Hskip; subst.
    rewrite Hend, app_nil_r in Hu.
    destruct (star_chr_intro PyStr.isspace c.1 (u ++ w) []) as [q Hq].
    { apply Forall_app. by split. }
    rewrite app_nil_r in Hq. rewrite <- Hu in Hq.
    exists (q, []).
    econstructor; [exact Hq|].
    econstructor; [apply M_AltR; constructor|constructor].
Qed.

Lemma re_separator_unfold :
  re_separator
  = Seq Bol (Seq (Star space) (Seq (Opt (chr "|")) (Seq (Star space)
       (Seq (Opt (chr ":")) (Seq (rep_min 2 (chr "-")) separator_tail))))).
Proof. reflexivity. Qed.

Lemma single_line_suffix (u v : text) :
  PyStr.single_line (u ++ v) → PyStr.single_line v.
Proof. unfold PyStr.single_line. by intros [_ ?]%Forall_app. Qed.

(** Spaces after a separator line do not change the test. *)
Lemma separator_search_spaces_after (s w : text) :
  PyStr.single_line s → PyStr.single_line w →
  Forall (fun x => PyStr.isspace x = true) w →
  search re_separator s = true → search re_separator (s ++ w) = true.
Proof.
  intros Hs Hw Hspace. rewrite re_separator_unfold, !search_anchored.
  rewrite !pmatch_matches. intros [c' H].
  change (start (s ++ w)) with ((start s).1, (start s).2 ++ w).
  assert (Hs0 : PyStr.single_line (start s).2) by done.
  revert H Hs0. generalize (start s). intros c H Hc.
  do 6 (eapply seq_extend; [reflexivity|exact H|];
          clear H; intros c1 [u1 Hu1] H;
          assert (Hc1 : PyStr.single_line c1.2)
            by (rewrite Hu1 in Hc; by apply single_line_suffix in Hc);
          clear Hc Hu1 u1 c; rename c1 into c; rename Hc1 into Hc).
  by eapply separator_tail_extend.
Qed.

Lemma re_key_value_unfold :
  re_key_value = Seq Bol (Seq (Star space) key_value_tail).
Proof. reflexivity. Qed.

Lemma key_value_match_spaces_after (s w : text) :
  pmatch re_key_value s = true → pmatch re_key_value (s ++ w) = true.
Proof.
  rewrite !pmatch_matches. intros [c' H].
  exists (c'.1, c'.2 ++ w).
  by apply (matches_app_right re_key_value (start s) c' w).
Qed.

Lemma key_value_match_spaces_before (w s : text) :
  Forall (fun x => PyStr.isspace x = true) w →
  pmatch re_key_value s = true → pmatch re_key_value (w ++ s) = true.
Proof.
  intros Hw. rewrite re_key_value_unfold, !pmatch_matches. intros [c' H].
  inversion H as [| |? ? ? c1 ? Hbol Hrest| | | | | | | |]; subst.
  inversion Hbol; subst.
  inversion Hrest as [| |? ? ? c2 ? Hstar Htail| | | | | | | |]; subst.
  destruct (star_chr_elim _ _ _ Hstar) as (u & Hu & Huspace). simpl in Hu.
  destruct (star_chr_intro PyStr.isspace None (w ++ u) c2.2) as [q Hq].
  { apply Forall_app. by split. }
  destruct (matches_prev_indep key_value_tail _ _ eq_refl Htail q) as [q' Hq'].
  exists (q', c'.2).
  econstructor; [constructor|].
  econstructor; [|exact Hq'].
  unfold start. rewrite Hu, app_assoc. exact Hq.
Qed.

End ScriptPatterns.

(** ** Stripping *)

Section Strip.
Import PyStr.
Variable p : ascii → bool.

Local Abbreviation all_p := (Forall (fun x => p x = true)).

Lemma lstrip_by_spec (s : text) :
  ∃ w, s = w ++ lstrip_by p s ∧ all_p w.
Proof.
  induction s as [|x s (w & Hw & Hall)]; [by exists []|]. simpl.
  destruct (p x) eqn:Hx.
  - exists (x :: w). split; [by rewrite Hw at 1|by constructor].
  - by exists [].
Qed.

Lemma lstrip_by_head (s : text) (x : ascii) :
  head (lstrip_by p s) = Some x → p x = false.
Proof.
  induction s as [|y s IH]; [done|]. simpl.
  destruct (p y) eqn:Hy; [done|]. by intros [= <-].
Qed.

Lemma lstrip_by_all (s : text) : all_p s → lstrip_by p s = [].
Proof. induction 1 as [|x s Hx _ IH]; [done|]. simpl. by rewrite Hx. Qed.

Lemma lstrip_by_nil (s : text) : lstrip_by p s = [] → all_p s.
Proof.
  intros Hs. destruct (lstrip_by_spec s) as (w & Hw & Hall).
  rewrite Hs, app_nil_r in Hw. by subst.
Qed.

Lemma lstrip_by_app_all (w s : text) :
  all_p w → lstrip_by p (w ++ s) = lstrip_by p s.
Proof. induction 1 as [|x w Hx _ IH]; [done|]. simpl. by rewrite Hx. Qed.

Lemma lstrip_by_app (s t : text) :
  lstrip_by p s ≠ [] → lstrip_by p (s ++ t) = lstrip_by p s ++ t.
Proof.
  induction s as [|x s IH]; [done|]. simpl.
  destruct (p x); [exact IH|done].
Qed.

Lemma lstrip_by_id (s : text) :
  (∀ x, head s = Some x → p x = false) → lstrip_by p s = s.
Proof.
  destruct s as [|x s]; [done|]. intros Hx. simpl. by rewrite (Hx x).
Qed.

Lemma rstrip_by_spec (s : text) :
  ∃ w, s = rstrip_by p s ++ w ∧ all_p w.
Proof.
  unfold rstrip_by. destruct (lstrip_by_spec (reverse s)) as (w & Hw & Hall).
  exists (reverse w). split; [|by apply Forall_reverse].
  rewrite <- reverse_app, <- Hw. by rewrite reverse_involutive.
Qed.

Lemma rstrip_by_last (s : text) (x : ascii) :
  last (rstrip_by p s) = Some x → p x = false.
Proof. unfold rstrip_by. rewrite last_reverse. apply lstrip_by_head. Qed.

Lemma rstrip_by_all (s : text) : all_p s → rstrip_by p s = [].
Proof.
  intros Hs. unfold rstrip_by. rewrite lstrip_by_all; [done|].
  by apply Forall_reverse.
Qed.

Lemma rstrip_by_nil (s : text) : rstrip_by p s = [] → all_p s.
Proof.
  intros Hs. destruct (rstrip_by_spec s) as (w & Hw & Hall).
  rewrite Hs in Hw. by subst.
Qed.

Lemma rstrip_by_app_all (s w : text) :
  all_p w → rstrip_by p (s ++ w) = rstrip_by p s.
Proof.
  intros Hw. unfold rstrip_by. rewrite reverse_app.
  rewrite lstrip_by_app_all; [done|]. by apply Forall_reverse.
Qed.

Lemma rstrip_by_app (t s : text) :
  rstrip_by p s ≠ [] → rstrip_by p (t ++ s) = t ++ rstrip_by p s.
Proof.
  intros Hs. unfold rstrip_by in *. rewrite reverse_app.
  rewrite lstrip_by_app.
  - by rewrite reverse_app, reverse_involutive.
  - intros Hnil. apply Hs. by rewrite Hnil.
Qed.

Lemma rstrip_by_id (s : text) :
  (∀ x, last s = Some x → p x = false) → rstrip_by p s = s.
Proof.
  intros Hx. unfold rstrip_by. rewrite lstrip_by_id.
  - apply reverse_involutive.
  - intros x. rewrite head_reverse. apply Hx.
Qed.

Lemma strip_by_nil (s : text) : strip_by p s = [] ↔ all_p s.
Proof.
  unfold strip_by. split.
  - intros Hs%rstrip_by_nil.
    destruct (lstrip_by p s) as [|x r] eqn:Hl; [by apply lstrip_by_nil|].
    inversion Hs as [|? ? Hx _]; subst.
    pose proof (lstrip_by_head s x) as Hhead. rewrite Hl in Hhead.
    rewrite Hhead in Hx; done.
  - intros Hs. by rewrite lstrip_by_all.
Qed.

Lemma strip_by_lstrip (s : text) :
  strip_by p (lstrip_by p s) = strip_by p s.
Proof.
  unfold strip_by. f_equal. apply lstrip_by_id, lstrip_by_head.
Qed.

Lemma strip_by_app_all (s w : text) :
  all_p w → strip_by p (s ++ w) = strip_by p s.
Proof.
  intros Hw. unfold strip_by.
  destruct (lstrip_by p s) as [|x r] eqn:Hl.
  - apply lstrip_by_nil in Hl.
    rewrite (lstrip_by_all (s ++ w)) by (apply Forall_app; by split). done.
  - rewrite lstrip_by_app by (rewrite Hl; done).
    rewrite Hl. by apply rstrip_by_app_all.
Qed.

Lemma strip_by_rstrip (s : text) :
  strip_by p (rstrip_by p s) = strip_by p s.
Proof.
  destruct (rstrip_by_spec s) as (w & Hw & Hall).
  rewrite Hw at 2. by rewrite strip_by_app_all.
Qed.

Lemma strip_by_idemp (s : text) : strip_by p (strip_by p s) = strip_by p s.
Proof. unfold strip_by at 2. by rewrite strip_by_rstrip, strip_by_lstrip. Qed.

End Strip.

Section Blank.
Import PyStr.

Local Abbreviation spaces := (Forall (fun x => isspace x = true)).

Lemma isblank_spaces (l : text) : isblank l = true ↔ spaces l.
Proof.
  unfold isblank, strip. rewrite <- strip_by_nil.
  destruct (strip_by isspace l); simpl; split; done.
Qed.

Lemma not_blank_spaces (l : text) : isblank l = false ↔ ¬ spaces l.
Proof.
  rewrite <- isblank_spaces. destruct (isblank l); naive_solver.
Qed.

Lemma comma_is_no_space (w : text) : spaces w → count "," w = 0.
Proof.
  unfold count. induction 1 as [|x w Hx _ IH]; [done|].
  rewrite filter_cons_False; [done|].
  destruct (Ascii.eqb "," x) eqn:Heq; [|done].
  apply Ascii.eqb_eq in Heq as <-. discriminate Hx.
Qed.

Lemma count_app (c : ascii) (s t : text) :
  count c (s ++ t) = count c s + count c t.
Proof. unfold count. by rewrite filter_app, length_app. Qed.

Lemma count_lstrip (l : text) : count "," (lstrip_by isspace l) = count "," l.
Proof.
  destruct (lstrip_by_spec isspace l) as (w & Hw & Hall).
  rewrite Hw at 2. rewrite count_app, (comma_is_no_space w) by done. done.
Qed.

Lemma count_rstrip (l : text) : count "," (rstrip_by isspace l) = count "," l.
Proof.
  destruct (rstrip_by_spec isspace l) as (w & Hw & Hall).
  rewrite Hw at 2. rewrite count_app, (comma_is_no_space w) by done. lia.
Qed.

Lemma single_line_lstrip (l : text) :
  single_line l → single_line (lstrip_by isspace l).
Proof.
  destruct (lstrip_by_spec isspace l) as (w & Hw & _).
  rewrite Hw at 1. unfold single_line. by intros [_ ?]%Forall_app.
Qed.

Lemma single_line_rstrip (l : text) :
  single_line l → single_line (rstrip_by isspace l).
Proof.
  destruct (rstrip_by_spec isspace l) as (w & Hw & _).
  rewrite Hw at 1. unfold single_line. by intros [? _]%Forall_app.
Qed.

End Blank.

(** ** Joining lines, stripping the text, splitting it again *)

Section JoinSplit.
Import PyStr FullContent.

Local Abbreviation spaces := (Forall (fun x => isspace x = true)).
Local Abbreviation blank := (fun l : text => isblank l = true).

Lemma join_cons (l : text) (rest : list text) :
  rest ≠ [] → join LF (l :: rest) = l ++ "010"%char :: join LF rest.
Proof. by destruct rest. Qed.

Lemma join_blank_spaces (ls : list text) :
  Forall blank ls → spaces (join LF ls).
Proof.
  induction 1 as [|l ls Hl _ IH]; [constructor|].
  apply isblank_spaces in Hl.
  destruct ls as [|l' ls']; [done|].
  rewrite join_cons by done. apply Forall_app. split; [done|].
  by constructor.
Qed.

Lemma join_spaces_blank (ls : list text) :
  spaces (join LF ls) → Forall blank ls.
Proof.
  induction ls as [|l ls IH]; [constructor|].
  destruct ls as [|l' ls'].
  - intros H. constructor; [by apply isblank_spaces|constructor].
  - rewrite join_cons by done. intros [Hl Hrest]%Forall_app.
    inversion Hrest; subst.
    constructor; [by apply isblank_spaces|]. by apply IH.
Qed.

Lemma lstrip_join (ls : list text) :
  lstrip_by isspace (join LF ls) = join LF (lstrip_lines ls).
Proof.
  unfold lstrip_lines. induction ls as [|l ls IH]; [done|].
  cbn [pop_blank_front]. destruct (isblank l) eqn:Hl.
  - apply isblank_spaces in Hl.
    destruct ls as [|l' ls']; [by rewrite lstrip_by_all|].
    rewrite join_cons by done.
    change (l ++ "010"%char :: ?x) with (l ++ ["010"%char] ++ x).
    rewrite app_assoc, lstrip_by_app_all; [exact IH|].
    apply Forall_app. split; [done|]. by constructor.
  - assert (lstrip_by isspace l ≠ []) as Hne.
    { intros Hnil%lstrip_by_nil. apply not_blank_spaces in Hl. by apply Hl. }
    destruct ls as [|l' ls']; [done|].
    rewrite !join_cons by done. by rewrite lstrip_by_app.
Qed.

Lemma rstrip_lines_nil (ls : list text) :
  rstrip_lines ls = [] ↔ Forall blank ls.
Proof.
  induction ls as [|l ls IH]; [by split; [constructor|]|].
  simpl. destruct (rstrip_lines ls) as [|k kept].
  - destruct (isblank l) eqn:Hl.
    + split; [|done]. intros _. constructor; [done|]. by apply IH.
    + split; [done|]. intros H. inversion H; subst. congruence.
  - split; [done|]. intros H. inversion H as [|? ? _ Hls]; subst.
    by apply IH in Hls.
Qed.

Lemma rstrip_join (ls : list text) :
  rstrip_by isspace (join LF ls) = join LF (rstrip_lines ls).
Proof.
  induction ls as [|l ls IH]; [done|].
  cbn [rstrip_lines].
  destruct (rstrip_lines ls) as [|k kept] eqn:Hkept.
  - assert (Forall blank ls) as Hblank by by apply rstrip_lines_nil.
    assert (rstrip_by isspace (join LF (l :: ls)) = rstrip_by isspace l) as ->.
    { destruct ls as [|l' ls']; [done|].
      rewrite join_cons by done. apply rstrip_by_app_all.
      constructor; [reflexivity|]. by apply join_blank_spaces. }
    destruct (isblank l) eqn:Hl; [|done].
    apply isblank_spaces in Hl. by rewrite rstrip_by_all.
  - destruct ls as [|l' ls']; [done|].
    rewrite !join_cons by done.
    change (l ++ "010"%char :: ?x) with (l ++ ["010"%char] ++ x).
    rewrite !app_assoc. rewrite rstrip_by_app.
    { rewrite IH, (join_cons l (k :: kept)) by done. by rewrite <- app_assoc. }
    intros Hnil%rstrip_by_nil%join_spaces_blank%rstrip_lines_nil.
    congruence.
Qed.

Lemma strip_join (ls : list text) :
  strip (join LF ls) = join LF (rstrip_lines (lstrip_lines ls)).
Proof. unfold strip, strip_by. by rewrite lstrip_join, rstrip_join. Qed.

(** The last line that [rstrip_lines] keeps is not empty. *)
Lemma rstrip_lines_last (ls : list text) (z : text) :
  last (rstrip_lines ls) = Some z → z ≠ [].
Proof.
  revert z. induction ls as [|l ls IH]; intros z; [done|].
  simpl. destruct (rstrip_lines ls) as [|k kept].
  - destruct (isblank l) eqn:Hl; [done|]. simpl. intros [= <-].
    intros Hnil%rstrip_by_nil. apply not_blank_spaces in Hl. by apply Hl.
  - rewrite last_cons_cons. apply IH.
Qed.

Lemma single_line_pop_blank_front (ls : list text) :
  Forall single_line ls → Forall single_line (pop_blank_front ls).
Proof.
  induction 1 as [|l ls Hl Hls IH]; [constructor|]. simpl.
  destruct (isblank l); [done|by constructor].
Qed.

Lemma single_line_lstrip_lines (ls : list text) :
  Forall single_line ls → Forall single_line (lstrip_lines ls).
Proof.
  intros H%single_line_pop_blank_front. unfold lstrip_lines.
  destruct (pop_blank_front ls) as [|l rest]; [constructor|].
  inversion H; subst. constructor; [by apply single_line_lstrip|done].
Qed.

Lemma single_line_rstrip_lines (ls : list text) :
  Forall single_line ls → Forall single_line (rstrip_lines ls).
Proof.
  induction 1 as [|l ls Hl Hls IH]; [constructor|]. simpl.
  destruct (rstrip_lines ls) as [|k kept].
  - destruct (isblank l); [constructor|].
    constructor; [by apply single_line_rstrip|constructor].
  - by constructor.
Qed.

Lemma splitlines_single (l : text) :
  single_line l → l ≠ [] → splitlines l = [l].
Proof.
  induction 1 as [|c l Hc Hl IH]; [done|]. intros _.
  cbn [splitlines]. rewrite Hc.
  destruct l as [|d l']; [done|]. by rewrite IH.
Qed.

Lemma splitlines_app_LF (l rest : text) :
  single_line l → rest ≠ [] →
  splitlines (l ++ "010"%char :: rest) = l :: splitlines rest.
Proof.
  intros Hl Hrest. induction Hl as [|c l Hc Hl IH].
  - destruct rest as [|d rest']; [done|]. reflexivity.
  - cbn [app splitlines]. rewrite Hc. by rewrite IH.
Qed.

Lemma join_last_nonempty (ls : list text) :
  (∀ z, last ls = Some z → z ≠ []) → ls ≠ [] → join LF ls ≠ [].
Proof.
  induction ls as [|l ls IH]; [done|]. intros Hlast _.
  destruct ls as [|l' ls'].
  - simpl. by apply Hlast.
  - rewrite join_cons by done. by destruct l.
Qed.

Lemma splitlines_join (ls : list text) :
  Forall single_line ls → (∀ z, last ls = Some z → z ≠ []) →
  splitlines (join LF ls) = ls.
Proof.
  induction 1 as [|l ls Hl Hls IH]; [done|]. intros Hlast.
  destruct ls as [|l' ls'].
  - simpl. apply splitlines_single; [done|]. by apply Hlast.
  - rewrite join_cons by done.
    rewrite splitlines_app_LF; [|done|].
    + by rewrite IH.
    + by apply join_last_nonempty.
Qed.

(** What the lines of a stripped section are, for lines without line
    breaks. *)
Lemma splitlines_strip_join (ls : list text) :
  Forall single_line ls →
  splitlines (strip (join LF ls)) = rstrip_lines (lstrip_lines ls).
Proof.
  intros Hls. rewrite strip_join. apply splitlines_join.
  - by apply single_line_rstrip_lines, single_line_lstrip_lines.
  - apply rstrip_lines_last.
Qed.

End JoinSplit.

(** ** What the strategies see of a stripped section *)

Section Preservation.
Import PyStr FullContent.

Local Abbreviation spaces := (Forall (fun x => isspace x = true)).
Local Abbreviation blank := (fun l : text => isblank l = true).

(** *** The pipe table *)

Lemma is_pipe_row_strip (l l' : text) :
  strip l' = strip l → is_pipe_row l' = is_pipe_row l.
Proof. intros H. unfold is_pipe_row, starts_with_pipe. by rewrite H. Qed.

Lemma pipe_table_cons (l nxt : text) (more : list text) :
  extract_markdown_pipe_table (l :: nxt :: more)
  = if is_pipe_row l && Re.search re_separator nxt
    then Some (join LF (l :: nxt :: take_while starts_with_pipe more))
    else extract_markdown_pipe_table (nxt :: more).
Proof. reflexivity. Qed.

Lemma pipe_table_tail (l : text) (rest : list text) :
  is_Some (extract_markdown_pipe_table rest) →
  is_Some (extract_markdown_pipe_table (l :: rest)).
Proof.
  intros H. destruct rest as [|nxt more]; [by destruct H|].
  rewrite pipe_table_cons. destruct (_ && _); [eauto|done].
Qed.

Lemma pipe_table_head (l l' : text) (rest : list text) :
  is_pipe_row l' = is_pipe_row l →
  is_Some (extract_markdown_pipe_table (l' :: rest)) →
  is_Some (extract_markdown_pipe_table (l :: rest)).
Proof.
  intros Hrow. destruct rest as [|nxt more]; [done|].
  rewrite !pipe_table_cons, Hrow. destruct (_ && _); [eauto|done].
Qed.

Lemma pipe_table_pop_blank_front (ls : list text) :
  is_Some (extract_markdown_pipe_table (pop_blank_front ls)) →
  is_Some (extract_markdown_pipe_table ls).
Proof.
  induction ls as [|l ls IH]; [done|]. simpl.
  destruct (isblank l); [|done]. intros H. by apply pipe_table_tail, IH.
Qed.

Lemma pipe_table_lstrip_lines (ls : list text) :
  is_Some (extract_markdown_pipe_table (lstrip_lines ls)) →
  is_Some (extract_markdown_pipe_table ls).
Proof.
  unfold lstrip_lines. intros H. apply pipe_table_pop_blank_front.
  destruct (pop_blank_front ls) as [|l rest]; [done|].
  eapply pipe_table_head; [|exact H].
  apply is_pipe_row_strip, strip_by_lstrip.
Qed.

Lemma rstrip_lines_head (r k : text) (rest kept : list text) :
  rstrip_lines (r :: rest) = k :: kept →
  k = r ∨ k = rstrip_by isspace r.
Proof.
  simpl. destruct (rstrip_lines rest).
  - destruct (isblank r); [done|]. intros [= <- _]. by right.
  - intros [= <- _]. by left.
Qed.

Lemma separator_rstrip (r : text) :
  single_line r →
  Re.search re_separator (rstrip_by isspace r) = true →
  Re.search re_separator r = true.
Proof.
  intros Hr H. destruct (rstrip_by_spec isspace r) as (w & Hw & Hspaces).
  rewrite Hw. apply separator_search_spaces_after; [| |done..].
  - by apply single_line_rstrip.
  - rewrite Hw in Hr. unfold single_line in *.
    by apply Forall_app in Hr as [_ ?].
Qed.

Lemma pipe_table_rstrip_lines (ls : list text) :
  Forall single_line ls →
  is_Some (extract_markdown_pipe_table (rstrip_lines ls)) →
  is_Some (extract_markdown_pipe_table ls).
Proof.
  induction 1 as [|l ls Hl Hls IH]; [done|].
  cbn [rstrip_lines].
  destruct (rstrip_lines ls) as [|k kept] eqn:Hkept.
  { destruct (isblank l); intros [? ?]; done. }
  destruct ls as [|r rest]; [done|].
  rewrite !pipe_table_cons.
  destruct (is_pipe_row l && Re.search re_separator k) eqn:Htest.
  - intros _. apply andb_true_iff in Htest as [Hrow Hsep].
    assert (Re.search re_separator r = true) as Hr.
    { destruct (rstrip_lines_head _ _ _ _ Hkept) as [->| ->]; [done|].
      inversion Hls; subst. by apply separator_rstrip. }
    rewrite Hrow, Hr. simpl. eauto.
  - intros H. destruct (is_pipe_row l && Re.search re_separator r); [eauto|].
    by apply IH.
Qed.

(** *** The key-value lines *)

Lemma contains_app (c : ascii) (s t : text) :
  contains c (s ++ t) = contains c s || contains c t.
Proof. unfold contains. apply existsb_app. Qed.

Lemma key_value_lstrip (l : text) :
  is_key_value_line (lstrip_by isspace l) = true → is_key_value_line l = true.
Proof.
  unfold is_key_value_line. intros [Hc Hm]%andb_true_iff.
  destruct (lstrip_by_spec isspace l) as (w & Hw & Hspaces).
  rewrite Hw. rewrite contains_app, Hc, orb_true_r. simpl.
  by apply key_value_match_spaces_before.
Qed.

Lemma key_value_rstrip (l : text) :
  is_key_value_line (rstrip_by isspace l) = true → is_key_value_line l = true.
Proof.
  unfold is_key_value_line. intros [Hc Hm]%andb_true_iff.
  destruct (rstrip_by_spec isspace l) as (w & Hw & Hspaces).
  rewrite Hw. rewrite contains_app, Hc. simpl.
  by apply key_value_match_spaces_after.
Qed.

Local Abbreviation kv_count ls :=
  (length (filter (fun ln => is_key_value_line ln = true) ls)).

Lemma kv_count_cons (l : text) (ls : list text) :
  kv_count (l :: ls) = (if is_key_value_line l then 1 else 0) + kv_count ls.
Proof.
  rewrite filter_cons. destruct (is_key_value_line l) eqn:Hl.
  - by rewrite decide_True.
  - by rewrite decide_False.
Qed.

Lemma kv_count_pop_blank_front (ls : list text) :
  kv_count (pop_blank_front ls) ≤ kv_count ls.
Proof.
  induction ls as [|l ls IH]; [done|]. cbn [pop_blank_front].
  destruct (isblank l); [|done]. rewrite kv_count_cons. lia.
Qed.

Lemma kv_count_lstrip_lines (ls : list text) :
  kv_count (lstrip_lines ls) ≤ kv_count ls.
Proof.
  etrans; [|apply kv_count_pop_blank_front]. unfold lstrip_lines.
  destruct (pop_blank_front ls) as [|l rest]; [done|].
  rewrite !kv_count_cons.
  destruct (is_key_value_line (lstrip_by isspace l)) eqn:Hl; [|lia].
  by rewrite (key_value_lstrip _ Hl).
Qed.

Lemma kv_count_rstrip_lines (ls : list text) :
  kv_count (rstrip_lines ls) ≤ kv_count ls.
Proof.
  induction ls as [|l ls IH]; [done|]. cbn [rstrip_lines].
  destruct (rstrip_lines ls) as [|k kept].
  - rewrite kv_count_cons. destruct (isblank l); [simpl; lia|].
    rewrite kv_count_cons.
    destruct (is_key_value_line (rstrip_by isspace l)) eqn:Hl; [|simpl; lia].
    rewrite (key_value_rstrip _ Hl). simpl. lia.
  - rewrite !kv_count_cons. rewrite kv_count_cons in IH. lia.
Qed.

Lemma key_value_block_none (ls : list text) :
  extract_key_value_block ls = None ↔ kv_count ls < 2.
Proof.
  unfold extract_key_value_block.
  destruct (2 <=? _) eqn:Hle.
  - apply Nat.leb_le in Hle. split; [done|lia].
  - apply Nat.leb_gt in Hle. split; done.
Qed.

(** *** The comma runs *)

Lemma csv_step_shape (st : csv_scan) (ln : text) :
  scan_shape (csv_step st ln) = run_step (scan_shape st) (comma_line ln).
Proof.
  unfold csv_step, scan_shape, run_step, comma_line.
  destruct (1 <=? count "," ln); cbn [consec blocks fst snd]; [done|].
  destruct (2 <=? consec st); cbn [consec blocks fst snd].
  - rewrite orb_true_r. by destruct (blocks st).
  - by rewrite orb_false_r.
Qed.

Lemma csv_scan_shape (ls : list text) (st : csv_scan) :
  scan_shape (fold_left csv_step ls st)
  = fold_left run_step (map comma_line ls) (scan_shape st).
Proof.
  revert st. induction ls as [|l ls IH]; intros st; [done|].
  simpl. by rewrite IH, csv_step_shape.
Qed.

Lemma csv_block_none (ls : list text) :
  extract_csv_like_block ls = None
  ↔ run_found (fold_left run_step (map comma_line ls) (0, false)) = false.
Proof.
  unfold extract_csv_like_block.
  change (0, false) with (scan_shape (mkScan [] 0 [])).
  rewrite <- csv_scan_shape.
  set (st := fold_left csv_step ls _).
  unfold run_found, scan_shape. cbn [fst snd].
  destruct (2 <=? consec st), (blocks st) as [|b bs]; cbn; split; done.
Qed.

Lemma blank_no_comma (l : text) : isblank l = true → comma_line l = false.
Proof.
  intros Hl%isblank_spaces. unfold comma_line.
  by rewrite comma_is_no_space.
Qed.

Lemma run_found_blank (ls : list text) (st : nat * bool) :
  Forall blank ls →
  run_found (fold_left run_step (map comma_line ls) st) = run_found st.
Proof.
  intros Hls. revert st. induction Hls as [|l ls Hl _ IH]; intros st; [done|].
  simpl. rewrite IH, (blank_no_comma l Hl).
  unfold run_found, run_step. simpl. by rewrite orb_false_r.
Qed.

Lemma run_lstrip_lines (ls : list text) :
  fold_left run_step (map comma_line (lstrip_lines ls)) (0, false)
  = fold_left run_step (map comma_line ls) (0, false).
Proof.
  unfold lstrip_lines. induction ls as [|l ls IH]; [done|].
  cbn [pop_blank_front]. destruct (isblank l) eqn:Hl.
  - rewrite IH. simpl. by rewrite (blank_no_comma l Hl).
  - simpl. unfold comma_line. by rewrite count_lstrip.
Qed.

Lemma run_rstrip_lines (ls : list text) (st : nat * bool) :
  run_found (fold_left run_step (map comma_line (rstrip_lines ls)) st)
  = run_found (fold_left run_step (map comma_line ls) st).
Proof.
  revert st. induction ls as [|l ls IH]; intros st; [done|].
  cbn [rstrip_lines].
  destruct (rstrip_lines ls) as [|k kept] eqn:Hkept.
  - assert (Forall blank ls) as Hblank by by apply rstrip_lines_nil.
    simpl. rewrite (run_found_blank ls) by done.
    destruct (isblank l) eqn:Hl.
    + simpl. rewrite (blank_no_comma l Hl).
      unfold run_found, run_step. simpl. by rewrite orb_false_r.
    + simpl. unfold comma_line. by rewrite count_rstrip.
  - simpl. apply IH.
Qed.

Lemma csv_block_stripped (ls : list text) :
  extract_csv_like_block ls = None →
  extract_csv_like_block (rstrip_lines (lstrip_lines ls)) = None.
Proof.
  rewrite !csv_block_none. by rewrite run_rstrip_lines, run_lstrip_lines.
Qed.

End Preservation.

(** ** Table recovery: the raw fallback, parsed again *)

Section RawFallback.
Context `{E : Pandas.Engine}.
Import PyStr FullContent.

(** The paragraphs of strategy 4. *)
Local Abbreviation paragraphs_of text :=
  (filter (fun p => is_empty p = false)
          (map strip (Re.split re_blank_line text))).

Lemma parse_plain_raw (lines : list text) (cell : text) :
  parse_plain lines
  = Ok (Some (Pandas.of_column (str "FullContent") [cell]), raw_single) →
  extract_key_value_block lines = None
  ∧ cell = strip (join LF lines)
  ∧ (1 <? length (paragraphs_of cell)) = false.
Proof.
  unfold parse_plain.
  destruct (extract_key_value_block lines) as [kv|] eqn:Hkv.
  - assert (2 ≤ length kv) as Hlen.
    { unfold extract_key_value_block in Hkv.
      destruct (2 <=? _) eqn:Hle; [|done].
      injection Hkv as <-. by apply Nat.leb_le. }
    destruct kv as [|k kv]; [simpl in Hlen; lia|].
    destruct (mapM key_value_row (k :: kv)); cbn [bind]; [|done].
    destruct (Pandas.of_rows _ _); cbn [bind]; done.
  - destruct (1 <? length _) eqn:Hparas; [done|].
    intros [= Hcell]. by subst.
Qed.

Lemma parse_from_csv_raw (lines : list text) (cell : text) :
  parse_from_csv lines
  = Ok (Some (Pandas.of_column (str "FullContent") [cell]), raw_single) →
  parse_plain lines
  = Ok (Some (Pandas.of_column (str "FullContent") [cell]), raw_single).
Proof.
  unfold parse_from_csv.
  destruct (extract_csv_like_block lines) as [[|c csv]|]; [done| |done].
  destruct (Pandas.read_csv _ _); [done|].
  destruct (Pandas.read_csv _ _); done.
Qed.

Lemma parse_raw (lines : list text) (cell : text) :
  parse_table_from_section lines
  = Ok (Some (Pandas.of_column (str "FullContent") [cell]), raw_single) →
  extract_markdown_pipe_table lines = None
  ∧ parse_plain lines
    = Ok (Some (Pandas.of_column (str "FullContent") [cell]), raw_single).
Proof.
  unfold parse_table_from_section.
  destruct lines as [|l0 lines']; [done|].
  destruct (extract_markdown_pipe_table (l0 :: lines')) as [md|] eqn:Hmd.
  - destruct (extract_markdown_pipe_table_block _ _ Hmd)
      as (ln & nxt & more & -> & _ & Hnxt).
    destruct (pipe_block_lines ln nxt more Hnxt) as [Hlen Hne].
    destruct (join LF (ln :: nxt :: more)) as [|c md'] eqn:Hjoin; [done|].
    destruct (read_pipe_table (c :: md')); [done|].
    destruct (manual_pipe_table_method (c :: md') Hlen) as [[e' ->]|[df' ->]];
      done.
  - intros H. split; [done|]. by apply parse_from_csv_raw.
Qed.

Lemma raw_fallback_of_lines (lines : list text) (cell : text) :
  Forall single_line lines →
  parse_table_from_section lines
  = Ok (Some (Pandas.of_column (str "FullContent") [cell]), raw_single) →
  cell ≠ [] →
  (∀ csv, extract_csv_like_block (splitlines cell) = Some csv →
          raised (Pandas.read_csv (Pandas.mkOpts "," false) csv) = true
          ∧ raised (Pandas.read_csv (Pandas.mkOpts "," true) csv) = true) →
  parse_table_from_section (splitlines cell)
  = Ok (Some (Pandas.of_column (str "FullContent") [cell]), raw_single).
Proof.
  intros Hlines Hparse Hcell Hrejected.
  destruct (parse_raw _ _ Hparse) as [Hmd Hplain].
  destruct (parse_plain_raw _ _ Hplain) as (Hkv & Htext & Hparas).
  assert (Hsplit : splitlines cell = rstrip_lines (lstrip_lines lines)).
  { rewrite Htext. by apply splitlines_strip_join. }
  assert (Hjoin : join LF (splitlines cell) = cell).
  { rewrite Hsplit, Htext. symmetry. apply strip_join. }
  assert (Hstrip : strip cell = cell).
  { rewrite Htext. apply strip_by_idemp. }
  (* strategy 1 finds no pipe table *)
  assert (Hmd' : extract_markdown_pipe_table (splitlines cell) = None).
  { destruct (extract_markdown_pipe_table (splitlines cell)) eqn:Hsome; [|done].
    assert (is_Some (extract_markdown_pipe_table lines)) as [md' Hmd'].
    { apply pipe_table_lstrip_lines, pipe_table_rstrip_lines.
      - by apply single_line_lstrip_lines.
      - rewrite <- Hsplit, Hsome. eauto. }
    congruence. }
  (* strategy 3 finds fewer than two key-value lines *)
  assert (Hkv' : extract_key_value_block (splitlines cell) = None).
  { apply key_value_block_none. apply key_value_block_none in Hkv.
    rewrite Hsplit.
    eapply Nat.le_lt_trans; [apply kv_count_rstrip_lines|].
    eapply Nat.le_lt_trans; [apply kv_count_lstrip_lines|done]. }
  (* strategies 4 and 5 see the same text *)
  assert (Hplain' : parse_plain (splitlines cell)
            = Ok (Some (Pandas.of_column (str "FullContent") [cell]), raw_single)).
  { unfold parse_plain. rewrite Hkv', Hjoin, Hstrip, Hparas. done. }
  unfold parse_table_from_section.
  destruct (splitlines cell) as [|m0 ms] eqn:Hm.
  { pose proof (splitlines_nonempty cell Hcell) as Hlen.
    rewrite Hm in Hlen. simpl in Hlen. lia. }
  rewrite Hmd'. unfold parse_from_csv.
  destruct (extract_csv_like_block (m0 :: ms)) as [[|c csv]|] eqn:Hblock;
    [done| |done].
  destruct (Hrejected _ eq_refl) as [H1 H2].
  destruct (Pandas.read_csv _ _); [done|].
  destruct (Pandas.read_csv _ _); done.
Qed.

(** The lines of a text hold no line boundary. *)
Lemma splitlines_lines (s : text) : Forall single_line (splitlines s).
Proof.
  assert (H : ∀ n s, length s ≤ n → Forall single_line (splitlines s)).
  { clear s. induction n as [|n IH]; intros [|c s] Hlen; simpl in Hlen;
      try (by constructor); try lia.
    cbn [splitlines]. destruct (islinebreak c) eqn:Hc.
    - destruct s as [|d s']; [by repeat constructor|].
      destruct (_ && _); (constructor; [constructor|]); apply IH;
        simpl in *; lia.
    - pose proof (IH s ltac:(lia)) as Hs.
      destruct (splitlines s) as [|l ls]; [by repeat constructor|].
      apply Forall_cons in Hs as [Hl Hls].
      constructor; [by constructor|done]. }
  by apply (H (length s)).
Qed.

(** The body of a section keeps lines of the text, and starts with a line
    that is not blank. *)
Lemma extract_section_lines (P : text → Prop) (lines : list text) (idx : nat) :
  Forall P lines → Forall P (extract_section lines idx).
Proof.
  intros Hlines. unfold extract_section.
  set (ls := slice _ _ lines).
  assert (Hls : Forall P ls).
  { unfold ls, slice. by apply Forall_take, Forall_drop. }
  destruct (pop_blank_both_spec ls) as (pre & post & Heq & _).
  rewrite Heq in Hls. by apply Forall_app in Hls as [_ [? _]%Forall_app].
Qed.

Lemma extract_section_head (lines : list text) (idx : nat) (l : text) :
  head (extract_section lines idx) = Some l → isblank l = false.
Proof.
  unfold extract_section.
  destruct (pop_blank_both_spec
              (slice (S idx)
                 (default (length lines)
                    (first_index_from ends_section (S idx) (drop (S idx) lines)))
                 lines)) as (pre & post & _ & _ & _ & Hhead & _).
  apply Hhead.
Qed.

(** C5 (amended).  Take the body of a section, as [extract_section] cuts
    it from the lines of a text, on which [parse_table_from_section]
    returns the raw single-cell table.  If the reader rejects, at both
    attempts, the comma run of the lines of the cell (when these lines
    have one), then parsing the lines of the cell returns the raw
    single-cell table again, with the same cell.  This is so in
    particular when the section has no comma run of two or more lines. *)
Theorem raw_fallback_is_idempotent (raw : text) (header_idx : nat) (cell : text) :
  let lines := extract_section (splitlines raw) header_idx in
  parse_table_from_section lines
  = Ok (Some (Pandas.of_column (str "FullContent") [cell]), raw_single) →
  (∀ csv, extract_csv_like_block (splitlines cell) = Some csv →
          raised (Pandas.read_csv (Pandas.mkOpts "," false) csv) = true
          ∧ raised (Pandas.read_csv (Pandas.mkOpts "," true) csv) = true) →
  parse_table_from_section (splitlines cell)
  = Ok (Some (Pandas.of_column (str "FullContent") [cell]), raw_single)
  ∧ (extract_csv_like_block lines = None →
     extract_csv_like_block (splitlines cell) = None).
Proof.
  intros lines Hparse Hrejected.
  assert (Hsingle : Forall single_line lines)
    by apply extract_section_lines, splitlines_lines.
  assert (Hhead : ∀ l, head lines = Some l → isblank l = false)
    by apply extract_section_head.
  clearbody lines.
  destruct (parse_raw _ _ Hparse) as [_ Hplain].
  destruct (parse_plain_raw _ _ Hplain) as (_ & Htext & _).
  assert (Hcell : cell ≠ []).
  { destruct lines as [|l rest]; [done|].
    specialize (Hhead l eq_refl). apply not_blank_spaces in Hhead.
    intros Hnil. rewrite Htext in Hnil. apply strip_by_nil in Hnil.
    apply join_spaces_blank, Forall_cons in Hnil as [Hl _].
    by apply isblank_spaces in Hl. }
  split; [by apply (raw_fallback_of_lines lines)|].
  intros Hnone. apply csv_block_stripped in Hnone.
  rewrite Htext, splitlines_strip_join by done. exact Hnone.
Qed.

End RawFallback.

Lemma raw_fallback_is_idempotent_witness :
  let raw := PyStr.join FullContent.LF
               [str "FULL CONTENT"; str ""; str "  Plate read at 25 C";
                str "by operator A  "; str "   "] in
  let cell := PyStr.join FullContent.LF
                [str "Plate read at 25 C"; str "by operator A"] in
  FullContent.parse_table_from_section (E := Pandas.python_engine)
    (FullContent.extract_section (PyStr.splitlines raw) 0)
  = Ok (Some (Pandas.of_column (str "FullContent") [cell]), FullContent.raw_single)
  ∧ FullContent.parse_table_from_section (E := Pandas.python_engine)
      (PyStr.splitlines cell)
    = Ok (Some (Pandas.of_column (str "FullContent") [cell]), FullContent.raw_single).
Proof.
  intros raw cell. split; [reflexivity|].
  apply (raw_fallback_is_idempotent (E := Pandas.python_engine) raw 0 cell).
  - reflexivity.
  - intros csv Hcsv. vm_compute in Hcsv. discriminate Hcsv.
Defined.

(** C5, as the claim words it for every section: the reader can reject
    the comma run of the section and accept that of the cell.  In the
    section below the first line starts with a tab and a quote; the quote
    is then an ordinary character, the three lines have 2, 2 and 3 fields,
    and the reader rejects them at both attempts, so the raw fallback is
    taken.  The cell is the section stripped: its first line starts with
    the quote, which now opens a field that ends on the second line, the
    records have 2 and 3 fields, the first field of the second one is
    taken as the row index, and the reader returns a table. *)
Lemma raw_fallback_is_not_idempotent_with_quotes :
  let first := "009"%char :: Pandas.QUOTE :: str "a,b" in
  let second := str "c" ++ Pandas.QUOTE :: str ",d" in
  let raw := PyStr.join FullContent.LF
               [str "FULL CONTENT"; first; second; str "e,f,g"] in
  let lines := FullContent.extract_section (PyStr.splitlines raw) 0 in
  let cell := PyStr.join FullContent.LF
                [Pandas.QUOTE :: str "a,b"; second; str "e,f,g"] in
  lines = [first; second; str "e,f,g"]
  ∧ FullContent.parse_table_from_section (E := Pandas.quoting_engine) lines
    = Ok (Some (Pandas.of_column (str "FullContent") [cell]),
          FullContent.raw_single)
  ∧ FullContent.parse_table_from_section (E := Pandas.quoting_engine)
      (PyStr.splitlines cell)
    = Ok (Some (Pandas.mkDataFrame
                  [str "a,b" ++ "010"%char :: str "c"; str "d"]
                  [[Some (str "f"); Some (str "g")]]),
          FullContent.csv_block)
  ∧ ¬ (∀ (E : Pandas.Engine) (raw : text) (header_idx : nat) (cell : text),
         FullContent.parse_table_from_section
           (FullContent.extract_section (PyStr.splitlines raw) header_idx)
         = Ok (Some (Pandas.of_column (str "FullContent") [cell]),
               FullContent.raw_single) →
         FullContent.parse_table_from_section (PyStr.splitlines cell)
         = Ok (Some (Pandas.of_column (str "FullContent") [cell]),
               FullContent.raw_single)).
Proof.
  intros first second raw lines cell.
  assert (Hfirst : FullContent.parse_table_from_section
                     (E := Pandas.quoting_engine) lines
                   = Ok (Some (Pandas.of_column (str "FullContent") [cell]),
                         FullContent.raw_single)) by (vm_compute; reflexivity).
  split; [vm_compute; reflexivity|].
  split; [exact Hfirst|].
  split; [vm_compute; reflexivity|].
  intros Hclaim.
  specialize (Hclaim Pandas.quoting_engine raw 0 cell Hfirst).
  vm_compute in Hclaim. discriminate Hclaim.
Qed.

(** * Further properties of the scripts *)

(** ** The section locator, function by function *)

Section LocatorFunctions.
Import PyStr FullContent.

Lemma elem_of_concat_imap {A B} (f : nat → A → list B) (l : list A) (y : B) :
  y ∈ concat (imap f l) ↔ ∃ i x, l !! i = Some x ∧ y ∈ f i x.
Proof.
  rewrite list_elem_of_In, in_concat. split.
  - intros (ys & Hys & Hy). apply list_elem_of_In in Hys, Hy.
    apply elem_of_lookup_imap in Hys as (i & x & -> & Hx). eauto.
  - intros (i & x & Hx & Hy). exists (f i x).
    split; apply list_elem_of_In; [|done].
    by apply elem_of_lookup_imap_2.
Qed.

Lemma elem_of_headers_of_line (i j : nat) (ln t : text) :
  (j, t) ∈ headers_of_line i ln ↔
  j = i ∧ strip ln ≠ []
  ∧ ((t ∈ FULL_CONTENT_KEYS ∧ same_ci (strip ln) t = true)
     ∨ (t = strip ln ∧ looks_like_header (strip ln) = true)).
Proof.
  unfold headers_of_line.
  destruct (strip ln) as [|c s] eqn:Hs; simpl is_empty; cbv iota.
  { split; [by intros ?%elem_of_nil|by intros (_ & ? & _)]. }
  rewrite elem_of_app, list_elem_of_fmap. split.
  - intros [(key & [= -> ->] & Hkey)|Hlooks].
    + apply list_elem_of_filter in Hkey as [Hci Hkey].
      split; [done|]. split; [done|]. by left.
    + destruct (looks_like_header (c :: s)) eqn:Hl; [|by apply elem_of_nil in Hlooks].
      apply list_elem_of_singleton in Hlooks as [= -> ->].
      split; [done|]. split; [done|]. by right.
  - intros (-> & _ & [[Hkey Hci]|[-> Hl]]).
    + left. exists t. split; [done|]. by apply list_elem_of_filter.
    + right. rewrite Hl. by apply list_elem_of_singleton.
Qed.

Lemma headers_sorted (k : nat) (lines : list text) :
  let detected := concat (imap (fun i => headers_of_line (k + i)) lines) in
  Forall (fun h => k ≤ h.1) detected
  ∧ ∀ p q a b, detected !! p = Some a → detected !! q = Some b →
               p ≤ q → a.1 ≤ b.1.
Proof.
  revert k. induction lines as [|ln lines IH]; intros k; cbv zeta.
  { split; [constructor|]. intros p q a b Hp. done. }
  rewrite imap_cons. cbn [concat].
  rewrite (imap_ext _ (fun i => headers_of_line (S k + i)))
    by (intros i x _; simpl; f_equal; lia).
  destruct (IH (S k)) as [Hge Hsorted].
  set (tl := concat (imap (fun i => headers_of_line (S k + i)) lines)) in *.
  assert (Hhd : Forall (fun h => h.1 = k) (headers_of_line (k + 0) ln)).
  { apply Forall_forall. intros [j t] Hjt.
    apply elem_of_headers_of_line in Hjt as [-> _]. simpl. lia. }
  split.
  - apply Forall_app. split.
    + eapply Forall_impl; [exact Hhd|]. simpl. lia.
    + eapply Forall_impl; [exact Hge|]. simpl. lia.
  - intros p q a b Hp Hq Hpq.
    apply lookup_app_Some in Hp as [Hp1|[Hp1 Hp2]];
      apply lookup_app_Some in Hq as [Hq1|[Hq1 Hq2]].
    + assert (a.1 = k) by (eapply (Forall_lookup_1 _ _ _ _ Hhd Hp1)).
      assert (b.1 = k) by (eapply (Forall_lookup_1 _ _ _ _ Hhd Hq1)). lia.
    + assert (a.1 = k) by (eapply (Forall_lookup_1 _ _ _ _ Hhd Hp1)).
      pose proof (Forall_lookup_1 _ _ _ _ Hge Hq2) as Hb. simpl in Hb. lia.
    + apply lookup_lt_Some in Hq1. lia.
    + apply (Hsorted _ _ _ _ Hp2 Hq2). lia.
Qed.

(** X1.  [detect_section_headers] reports the pair [(i, t)] exactly when
    line [i], stripped, is not empty and either [t] is a key of
    [FULL_CONTENT_KEYS] equal to it up to case, or [t] is the stripped
    line itself and passes the heuristic header test.  The pairs come in
    the order of the lines. *)
Theorem detect_section_headers_spec (lines : list text) :
  (∀ i t,
     (i, t) ∈ detect_section_headers lines ↔
     ∃ ln, lines !! i = Some ln ∧ strip ln ≠ []
           ∧ ((t ∈ FULL_CONTENT_KEYS ∧ same_ci (strip ln) t = true)
              ∨ (t = strip ln ∧ looks_like_header (strip ln) = true)))
  ∧ (∀ p q a b,
       detect_section_headers lines !! p = Some a →
       detect_section_headers lines !! q = Some b →
       p ≤ q → a.1 ≤ b.1).
Proof.
  split.
  - intros i t. unfold detect_section_headers. rewrite elem_of_concat_imap. split.
    + intros (j & ln & Hln & Hin).
      apply elem_of_headers_of_line in Hin as (-> & Hne & Hcases). eauto.
    + intros (ln & Hln & Hne & Hcases). exists i, ln. split; [done|].
      by apply elem_of_headers_of_line.
  - exact (proj2 (headers_sorted 0 lines)).
Qed.

Lemma first_index_from_spec (p : text → bool) (k : nat) (ls : list text) :
  match first_index_from p k ls with
  | Some j => ∃ d x, j = k + d ∧ ls !! d = Some x ∧ p x = true
                     ∧ Forall (fun y => p y = false) (take d ls)
  | None => Forall (fun y => p y = false) ls
  end.
Proof.
  revert k. induction ls as [|l ls IH]; intros k; simpl; [constructor|].
  destruct (p l) eqn:Hl.
  - exists 0, l. repeat split; [lia|done|constructor].
  - specialize (IH (S k)). destruct (first_index_from p (S k) ls) as [j|].
    + destruct IH as (d & x & -> & Hd & Hx & Hbefore).
      exists (S d), x. repeat split; [lia|done..|]. simpl. by constructor.
    + by constructor.
Qed.

(** X2.  The body [extract_section] returns is a run of consecutive lines
    of the text that starts after the header line; its first and its last
    line are not blank, none of its lines passes the section-end test, and
    lines inside it are never removed.  A header on the last line, or an
    index past the end, gives the empty body. *)
Theorem extract_section_spec (lines : list text) (header_idx : nat) :
  let body := extract_section lines header_idx in
  (∃ before after,
     lines = before ++ body ++ after
     ∧ (body ≠ [] → header_idx < length before))
  ∧ (∀ ln, head body = Some ln → isblank ln = false)
  ∧ (∀ ln, last body = Some ln → isblank ln = false)
  ∧ Forall (fun ln => ends_section ln = false) body
  ∧ (length lines ≤ S header_idx → body = []).
Proof.
  intros body. unfold extract_section in body.
  set (rest := drop (S header_idx) lines) in *.
  set (next_idx := default (length lines)
                     (first_index_from ends_section (S header_idx) rest)) in *.
  destruct (pop_blank_both_spec (slice (S header_idx) next_idx lines))
    as (pre & post & Hsplit & Hpre & Hpost & Hhead & Hlast).
  fold body in Hsplit, Hhead, Hlast.
  assert (Hslice : slice (S header_idx) next_idx lines
                   = take (next_idx - S header_idx) rest) by done.
  assert (Hclean : Forall (fun ln => ends_section ln = false)
                          (take (next_idx - S header_idx) rest)).
  { unfold next_idx.
    pose proof (first_index_from_spec ends_section (S header_idx) rest) as Hfirst.
    destruct (first_index_from ends_section (S header_idx) rest) as [j|]; simpl.
    - destruct Hfirst as (d & x & -> & _ & _ & Hbefore).
      by replace (S header_idx + d - S header_idx) with d by lia.
    - by apply Forall_take. }
  repeat split.
  - exists (take (S header_idx) lines ++ pre),
           (post ++ drop (next_idx - S header_idx) rest).
    split.
    + rewrite <- (take_drop (S header_idx) lines) at 1. fold rest.
      rewrite <- (take_drop (next_idx - S header_idx) rest) at 1.
      rewrite <- Hslice, Hsplit. by rewrite <- !app_assoc.
    + intros Hne. rewrite length_app, length_take.
      destruct (decide (S header_idx ≤ length lines)); [lia|].
      exfalso. apply Hne.
      assert (rest = []) as Hrest by (apply drop_ge; lia).
      rewrite Hslice, Hrest, take_nil in Hsplit.
      destruct pre; [|done]. by destruct body.
  - exact Hhead.
  - exact Hlast.
  - rewrite <- Hslice, Hsplit in Hclean.
    apply Forall_app in Hclean as [_ Hclean].
    by apply Forall_app in Hclean as [Hclean _].
  - intros Hshort.
    assert (rest = []) as Hrest by (apply drop_ge; lia).
    rewrite Hslice, Hrest, take_nil in Hsplit.
    destruct pre; [|done]. by destruct body.
Qed.

Lemma headers_of_line_heuristic (i : nat) (ln : text) :
  is_exact_header ln = false →
  headers_of_line i ln
  = if looks_like_header (strip ln) then [(i, strip ln)] else [].
Proof.
  intros Hexact. unfold headers_of_line.
  unfold is_exact_header in Hexact. unfold same_ci.
  rewrite (no_exact_key _ _ Hexact). simpl.
  destruct (strip ln) as [|c s]; [done|]. done.
Qed.

(** The first header of the heuristic list that satisfies [P], when no
    line is an exact header. *)
Lemma list_find_heuristic (P : nat * text → Prop) `{∀ h, Decision (P h)}
    (k : nat) (lines : list text) :
  Forall (fun ln => is_exact_header ln = false) lines →
  match list_find P (concat (imap (fun i => headers_of_line (k + i)) lines)) with
  | Some (_, (idx, txt)) =>
      ∃ d ln, idx = k + d ∧ lines !! d = Some ln ∧ txt = strip ln
              ∧ looks_like_header txt = true ∧ P (idx, txt)
              ∧ ∀ d' l, d' < d → lines !! d' = Some l →
                        looks_like_header (strip l) = true → ¬ P (k + d', strip l)
  | None =>
      ∀ d l, lines !! d = Some l →
             looks_like_header (strip l) = true → ¬ P (k + d, strip l)
  end.
Proof.
  intros Hlines. revert k.
  induction Hlines as [|ln lines Hln _ IH]; intros k.
  { simpl. intros d l Hd. done. }
  rewrite imap_cons. cbn [concat].
  rewrite (imap_ext _ (fun i => headers_of_line (S k + i)))
    by (intros i x _; simpl; f_equal; lia).
  rewrite (headers_of_line_heuristic _ _ Hln).
  specialize (IH (S k)).
  set (tl := concat (imap (fun i => headers_of_line (S k + i)) lines)) in *.
  destruct (looks_like_header (strip ln)) eqn:Hlooks.
  - cbn [app list_find]. destruct (decide (P (k + 0, strip ln))) as [HP|HP].
    + exists 0, ln. repeat split; try done. intros d' l Hd'. lia.
    + destruct (list_find P tl) as [[pos [idx txt]]|]; simpl.
      * destruct IH as (d & l0 & -> & Hd & -> & Hl0 & HPd & Hbefore).
        exists (S d), l0. repeat split; [lia|done..|].
        intros [|d'] l Hd' Hl Hll.
        -- simpl in Hl. injection Hl as <-. exact HP.
        -- replace (k + S d') with (S k + d') by lia.
           apply (Hbefore d' l); [lia|done..].
      * intros [|d] l Hl Hll.
        -- simpl in Hl. injection Hl as <-. exact HP.
        -- replace (k + S d) with (S k + d) by lia. by apply (IH d l).
  - cbn [app]. destruct (list_find P tl) as [[pos [idx txt]]|]; simpl.
    + destruct IH as (d & l0 & -> & Hd & -> & Hl0 & HPd & Hbefore).
      exists (S d), l0. repeat split; [lia|done..|].
      intros [|d'] l Hd' Hl Hll.
      * simpl in Hl. injection Hl as <-. congruence.
      * replace (k + S d') with (S k + d') by lia.
        apply (Hbefore d' l); [lia|done..].
    + intros [|d] l Hl Hll.
      * simpl in Hl. injection Hl as <-. congruence.
      * replace (k + S d) with (S k + d) by lia. by apply (IH d l).
Qed.

(** X3.  What [find_full_content_section] returns, case by case.  It
    returns "not found" only when no line is an exact header or passes the
    heuristic test.  Otherwise the body is [extract_section] at the index
    returned, which is a line of the text, and either that line is the
    first exact header and the header text is the line as it stands (not
    stripped), whatever heuristic headers come before it; or no line is an
    exact header, the header text is the stripped line, it passes the
    heuristic test, and it is the first heuristic header holding both a
    completeness word and a content word, or, when there is none, the
    first heuristic header. *)
Theorem find_full_content_section_cases (raw : text) :
  let lines := splitlines raw in
  match find_full_content_section raw with
  | None =>
      ∀ ln, ln ∈ lines →
            is_exact_header ln = false ∧ looks_like_header (strip ln) = false
  | Some (body, idx, txt) =>
      body = extract_section lines idx
      ∧ ∃ ln,
          lines !! idx = Some ln
          ∧ ((is_exact_header ln = true ∧ txt = ln
              ∧ ∀ k l, k < idx → lines !! k = Some l → is_exact_header l = false)
             ∨ ((∀ l, l ∈ lines → is_exact_header l = false)
                ∧ txt = strip ln ∧ looks_like_header txt = true
                ∧ ((is_preferred (idx, txt) = true
                    ∧ ∀ k l, k < idx → lines !! k = Some l →
                             looks_like_header (strip l) = true →
                             is_preferred (k, strip l) = false)
                   ∨ ((∀ k l, lines !! k = Some l →
                              looks_like_header (strip l) = true →
                              is_preferred (k, strip l) = false)
                      ∧ ∀ k l, k < idx → lines !! k = Some l →
                               looks_like_header (strip l) = false))))
  end.
Proof.
  intros lines. unfold find_full_content_section. fold lines.
  destruct (list_find (fun ln => is_exact_header ln = true) lines)
    as [[i hdr]|] eqn:Hfind.
  { apply list_find_Some in Hfind as (Hi & Hexact & Hfirst).
    split; [done|]. exists hdr. split; [done|]. left. repeat split; [done|].
    intros k l Hk Hl. specialize (Hfirst k l Hl Hk). by destruct (is_exact_header l). }
  apply list_find_None in Hfind.
  assert (Hnone : Forall (fun ln => is_exact_header ln = false) lines).
  { eapply Forall_impl; [exact Hfind|]. intros l Hl. simpl in Hl.
    by destruct (is_exact_header l). }
  assert (Hnone' : ∀ l, l ∈ lines → is_exact_header l = false).
  { by apply Forall_forall. }
  unfold detect_section_headers.
  pose proof (list_find_heuristic (fun _ => True) 0 lines Hnone) as Hhead.
  pose proof (list_find_heuristic (fun h => is_preferred h = true) 0 lines Hnone)
    as Hpref.
  rewrite (imap_ext _ headers_of_line) in Hhead, Hpref by done.
  destruct (concat (imap headers_of_line lines)) as [|[i0 t0] detected] eqn:Hdet.
  { simpl in Hhead. intros ln Hln. split; [by apply Hnone'|].
    apply list_elem_of_lookup in Hln as [d Hd].
    destruct (looks_like_header (strip ln)) eqn:Hl; [|done].
    by destruct (Hhead d ln Hd Hl). }
  destruct (list_find (fun h => is_preferred h = true) ((i0, t0) :: detected))
    as [[pos [idx txt]]|] eqn:Hp.
  - destruct Hpref as (d & ln & -> & Hd & -> & Hl & HP & Hbefore).
    split; [done|]. exists ln. split; [done|]. right.
    repeat split; [done..|]. left. split; [done|].
    intros k l Hk Hkl Hll. specialize (Hbefore k l Hk Hkl Hll).
    simpl in Hbefore. by destruct (is_preferred (k, strip l)).
  - simpl in Hhead.
    destruct Hhead as (d & ln & -> & Hd & -> & Hl & _ & Hbefore).
    split; [done|]. exists ln. split; [done|]. right.
    repeat split; [done..|]. right. split.
    + intros k l Hkl Hll. specialize (Hpref k l Hkl Hll). simpl in Hpref.
      by destruct (is_preferred (k, strip l)).
    + intros k l Hk Hkl. specialize (Hbefore k l Hk Hkl).
      destruct (looks_like_header (strip l)); [|done]. by destruct Hbefore.
Qed.

End LocatorFunctions.

(** ** Table recovery, function by function *)

Section PipeBlock.
Import PyStr FullContent.

Lemma take_while_spec {A} (p : A → bool) (l : list A) :
  ∃ rest, l = take_while p l ++ rest
          ∧ Forall (fun x => p x = true) (take_while p l)
          ∧ ∀ x, head rest = Some x → p x = false.
Proof.
  induction l as [|x l (rest & Hl & Hall & Hrest)]; simpl.
  - exists []. by repeat split.
  - destruct (p x) eqn:Hx.
    + exists rest. repeat split; [by rewrite Hl at 1|by constructor|done].
    + exists (x :: l). repeat split; [constructor|]. by intros ? [= <-].
Qed.

(** X4.  [extract_markdown_pipe_table] returns nothing exactly when no
    line that, stripped, starts with a pipe and holds another pipe is
    followed by a line passing the separator test.  Otherwise the block
    starts at the first such line: it is that line, the separator line,
    and all the lines after it up to (not including) the first line that
    does not start with a pipe, joined by line feeds. *)
Theorem extract_markdown_pipe_table_spec (lines : list text) :
  match extract_markdown_pipe_table lines with
  | None =>
      ∀ i hdr sepl,
        lines !! i = Some hdr → lines !! S i = Some sepl →
        is_pipe_row hdr && Re.search re_separator sepl = false
  | Some md =>
      ∃ before hdr sepl body after,
        lines = before ++ hdr :: sepl :: body ++ after
        ∧ md = join LF (hdr :: sepl :: body)
        ∧ is_pipe_row hdr = true ∧ Re.search re_separator sepl = true
        ∧ Forall (fun l => starts_with_pipe l = true) body
        ∧ (∀ l, head after = Some l → starts_with_pipe l = false)
        ∧ (∀ i a b, i < length before →
                    lines !! i = Some a → lines !! S i = Some b →
                    is_pipe_row a && Re.search re_separator b = false)
  end.
Proof.
  induction lines as [|ln lines IH]; [done|].
  destruct lines as [|nxt more].
  { simpl. intros [|i] hdr sepl; [done|]. simpl. done. }
  rewrite pipe_table_cons.
  destruct (is_pipe_row ln && Re.search re_separator nxt) eqn:Htest.
  - apply andb_true_iff in Htest as [Hrow Hsep].
    destruct (take_while_spec starts_with_pipe more) as (rest & Hmore & Hall & Hrest).
    exists [], ln, nxt, (take_while starts_with_pipe more), rest.
    repeat split; try done.
    + simpl. by rewrite <- Hmore.
    + intros i a b Hi. simpl in Hi. lia.
  - destruct (extract_markdown_pipe_table (nxt :: more)) as [md|].
    + destruct IH as (before & hdr & sepl & body & after & Hlines & Hmd & Hrow
                      & Hsep & Hbody & Hafter & Hfirst).
      exists (ln :: before), hdr, sepl, body, after.
      repeat split; try done.
      * simpl. by rewrite Hlines.
      * intros [|i] a b Hi Ha Hb.
        -- simpl in Ha, Hb. injection Ha as <-. injection Hb as <-. exact Htest.
        -- simpl in Hi. apply (Hfirst i a b); [lia|done..].
    + intros [|i] hdr sepl Hhdr Hsepl.
      * simpl in Hhdr, Hsepl. injection Hhdr as <-. injection Hsepl as <-. exact Htest.
      * by apply (IH i).
Qed.

End PipeBlock.

Section CsvBlock.
Import PyStr FullContent.

Local Abbreviation commas := (Forall (fun l => comma_line l = true)).
Local Abbreviation long := (fun b : list text => 2 ≤ length b).

(** The blocks the scan collects are the runs of two or more lines. *)
Lemma csv_scan_runs (ls : list text) (st : csv_scan) :
  consec st = length (block st) →
  (if 2 <=? consec (fold_left csv_step ls st)
   then blocks (fold_left csv_step ls st) ++ [block (fold_left csv_step ls st)]
   else blocks (fold_left csv_step ls st))
  = blocks st ++ filter long (comma_runs (block st) ls).
Proof.
  revert st. induction ls as [|l ls IH]; intros st Hst.
  - cbn [fold_left comma_runs]. rewrite Hst.
    destruct (2 <=? length (block st)) eqn:Hlen.
    + apply Nat.leb_le in Hlen. by rewrite filter_cons_True.
    + apply Nat.leb_gt in Hlen. rewrite filter_cons_False by lia.
      by rewrite app_nil_r.
  - cbn [fold_left comma_runs].
    assert (Hstep : csv_step st l
                    = if comma_line l
                      then mkScan (block st ++ [l]) (S (consec st)) (blocks st)
                      else mkScan [] 0 (if 2 <=? consec st
                                        then blocks st ++ [block st] else blocks st))
      by done.
    destruct (comma_line l); rewrite Hstep.
    + rewrite IH by (simpl; rewrite length_app; simpl; lia). done.
    + rewrite IH by done. cbn [blocks block].
      rewrite Hst. destruct (2 <=? length (block st)) eqn:Hlen.
      * apply Nat.leb_le in Hlen. rewrite filter_cons_True by done.
        by rewrite <- app_assoc.
      * apply Nat.leb_gt in Hlen. by rewrite filter_cons_False by lia.
Qed.

Lemma extract_csv_like_block_runs (lines : list text) :
  extract_csv_like_block lines
  = match filter long (comma_runs [] lines) with
    | b :: bs => Some (join LF (longest b bs))
    | [] => None
    end.
Proof.
  unfold extract_csv_like_block.
  pose proof (csv_scan_runs lines (mkScan [] 0 []) eq_refl) as Hruns.
  cbv zeta. rewrite Hruns. done.
Qed.

(** Where a run lies in the section. *)
Lemma comma_runs_structure (ls cur : list text) (rs1 rs2 : list (list text))
    (r : list text) :
  commas cur →
  comma_runs cur ls = rs1 ++ r :: rs2 →
  ∃ before after,
    cur ++ ls = before ++ r ++ after
    ∧ length before = offset rs1
    ∧ commas r
    ∧ (∀ l, last before = Some l → comma_line l = false)
    ∧ (∀ l, head after = Some l → comma_line l = false).
Proof.
  revert cur rs1. induction ls as [|l ls IH]; intros cur rs1 Hcur Hruns.
  - simpl in Hruns. destruct rs1 as [|? [|? ?]]; [|done..].
    injection Hruns as <- <-. exists [], []. by rewrite !app_nil_r.
  - simpl in Hruns. destruct (comma_line l) eqn:Hl.
    + destruct (IH (cur ++ [l]) rs1) as (before & after & Heq & ?);
        [apply Forall_app; split; [done|by constructor]|done|].
      exists before, after. split; [|done]. by rewrite <- Heq, <- app_assoc.
    + destruct rs1 as [|r1 rs1].
      * injection Hruns as <- <-. exists [], (l :: ls).
        repeat split; try done. simpl. intros ? [= <-]. exact Hl.
      * injection Hruns as <- Hruns.
        destruct (IH [] rs1) as (before & after & Heq & Hlen & Hr & Hlast & Hhead);
          [constructor|done|].
        exists (cur ++ l :: before), after. repeat split; try done.
        -- simpl in Heq. rewrite Heq. by rewrite <- !app_assoc.
        -- rewrite length_app. simpl. unfold offset in *. simpl. lia.
        -- intros x. rewrite last_app, last_cons.
           destruct (last before) as [y|] eqn:Hb; intros [= <-]; [|done].
           by apply Hlast.
Qed.

(** Every stretch of comma lines lies inside one run. *)
Lemma comma_runs_cover (ls cur : list text) (p m : nat) :
  0 < m →
  (∀ j, p ≤ j < p + m →
        ∃ x, (cur ++ ls) !! j = Some x ∧ comma_line x = true) →
  ∃ rs1 r rs2,
    comma_runs cur ls = rs1 ++ r :: rs2
    ∧ offset rs1 ≤ p ∧ p + m ≤ offset rs1 + length r.
Proof.
  revert cur p. induction ls as [|l ls IH]; intros cur p Hm Hseg.
  - exists [], cur, []. repeat split; [unfold offset; simpl; lia|].
    destruct (Hseg (p + m - 1)) as (x & Hx & _); [lia|].
    apply lookup_lt_Some in Hx. rewrite app_nil_r in Hx. simpl. lia.
  - simpl. destruct (comma_line l) eqn:Hl.
    + apply IH; [done|]. intros j Hj. rewrite <- app_assoc. by apply Hseg.
    + destruct (decide (p + m ≤ length cur)) as [Hin|Hout].
      { exists [], cur, (comma_runs [] ls).
        repeat split; [unfold offset; simpl; lia|]. simpl. lia. }
      assert (length cur < p) as Hp.
      { destruct (decide (length cur < p)); [done|]. exfalso.
        destruct (Hseg (length cur)) as (x & Hx & Hcx); [lia|].
        rewrite lookup_app_r in Hx by lia. rewrite Nat.sub_diag in Hx.
        simpl in Hx. congruence. }
      destruct (IH [] (p - S (length cur))) as (rs1 & r & rs2 & Hruns & Hlo & Hhi);
        [done| |].
      { intros j Hj. destruct (Hseg (S (length cur) + j)) as (x & Hx & Hcx); [lia|].
        exists x. split; [|done].
        rewrite lookup_app_r in Hx by lia.
        replace (S (length cur) + j - length cur) with (S j) in Hx by lia.
        done. }
      exists (cur :: rs1), r, rs2. repeat split.
      * by rewrite Hruns.
      * unfold offset in *. simpl. lia.
      * unfold offset in *. simpl. lia.
Qed.

(** [max(blocks, key=len)] is the first block of the greatest length. *)
Lemma longest_spec (bs pre post : list (list text)) (best : list text) :
  Forall (fun x => length x < length best) pre →
  Forall (fun x => length x ≤ length best) post →
  ∃ l1 l2,
    pre ++ best :: post ++ bs = l1 ++ longest best bs :: l2
    ∧ Forall (fun x => length x < length (longest best bs)) l1
    ∧ Forall (fun x => length x ≤ length (longest best bs)) l2.
Proof.
  revert pre post best. induction bs as [|b bs IH]; intros pre post best Hpre Hpost.
  - exists pre, post. by rewrite app_nil_r.
  - change (longest best (b :: bs))
      with (longest (if length best <? length b then b else best) bs).
    destruct (length best <? length b) eqn:Hlt.
    + apply Nat.ltb_lt in Hlt.
      destruct (IH (pre ++ best :: post) [] b) as (l1 & l2 & Heq & H1 & H2).
      * apply Forall_app. split.
        -- eapply Forall_impl; [exact Hpre|]. simpl. lia.
        -- constructor; [done|]. eapply Forall_impl; [exact Hpost|]. simpl. lia.
      * constructor.
      * exists l1, l2. split; [|done]. rewrite <- Heq. by rewrite <- !app_assoc.
    + apply Nat.ltb_ge in Hlt.
      destruct (IH pre (post ++ [b]) best) as (l1 & l2 & Heq & H1 & H2).
      * done.
      * apply Forall_app. split; [done|]. by constructor.
      * exists l1, l2. split; [|done]. rewrite <- Heq. by rewrite <- !app_assoc.
Qed.

Lemma filter_split {A} (P : A → Prop) `{∀ x, Decision (P x)}
    (l l1 l2 : list A) (x : A) :
  filter P l = l1 ++ x :: l2 →
  ∃ k1 k2, l = k1 ++ x :: k2 ∧ filter P k1 = l1 ∧ filter P k2 = l2.
Proof.
  revert l1. induction l as [|y l IH]; intros l1 Hl.
  { by destruct l1. }
  rewrite filter_cons in Hl. destruct (decide (P y)) as [Hy|Hy].
  - destruct l1 as [|z l1].
    + injection Hl as -> Hl. exists [], l. by repeat split.
    + injection Hl as <- Hl. destruct (IH _ Hl) as (k1 & k2 & -> & <- & <-).
      exists (y :: k1), k2. repeat split. by rewrite filter_cons_True.
  - destruct (IH _ Hl) as (k1 & k2 & -> & <- & <-).
    exists (y :: k1), k2. repeat split. by rewrite filter_cons_False.
Qed.

Lemma offset_app (rs1 rs2 : list (list text)) :
  offset (rs1 ++ rs2) = offset rs1 + offset rs2.
Proof. apply sum_list_with_app. Qed.

Lemma two_splits {A} (l1 l2 k1 k2 : list A) (x y : A) :
  l1 ++ x :: l2 = k1 ++ y :: k2 →
  (∃ mid, l1 = k1 ++ y :: mid)
  ∨ (l1 = k1 ∧ x = y)
  ∨ (∃ mid, k1 = l1 ++ x :: mid ∧ l2 = mid ++ y :: k2).
Proof.
  revert k1. induction l1 as [|a l1 IH]; intros k1 Heq.
  - destruct k1 as [|b k1].
    + injection Heq as -> _. right. by left.
    + injection Heq as -> ->. right. right. by exists k1.
  - destruct k1 as [|b k1].
    + injection Heq as -> _. left. by exists l1.
    + injection Heq as -> Heq.
      destruct (IH _ Heq) as [[mid ->]|[[-> ->]|(mid & -> & ->)]].
      * left. by exists mid.
      * right. by left.
      * right. right. by exists mid.
Qed.

(** A block is never the empty string. *)
Lemma csv_block_nonempty (lines : list text) (csv : text) :
  extract_csv_like_block lines = Some csv → csv ≠ [].
Proof.
  rewrite extract_csv_like_block_runs.
  destruct (filter long (comma_runs [] lines)) as [|b bs] eqn:Hfilter; [done|].
  intros [= <-].
  destruct (longest_spec bs [] [] b) as (l1 & l2 & Heq & _); [constructor..|].
  simpl in Heq.
  assert (longest b bs ∈ filter long (comma_runs [] lines)) as Hin.
  { rewrite Hfilter, Heq. apply elem_of_app. right. left. }
  apply list_elem_of_filter in Hin as [Hlen _]. simpl in Hlen.
  destruct (longest b bs) as [|x1 [|x2 run]]; [simpl in Hlen; lia..|].
  rewrite join_cons_cons. by destruct x1.
Qed.

(** X5.  [extract_csv_like_block] returns nothing exactly when no two
    adjacent lines both hold a comma: a single comma line never makes a
    block.  Otherwise the block is a run of two or more consecutive comma
    lines, joined by line feeds, that cannot be extended on either side;
    no stretch of consecutive comma lines of the section is longer, and a
    stretch as long does not start before it. *)
Theorem extract_csv_like_block_spec (lines : list text) :
  match extract_csv_like_block lines with
  | None =>
      ∀ i a b, lines !! i = Some a → lines !! S i = Some b →
               comma_line a && comma_line b = false
  | Some csv =>
      ∃ before run after,
        lines = before ++ run ++ after
        ∧ csv = join LF run
        ∧ 2 ≤ length run
        ∧ commas run
        ∧ (∀ l, last before = Some l → comma_line l = false)
        ∧ (∀ l, head after = Some l → comma_line l = false)
        ∧ (∀ before' run' after',
             lines = before' ++ run' ++ after' → commas run' →
             length run' ≤ length run
             ∧ (length run' = length run → length before ≤ length before'))
  end.
Proof.
  rewrite extract_csv_like_block_runs.
  destruct (filter long (comma_runs [] lines)) as [|b bs] eqn:Hfilter.
  - intros i a b Ha Hb.
    destruct (comma_line a && comma_line b) eqn:Hab; [|done]. exfalso.
    apply andb_true_iff in Hab as [Hca Hcb].
    destruct (comma_runs_cover lines [] i 2) as (rs1 & r & rs2 & Hruns & Hlo & Hhi);
      [lia| |].
    { intros j Hj. simpl.
      destruct (decide (j = i)) as [->|]; [eauto|].
      replace j with (S i) by lia. eauto. }
    assert (r ∈ filter long (comma_runs [] lines)) as Hr.
    { apply list_elem_of_filter. split; [lia|]. rewrite Hruns.
      apply elem_of_app. right. left. }
    rewrite Hfilter in Hr. by apply elem_of_nil in Hr.
  - destruct (longest_spec bs [] [] b) as (l1 & l2 & Heq & Hl1 & Hl2);
      [constructor..|].
    simpl in Heq. set (R := longest b bs) in *.
    rewrite Heq in Hfilter.
    destruct (filter_split _ _ _ _ _ Hfilter) as (rs1 & rs2 & Hruns & Hrs1 & Hrs2).
    assert (2 ≤ length R) as HR.
    { assert (R ∈ filter long (comma_runs [] lines)) as HRin.
      { rewrite Hfilter. apply elem_of_app. right. left. }
      by apply list_elem_of_filter in HRin as [? _]. }
    assert (Hshort1 : Forall (fun x => length x < length R) rs1).
    { apply Forall_forall. intros x Hx.
      destruct (decide (2 ≤ length x)) as [Hlong|]; [|lia].
      assert (x ∈ l1) as Hxl by (rewrite <- Hrs1; by apply list_elem_of_filter).
      by apply (proj1 (Forall_forall _ _) Hl1). }
    assert (Hshort2 : Forall (fun x => length x ≤ length R) rs2).
    { apply Forall_forall. intros x Hx.
      destruct (decide (2 ≤ length x)) as [Hlong|]; [|lia].
      assert (x ∈ l2) as Hxl by (rewrite <- Hrs2; by apply list_elem_of_filter).
      by apply (proj1 (Forall_forall _ _) Hl2). }
    destruct (comma_runs_structure lines [] rs1 rs2 R)
      as (before & after & Hlines & Hlen & Hcommas & Hlast & Hhead);
      [constructor|done|].
    simpl in Hlines.
    exists before, R, after.
    do 6 (split; [done|]).
    intros before' run' after' Hlines' Hrun'.
    destruct (decide (length run' = 0)) as [|Hne]; [lia|].
    destruct (comma_runs_cover lines [] (length before') (length run'))
      as (rs1' & r' & rs2' & Hruns' & Hlo & Hhi); [lia| |].
    { intros j Hj. simpl. rewrite Hlines'.
      rewrite lookup_app_r by lia. rewrite lookup_app_l by lia.
      destruct (lookup_lt_is_Some_2 run' (j - length before')) as [x Hx]; [lia|].
      exists x. split; [done|].
      by apply (Forall_lookup_1 _ _ _ _ Hrun' Hx). }
    rewrite Hruns in Hruns'.
    destruct (two_splits _ _ _ _ _ _ Hruns') as [[mid ->]|[[-> <-]|(mid & -> & ->)]].
    + apply Forall_app in Hshort1 as [_ Hshort1].
      apply Forall_cons in Hshort1 as [Hr' _]. lia.
    + lia.
    + apply Forall_app in Hshort2 as [_ Hshort2].
      apply Forall_cons in Hshort2 as [Hr' _].
      rewrite offset_app in Hlo, Hhi. unfold offset in *. simpl in Hlo, Hhi. lia.
Qed.

End CsvBlock.

Section KeyValueShape.
Import PyStr Re FullContent.

Local Abbreviation spaces := (Forall (fun x => isspace x = true)).
Local Abbreviation key_chars := (Forall (fun x => key_char x = true)).

Lemma split_once_first (c : ascii) (pre rest : text) :
  Forall (fun x => Ascii.eqb c x = false) pre →
  split_once c (pre ++ c :: rest) = (pre, Some rest).
Proof.
  induction 1 as [|x pre Hx _ IH]; simpl.
  - by rewrite Ascii.eqb_refl.
  - by rewrite Hx, IH.
Qed.

(** The lines the key-value pattern matches. *)
Lemma key_value_line_shape (ln : text) :
  pmatch re_key_value ln = true ↔
  ∃ ws key rest,
    ln = ws ++ key ++ ":"%char :: rest
    ∧ spaces ws ∧ key ≠ [] ∧ key_chars key.
Proof.
  rewrite re_key_value_unfold, pmatch_matches. split.
  - intros [c' H].
    inversion H as [| |? ? ? c1 ? Hbol Hrest| | | | | | | |]; subst.
    inversion Hbol; subst.
    inversion Hrest as [| |? ? ? c2 ? Hstar Htail| | | | | | | |]; subst.
    destruct (star_chr_elim _ _ _ Hstar) as (ws & Hws & Hspace). simpl in Hws.
    inversion Htail as [| |? ? ? c3 ? Hplus Hcolon| | | | | | | |]; subst.
    destruct (plus_chr_elim _ _ _ Hplus) as (y & t & Hkey & Hchars).
    inversion Hcolon as [| |? ? ? c4 ? Hchr _| | | | | | | |]; subst.
    apply chr_elim in Hchr.
    exists ws, (y :: t), c4.2. repeat split; [|done..].
    by rewrite Hkey, Hchr.
  - intros (ws & key & rest & -> & Hws & Hne & Hkey).
    destruct key as [|y t]; [done|].
    destruct (star_chr_intro isspace None ws ((y :: t) ++ ":"%char :: rest) Hws)
      as [q1 H1].
    destruct (plus_chr_intro key_char q1 y t (":"%char :: rest) Hkey) as [q2 H2].
    exists (Some ":"%char, rest).
    econstructor; [constructor|].
    econstructor; [exact H1|].
    econstructor; [|econstructor; [apply chr_intro|constructor]].
    exact H2.
Qed.

Lemma no_colon (p : ascii → bool) (w : text) :
  p ":"%char = false →
  Forall (fun x => p x = true) w → Forall (fun x => Ascii.eqb ":" x = false) w.
Proof.
  intros Hp Hw. eapply Forall_impl; [exact Hw|]. intros x Hx. simpl in Hx.
  destruct (Ascii.eqb ":" x) eqn:Heq; [|done].
  apply Ascii.eqb_eq in Heq as <-. congruence.
Qed.

Lemma strip_by_sublist (p : ascii → bool) (P : ascii → Prop) (s : text) :
  Forall P s → Forall P (strip_by p s).
Proof.
  intros Hs. unfold strip_by.
  destruct (lstrip_by_spec p s) as (w1 & H1 & _).
  destruct (rstrip_by_spec p (lstrip_by p s)) as (w2 & H2 & _).
  rewrite H1, H2 in Hs.
  apply Forall_app in Hs as [_ Hs]. by apply Forall_app in Hs as [Hs _].
Qed.

(** The word characters are those of Python: accented letters and the
    micro sign are letters of a key, the multiplication sign is not. *)
Example key_value_line_latin1 :
  is_key_value_line (str "Temp" ++ "233"%char :: str "rature: 25") = true
  ∧ is_key_value_line (str "Conc (" ++ "181"%char :: str "g/mL): 5") = true
  ∧ is_key_value_line (str "2 " ++ "215"%char :: str " 3: 6") = false.
Proof. by vm_compute. Qed.

(** X6.  A line passes the key-value test of [extract_key_value_block]
    exactly when, before its first colon, it holds optional white space
    and then one or more characters of the key class: the word characters
    of Python's [\w] (the letters and the digits, those above code point
    127 included, and the underscore), the space and [-], [(], [)], [/];
    the test [":" in ln] of the script adds nothing to the pattern.  On
    such a line the row of the table is the text before the first colon
    and the text after it, both stripped; later colons stay in the value,
    and the field holds only characters of the key class. *)
Theorem key_value_line_spec (ln : text) :
  (is_key_value_line ln = pmatch re_key_value ln)
  ∧ (is_key_value_line ln = true ↔
     ∃ ws key rest,
       ln = ws ++ key ++ ":"%char :: rest
       ∧ spaces ws ∧ key ≠ [] ∧ key_chars key)
  ∧ (∀ ws key rest,
       ln = ws ++ key ++ ":"%char :: rest →
       spaces ws → key_chars key →
       key_value_row ln = Ok [strip key; strip rest]
       ∧ key_chars (strip key)).
Proof.
  assert (Hcolon : pmatch re_key_value ln = true → contains ":" ln = true).
  { intros (ws & key & rest & -> & _)%key_value_line_shape.
    unfold contains. rewrite !existsb_app. simpl.
    rewrite orb_true_r. apply orb_true_r. }
  assert (Hsame : is_key_value_line ln = pmatch re_key_value ln).
  { unfold is_key_value_line.
    destruct (pmatch re_key_value ln); [|apply andb_false_r].
    by rewrite Hcolon. }
  split; [exact Hsame|]. split.
  - rewrite Hsame. apply key_value_line_shape.
  - intros ws key rest -> Hws Hkey. split.
    + unfold key_value_row. rewrite app_assoc.
      rewrite split_once_first.
      * f_equal. f_equal. unfold strip, strip_by.
        by rewrite (lstrip_by_app_all _ ws key Hws).
      * apply Forall_app. split; [by apply (no_colon isspace)|by apply (no_colon key_char)].
    + by apply strip_by_sublist.
Qed.

End KeyValueShape.

Section Provenance.
Context `{E : Pandas.Engine}.
Import PyStr FullContent.

(** No table came out of strategies 1 and 2. *)
Local Abbreviation no_table lines :=
  (extract_markdown_pipe_table lines = None
   ∧ (extract_csv_like_block lines = None
      ∨ ∃ csv e1 e2,
          extract_csv_like_block lines = Some csv
          ∧ Pandas.read_csv (Pandas.mkOpts "," false) csv = Raise e1
          ∧ Pandas.read_csv (Pandas.mkOpts "," true) csv = Raise e2)).

Lemma parse_plain_cases (lines : list text) (df : option Pandas.DataFrame)
    (m : method) :
  parse_plain lines = Ok (df, m) →
  match m with
  | key_value =>
      ∃ kv, extract_key_value_block lines = Some kv ∧ 2 ≤ length kv
            ∧ df = Some (Pandas.mkDataFrame [str "Field"; str "Value"]
                           (map field_value_cells kv))
  | paragraphs =>
      extract_key_value_block lines = None
      ∧ ∃ paras, 2 ≤ length paras
                 ∧ Forall (fun p => p ≠ [] ∧ strip p = p) paras
                 ∧ df = Some (Pandas.of_column (str "Paragraph") paras)
  | raw_single =>
      extract_key_value_block lines = None
      ∧ df = Some (Pandas.of_column (str "FullContent") [strip (join LF lines)])
  | _ => False
  end.
Proof.
  unfold parse_plain.
  destruct (extract_key_value_block lines) as [kv|] eqn:Hkv.
  - unfold extract_key_value_block in Hkv.
    pose proof (key_value_lines_filtered lines) as Hall.
    set (kvl := filter _ lines) in *.
    destruct (2 <=? length kvl) eqn:Hlen; [|done]. injection Hkv as <-.
    apply Nat.leb_le in Hlen.
    destruct kvl as [|k1 kv']; [simpl in Hlen; lia|].
    rewrite key_value_table by done. intros [= <- <-]. eauto.
  - set (paras := filter _ _).
    destruct (1 <? length paras) eqn:Hparas.
    + intros [= <- <-]. split; [done|]. exists paras.
      apply Nat.ltb_lt in Hparas. split; [lia|]. split; [|done].
      apply Forall_forall. intros p Hp.
      apply list_elem_of_filter in Hp as [Hne Hp].
      apply list_elem_of_fmap in Hp as (q & -> & _). split.
      * intros Heq. by rewrite Heq in Hne.
      * apply strip_by_idemp.
    + intros [= <- <-]. done.
Qed.

Lemma parse_from_csv_cases (lines : list text) (df : option Pandas.DataFrame)
    (m : method) :
  parse_from_csv lines = Ok (df, m) →
  (∃ csv d, extract_csv_like_block lines = Some csv
            ∧ Pandas.read_csv (Pandas.mkOpts "," false) csv = Ok d
            ∧ df = Some d ∧ m = csv_block)
  ∨ (∃ csv e d, extract_csv_like_block lines = Some csv
                ∧ Pandas.read_csv (Pandas.mkOpts "," false) csv = Raise e
                ∧ Pandas.read_csv (Pandas.mkOpts "," true) csv = Ok d
                ∧ df = Some d ∧ m = csv_block_relaxed)
  ∨ ((extract_csv_like_block lines = None
      ∨ ∃ csv e1 e2,
          extract_csv_like_block lines = Some csv
          ∧ Pandas.read_csv (Pandas.mkOpts "," false) csv = Raise e1
          ∧ Pandas.read_csv (Pandas.mkOpts "," true) csv = Raise e2)
     ∧ parse_plain lines = Ok (df, m)).
Proof.
  unfold parse_from_csv.
  destruct (extract_csv_like_block lines) as [csv|] eqn:Hcsv; [|by eauto].
  pose proof (csv_block_nonempty _ _ Hcsv) as Hne.
  destruct csv as [|c csv]; [done|].
  destruct (Pandas.read_csv (Pandas.mkOpts "," false) (c :: csv)) as [d|e1] eqn:H1.
  { intros [= <- <-]. left. eauto 10. }
  destruct (Pandas.read_csv (Pandas.mkOpts "," true) (c :: csv)) as [d|e2] eqn:H2.
  { intros [= <- <-]. right. left. eauto 10. }
  intros Hplain. right. right. split; [|done]. right. eauto 10.
Qed.

(** X7.  The method tag of [parse_table_from_section] tells which strategy
    made the table, and what the earlier strategies did.  [empty] comes
    only with no table and only for a section without lines.
    [markdown_pipe] and [markdown_pipe_manual] come with the pipe block
    read by the reader, or split by hand after the reader rejected it.
    [csv_block] and [csv_block_relaxed] come only when the section has no
    pipe block, with the comma block as the reader parsed it at the first
    or at the second attempt.  [key_value], [paragraphs] and [raw_single]
    come only when strategies 1 and 2 gave nothing (no pipe block; no
    comma block, or one the reader rejected twice): [key_value] has the
    columns [Field] and [Value] and one row per key-value line, at least
    two; [paragraphs] has the column [Paragraph] and two or more rows,
    each a stripped non-empty text; [raw_single] has the column
    [FullContent] and the stripped text of the section as its only
    cell. *)
Theorem parse_table_from_section_provenance (lines : list text)
    (df : option Pandas.DataFrame) (m : method) :
  parse_table_from_section lines = Ok (df, m) →
  match m with
  | empty => lines = [] ∧ df = None
  | markdown_pipe =>
      ∃ md d, extract_markdown_pipe_table lines = Some md
              ∧ read_pipe_table md = Ok d ∧ df = Some d
  | markdown_pipe_manual =>
      ∃ md e d, extract_markdown_pipe_table lines = Some md
                ∧ read_pipe_table md = Raise e
                ∧ manual_pipe_table md = Ok (Some (d, markdown_pipe_manual))
                ∧ df = Some d
  | csv_block =>
      extract_markdown_pipe_table lines = None
      ∧ ∃ csv d, extract_csv_like_block lines = Some csv
                 ∧ Pandas.read_csv (Pandas.mkOpts "," false) csv = Ok d
                 ∧ df = Some d
  | csv_block_relaxed =>
      extract_markdown_pipe_table lines = None
      ∧ ∃ csv e d, extract_csv_like_block lines = Some csv
                   ∧ Pandas.read_csv (Pandas.mkOpts "," false) csv = Raise e
                   ∧ Pandas.read_csv (Pandas.mkOpts "," true) csv = Ok d
                   ∧ df = Some d
  | key_value =>
      no_table lines
      ∧ ∃ kv, extract_key_value_block lines = Some kv ∧ 2 ≤ length kv
              ∧ df = Some (Pandas.mkDataFrame [str "Field"; str "Value"]
                             (map field_value_cells kv))
  | paragraphs =>
      no_table lines
      ∧ extract_key_value_block lines = None
      ∧ ∃ paras, 2 ≤ length paras
                 ∧ Forall (fun p => p ≠ [] ∧ strip p = p) paras
                 ∧ df = Some (Pandas.of_column (str "Paragraph") paras)
  | raw_single =>
      no_table lines
      ∧ extract_key_value_block lines = None
      ∧ df = Some (Pandas.of_column (str "FullContent") [strip (join LF lines)])
  end.
Proof.
  unfold parse_table_from_section.
  destruct lines as [|l0 lines']; [by intros [= <- <-]|].
  set (lines := l0 :: lines').
  assert (Hlater : extract_markdown_pipe_table lines = None →
            parse_from_csv lines = Ok (df, m) →
            match m with
            | empty | markdown_pipe | markdown_pipe_manual => False
            | csv_block =>
                extract_markdown_pipe_table lines = None
                ∧ ∃ csv d, extract_csv_like_block lines = Some csv
                           ∧ Pandas.read_csv (Pandas.mkOpts "," false) csv = Ok d
                           ∧ df = Some d
            | csv_block_relaxed =>
                extract_markdown_pipe_table lines = None
                ∧ ∃ csv e d, extract_csv_like_block lines = Some csv
                             ∧ Pandas.read_csv (Pandas.mkOpts "," false) csv = Raise e
                             ∧ Pandas.read_csv (Pandas.mkOpts "," true) csv = Ok d
                             ∧ df = Some d
            | key_value =>
                no_table lines
                ∧ ∃ kv, extract_key_value_block lines = Some kv ∧ 2 ≤ length kv
                        ∧ df = Some (Pandas.mkDataFrame [str "Field"; str "Value"]
                                       (map field_value_cells kv))
            | paragraphs =>
                no_table lines
                ∧ extract_key_value_block lines = None
                ∧ ∃ paras, 2 ≤ length paras
                           ∧ Forall (fun p => p ≠ [] ∧ strip p = p) paras
                           ∧ df = Some (Pandas.of_column (str "Paragraph") paras)
            | raw_single =>
                no_table lines
                ∧ extract_key_value_block lines = None
                ∧ df = Some (Pandas.of_column (str "FullContent")
                               [strip (join LF lines)])
            end).
  { intros Hmd Hcsv.
    destruct (parse_from_csv_cases _ _ _ Hcsv)
      as [(csv & d & ? & ? & -> & ->)|[(csv & e & d & ? & ? & ? & -> & ->)
                                      |[Hrej Hplain]]].
    - eauto 10.
    - eauto 10.
    - pose proof (parse_plain_cases _ _ _ Hplain) as Hcases.
      by destruct m. }
  destruct (extract_markdown_pipe_table lines) as [md|] eqn:Hmd.
  - destruct (extract_markdown_pipe_table_block _ _ Hmd)
      as (ln & nxt & more & -> & _ & Hnxt).
    destruct (pipe_block_lines ln nxt more Hnxt) as [Hlen Hne].
    destruct (join LF (ln :: nxt :: more)) as [|c md'] eqn:Hjoin; [done|].
    destruct (read_pipe_table (c :: md')) as [d|e] eqn:Hread.
    + intros [= <- <-]. eauto.
    + destruct (manual_pipe_table_method (c :: md') Hlen)
        as [[e' Hman]|[d Hman]]; rewrite Hman.
      * done.
      * cbn [bind]. intros [= <- <-]. eauto 10.
  - intros Hcsv. specialize (Hlater eq_refl Hcsv). by destruct m.
Qed.

End Provenance.

Lemma parse_table_from_section_provenance_witness :
  let lines := [str "Plate read at 25 C"; str ""; str "Operator A"] in
  (FullContent.extract_markdown_pipe_table lines = None
   ∧ (FullContent.extract_csv_like_block lines = None
      ∨ ∃ csv e1 e2,
          FullContent.extract_csv_like_block lines = Some csv
          ∧ Pandas.read_csv (Engine := Pandas.python_engine)
              (Pandas.mkOpts "," false) csv = Raise e1
          ∧ Pandas.read_csv (Engine := Pandas.python_engine)
              (Pandas.mkOpts "," true) csv = Raise e2))
  ∧ FullContent.extract_key_value_block lines = None
  ∧ ∃ paras, 2 ≤ length paras
             ∧ Forall (fun p => p ≠ [] ∧ PyStr.strip p = p) paras
             ∧ Some (Pandas.of_column (str "Paragraph")
                       [str "Plate read at 25 C"; str "Operator A"])
               = Some (Pandas.of_column (str "Paragraph") paras).
Proof.
  intros lines.
  apply (parse_table_from_section_provenance (E := Pandas.python_engine) lines
           (Some (Pandas.of_column (str "Paragraph")
                    [str "Plate read at 25 C"; str "Operator A"]))
           FullContent.paragraphs).
  vm_compute. reflexivity.
Defined.

Section PipeRead.
Context `{E : Pandas.Engine}.
Import PyStr FullContent.

Lemma elem_of_indices_where {A} (p : nat → A → bool) (k : nat) (l : list A) (j : nat) :
  j ∈ Pandas.indices_where p k l ↔
  ∃ x, l !! (j - k) = Some x ∧ k ≤ j ∧ p j x = true.
Proof.
  revert k. induction l as [|y l IH]; intros k; simpl.
  { split; [by intros ?%elem_of_nil|by intros (? & ? & _)]. }
  rewrite elem_of_app, IH. split.
  - intros [Hj|(x & Hx & Hk & Hp)].
    + destruct (p k y) eqn:Hp; [|by apply elem_of_nil in Hj].
      apply list_elem_of_singleton in Hj as ->. exists y.
      by rewrite Nat.sub_diag.
    + exists x. replace (j - k) with (S (j - S k)) by lia. simpl. auto with lia.
  - intros (x & Hx & Hk & Hp). destruct (decide (j = k)) as [->|Hne].
    + left. rewrite Nat.sub_diag in Hx. injection Hx as ->. rewrite Hp.
      by apply list_elem_of_singleton.
    + right. exists x. replace (j - k) with (S (j - S k)) in Hx by lia.
      simpl in Hx. auto with lia.
Qed.

Lemma length_indices_where {A} (p : nat → A → bool) (k : nat) (l : list A) :
  length (Pandas.indices_where p k l) ≤ length l.
Proof.
  revert k. induction l as [|y l IH]; intros k; simpl; [done|].
  rewrite length_app. specialize (IH (S k)). destruct (p k y); simpl; lia.
Qed.

(** X8.  The clean-up after the pipe-delimited read, for every reader:
    the table returned has stripped column labels, rows as long as the
    list of labels, and no row whose cells are all missing; it has no
    more columns and no more rows than the reader's table; and a column
    whose label does not start with [Unnamed] is never dropped. *)
Theorem read_pipe_table_clean (md : text) (df : Pandas.DataFrame) :
  read_pipe_table md = Ok df →
  ∃ raw,
    Pandas.read_csv (Pandas.mkOpts "|" true) md = Ok raw
    ∧ Forall (fun c => strip c = c) (Pandas.columns df)
    ∧ Forall (fun r => length r = length (Pandas.columns df)) (Pandas.rows df)
    ∧ Forall (fun r => Pandas.notna_any r = true) (Pandas.rows df)
    ∧ length (Pandas.columns df) ≤ length (Pandas.columns raw)
    ∧ length (Pandas.rows df) ≤ length (Pandas.rows raw)
    ∧ (∀ c, c ∈ Pandas.columns raw →
            startswith (str "Unnamed") c = false →
            strip c ∈ Pandas.columns df).
Proof.
  unfold read_pipe_table.
  destruct (Pandas.read_csv _ md) as [raw|e]; [|done]. cbn [bind].
  intros [= <-]. exists raw. split; [done|].
  set (keep := fun (j : nat) (c : text) =>
                 negb (startswith (str "Unnamed") c)
                 || Pandas.notna_any (Pandas.column raw j)).
  unfold Pandas.dropna_all, Pandas.rename, Pandas.select.
  cbn [Pandas.columns Pandas.rows].
  set (js := Pandas.indices_where keep 0 (Pandas.columns raw)).
  repeat split.
  - apply Forall_forall. intros c Hc.
    apply list_elem_of_In, in_map_iff in Hc as (c0 & <- & _). apply strip_by_idemp.
  - apply Forall_forall. intros r Hr.
    apply list_elem_of_filter in Hr as [_ Hr].
    apply list_elem_of_In, in_map_iff in Hr as (r0 & <- & _).
    by rewrite !length_map.
  - apply Forall_forall. intros r Hr. by apply list_elem_of_filter in Hr as [? _].
  - rewrite !length_map. apply length_indices_where.
  - etrans; [apply length_filter|]. by rewrite length_map.
  - intros c Hc Hnamed. apply list_elem_of_lookup in Hc as [j Hj].
    apply list_elem_of_In, in_map_iff. exists c. split; [done|].
    apply in_map_iff. exists j. split.
    + by apply nth_lookup_Some.
    + apply list_elem_of_In. apply elem_of_indices_where.
      exists c. rewrite Nat.sub_0_r. split; [done|]. split; [lia|].
      change (negb (startswith (str "Unnamed") c)
              || Pandas.notna_any (Pandas.column raw j) = true).
      by rewrite Hnamed.
Qed.

Lemma width_le (n : nat) (data : list (list Pandas.cell)) :
  Pandas.width data ≤ n ↔ Forall (fun r => length r ≤ n) data.
Proof.
  induction data as [|r data IH]; simpl.
  - split; [constructor|lia].
  - rewrite Forall_cons, <- IH. lia.
Qed.

Lemma width_ge (data : list (list Pandas.cell)) (r : list Pandas.cell) :
  r ∈ data → length r ≤ Pandas.width data.
Proof.
  induction 1 as [r data|r r' data _ IH]; simpl; lia.
Qed.

(** X9.  When the [except] branch of strategy 1 returns and when it
    raises.  Let the cells of the lines of the block be a header row, a
    second row with at least one cell, and further rows; the data rows
    are the further rows when the second row is dashed, else the second
    row and the further rows.  Without data rows the branch raises
    [IndexError].  Otherwise it returns a table exactly when the first
    data row has no more cells than the header and no data row has more
    cells than the first one: the labels are then the header cut to the
    length of the first data row, and short rows are padded with missing
    cells.  In every other case it raises [ValueError]. *)
Theorem manual_pipe_table_outcome (md : text) (header second : list text)
    (rest : list (list text)) :
  map manual_cells (splitlines md) = header :: second :: rest →
  second ≠ [] →
  let dashed :=
    Re.search re_dashes (default [] (head second))
    || Re.search re_dashes (join (str "|") second) in
  let data_rows := if dashed then rest else second :: rest in
  match data_rows with
  | [] => manual_pipe_table md = Raise (Exn IndexError "list index out of range")
  | first :: _ =>
      (length first ≤ length header
       ∧ Forall (fun r => length r ≤ length first) data_rows →
       manual_pipe_table md
       = Ok (Some (Pandas.mkDataFrame
                     (take (length first) header)
                     (map (fun r => Pandas.pad (length first) (map Some r)) data_rows),
                   markdown_pipe_manual)))
      ∧ (¬ (length first ≤ length header
            ∧ Forall (fun r => length r ≤ length first) data_rows) →
         ∃ msg, manual_pipe_table md = Raise (Exn ValueError msg))
  end.
Proof.
  intros Hrows Hsecond dashed data_rows.
  unfold manual_pipe_table. rewrite Hrows.
  cbn [length Nat.leb index lookup list_lookup bind].
  destruct second as [|cell second']; [done|].
  cbn [index lookup list_lookup bind].
  assert (Hbind : ∀ (k : bool → result (option (Pandas.DataFrame * method))),
            (let* d := (if Re.search re_dashes cell then Ok true
                        else Ok (Re.search re_dashes (join (str "|") (cell :: second')))) in
             k d) = k dashed).
  { intros k. unfold dashed. simpl head. simpl default.
    by destruct (Re.search re_dashes cell). }
  rewrite Hbind. clear Hbind.
  change (if dashed then drop 2 (header :: (cell :: second') :: rest)
          else drop 1 (header :: (cell :: second') :: rest)) with data_rows.
  destruct data_rows as [|first data'] eqn:Hdata; [done|].
  cbn [index lookup list_lookup bind].
  unfold Pandas.of_rows.
  set (cells := map (map Some) (first :: data')).
  assert (Hfirst : length first ≤ Pandas.width cells).
  { replace (length first) with (length (map Some first)) by apply length_map.
    apply width_ge. unfold cells. simpl. left. }
  assert (Hle : Pandas.width cells ≤ length first
                ↔ Forall (fun r => length r ≤ length first) (first :: data')).
  { rewrite width_le. unfold cells. rewrite Forall_fmap.
    apply Forall_proper; [|done]. intros r. simpl. by rewrite length_map. }
  rewrite length_take. split.
  - intros [Hhdr Hall]. apply Hle in Hall.
    replace (Pandas.width cells) with (length first) by lia.
    replace (length first `min` length header) with (length first) by lia.
    rewrite Nat.eqb_refl. cbn [bind]. do 3 f_equal.
    unfold cells. by rewrite map_map.
  - intros Hnot.
    destruct (Pandas.width cells =? length first `min` length header) eqn:Heq.
    + apply Nat.eqb_eq in Heq. exfalso. apply Hnot. split; [lia|].
      apply Hle. lia.
    + cbn [bind]. by eexists.
Qed.

End PipeRead.

Lemma read_pipe_table_clean_witness :
  let md := PyStr.join FullContent.LF
              [str "| Well | Value |"; str "|------|-------|"; str "| A1 | 0.52 |"] in
  let df := Pandas.mkDataFrame [str "Well"; str "Value"]
              [[Some (str "------"); Some (str "-------")];
               [Some (str "A1 "); Some (str "0.52 ")]] in
  ∃ raw,
    Pandas.read_csv (Engine := Pandas.python_engine) (Pandas.mkOpts "|" true) md
    = Ok raw
    ∧ Forall (fun c => PyStr.strip c = c) (Pandas.columns df)
    ∧ Forall (fun r => length r = length (Pandas.columns df)) (Pandas.rows df)
    ∧ Forall (fun r => Pandas.notna_any r = true) (Pandas.rows df)
    ∧ length (Pandas.columns df) ≤ length (Pandas.columns raw)
    ∧ length (Pandas.rows df) ≤ length (Pandas.rows raw)
    ∧ (∀ c, c ∈ Pandas.columns raw →
            PyStr.startswith (str "Unnamed") c = false →
            PyStr.strip c ∈ Pandas.columns df).
Proof.
  intros md df.
  apply (read_pipe_table_clean (E := Pandas.python_engine) md df).
  vm_compute. reflexivity.
Defined.

Lemma manual_pipe_table_outcome_witness :
  let md := PyStr.join FullContent.LF
              [str "| Well | Value |"; str "|------|-------|"; str "| A1 | 0.52 | |";
               str "| B1 |"] in
  FullContent.manual_pipe_table md
  = Ok (Some (Pandas.mkDataFrame
                [str "Well"; str "Value"]
                [[Some (str "A1"); Some (str "0.52")]; [Some (str "B1"); None]],
              FullContent.markdown_pipe_manual)).
Proof.
  intros md.
  apply (manual_pipe_table_outcome md
           [str "Well"; str "Value"] [str "------"; str "-------"]
           [[str "A1"; str "0.52"]; [str "B1"]]).
  - vm_compute. reflexivity.
  - discriminate.
  - split; [simpl; lia|]. repeat constructor.
Defined.

Section MainOutputs.
Context `{E : Pandas.Engine}.
Import PyStr FullContent.


End MainOutputs.


(** ** The paragraph strategy *)

Section Paragraphs.
Import PyStr Re FullContent.

Local Abbreviation spaces := (Forall (fun x => isspace x = true)).
Local Abbreviation inline := (Forall (fun c => isspace c = true ∧ c ≠ "010"%char)).
Local Abbreviation nl := ("010"%char).

Lemma inline_spaces (w : text) : inline w → spaces w.
Proof. intros Hw. eapply Forall_impl; [exact Hw|]. by intros c [? _]. Qed.

Lemma blocked_app (s rest : text) : blocked s → blocked (s ++ rest).
Proof.
  intros (sp & y & z & -> & Hsp & Hy). exists sp, y, (z ++ rest).
  split; [by rewrite <- app_assoc|done].
Qed.

(** A blocked text does not start with white space followed by a line feed. *)
Lemma blocked_no_gap (t w rest : text) :
  blocked t → spaces w → t ≠ w ++ nl :: rest.
Proof.
  intros (sp & y & z & -> & Hsp & Hy) Hw Heq.
  destruct (two_splits _ _ _ _ _ _ Heq) as [[mid ->]|[[-> ->]|(mid & -> & _)]].
  - apply Forall_app in Hsp as [_ Hsp]. apply Forall_cons in Hsp as [[_ Hnl] _]. done.
  - done.
  - apply Forall_app in Hw as [_ Hw]. apply Forall_cons in Hw as [Hy' _]. congruence.
Qed.

Lemma blocked_rtrim (v w : text) : blocked (v ++ w) → spaces w → blocked v.
Proof.
  intros (sp & y & z & Heq & Hsp & Hy) Hw.
  apply app_eq_app in Heq as [l [[-> Hl]|[-> Hl]]].
  - destruct l as [|y' l].
    + simpl in Hl. subst w. apply Forall_cons in Hw as [Hy' _]. congruence.
    + injection Hl as <- _. by exists sp, y, l.
  - rewrite Hl in Hw. apply Forall_app in Hw as [_ Hw].
    apply Forall_cons in Hw as [Hy' _]. congruence.
Qed.

Lemma quiet_suffix (w p : text) : quiet (w ++ p) → quiet p.
Proof.
  intros Hq u v ->. apply (Hq (w ++ u) v). by rewrite <- app_assoc.
Qed.

Lemma quiet_rtrim (p w : text) : quiet (p ++ w) → spaces w → quiet p.
Proof.
  intros Hq Hw u v ->. apply (blocked_rtrim v w); [|done].
  apply (Hq u (v ++ w)). by rewrite <- app_assoc.
Qed.

Lemma re_blank_line_unfold :
  re_blank_line = Seq (chr nl) (Seq (Star space) (chr nl)).
Proof. reflexivity. Qed.

Lemma seq_elim (a b : regex) (c c'' : cursor) :
  matches (Seq a b) c c'' → ∃ c', matches a c c' ∧ matches b c' c''.
Proof.
  intros H. inversion H as [| |? ? ? c' ? Ha Hb| | | | | | | |]; subst.
  by exists c'.
Qed.

(** What the pattern of a blank line consumes. *)
Lemma blank_line_elim (c c' : cursor) :
  matches re_blank_line c c' → ∃ w, c.2 = nl :: w ++ nl :: c'.2 ∧ spaces w.
Proof.
  rewrite re_blank_line_unfold. intros H.
  apply seq_elim in H as (c1 & H1 & H).
  apply seq_elim in H as (c2 & Hstar & H2).
  apply chr_elim in H1. apply chr_elim in H2.
  destruct (star_chr_elim _ _ _ Hstar) as (w & Hw & Hspaces).
  exists w. split; [|done]. by rewrite H1, Hw, H2.
Qed.

(** The pattern matches at a position only if a line feed stands there
    and what follows is not blocked. *)
Lemma ends_blank_line_none (prev : option ascii) (x : ascii) (s : text) :
  x ≠ nl ∨ blocked s → ends re_blank_line (prev, x :: s) = [].
Proof.
  intros Hcase.
  destruct (ends _ _) as [|c' cs] eqn:Hends; [done|]. exfalso.
  assert (Hin : c' ∈ ends re_blank_line (prev, x :: s))
    by (rewrite Hends; left).
  apply ends_sound, blank_line_elim in Hin as (w & Hw & Hspaces).
  simpl in Hw. injection Hw as -> Hs.
  destruct Hcase as [?|Hblocked]; [done|].
  by apply (blocked_no_gap s w c'.2 Hblocked Hspaces).
Qed.

Lemma split_go_S (r : regex) (f : nat) (c : cursor) (piece : text) :
  split_go r (S f) c piece
  = match ends r c with
    | c' :: _ =>
        if length c'.2 <? length c.2
        then reverse piece :: split_go r f c' []
        else match c.2 with
             | [] => [reverse piece]
             | x :: rest => split_go r f (Some x, rest) (x :: piece)
             end
    | [] =>
        match c.2 with
        | [] => [reverse piece]
        | x :: rest => split_go r f (Some x, rest) (x :: piece)
        end
    end.
Proof. reflexivity. Qed.

(** Passing over a quiet text. *)
Lemma split_go_quiet (p : text) (fuel : nat) (prev : option ascii)
    (piece rest : text) :
  quiet p → length p ≤ fuel →
  ∃ prev',
    split_go re_blank_line fuel (prev, p ++ rest) piece
    = split_go re_blank_line (fuel - length p) (prev', rest) (reverse p ++ piece).
Proof.
  revert fuel prev piece. induction p as [|x p IH]; intros fuel prev piece Hq Hlen.
  - exists prev. simpl. by rewrite Nat.sub_0_r.
  - destruct fuel as [|f]; [simpl in Hlen; lia|].
    rewrite <- app_comm_cons, split_go_S.
    rewrite ends_blank_line_none.
    + cbn [snd].
      destruct (IH f (Some x) (x :: piece)) as [prev' Heq].
      * by apply (quiet_suffix [x]).
      * simpl in Hlen. lia.
      * exists prev'. rewrite Heq. rewrite reverse_cons, <- app_assoc. done.
    + destruct (decide (x = nl)) as [->|]; [|by left].
      right. apply blocked_app. by apply (Hq [] p).
Qed.

(** The match at a blank line. *)
Lemma ends_blank_line_gap (prev : option ascii) (ws t : text) :
  inline ws → blocked t →
  ∃ q cs, ends re_blank_line (prev, nl :: ws ++ nl :: t) = (q, t) :: cs.
Proof.
  intros Hws Ht.
  destruct (star_chr_intro isspace (Some nl) ws (nl :: t) (inline_spaces _ Hws))
    as [q1 Hstar].
  assert (Hm : matches re_blank_line (prev, nl :: ws ++ nl :: t) (Some nl, t)).
  { rewrite re_blank_line_unfold. econstructor; [apply chr_intro|].
    econstructor; [exact Hstar|apply chr_intro]. }
  apply ends_complete in Hm.
  destruct (ends _ _) as [|[q t'] cs] eqn:Hends; [by apply elem_of_nil in Hm|].
  exists q, cs. f_equal. f_equal.
  assert (Hin : (q, t') ∈ ends re_blank_line (prev, nl :: ws ++ nl :: t))
    by (rewrite Hends; left).
  apply ends_sound, blank_line_elim in Hin as (w & Heq & Hspaces).
  simpl in Heq. injection Heq as Heq.
  destruct (two_splits _ _ _ _ _ _ Heq) as [[mid ->]|[[-> _]|(mid & -> & Ht')]].
  - apply Forall_app in Hws as [_ Hws]. apply Forall_cons in Hws as [[_ Hnl] _]. done.
  - by apply app_inv_head in Heq as [= ->].
  - exfalso. apply Forall_app in Hspaces as [_ Hspaces].
    apply Forall_cons in Hspaces as [_ Hmid].
    by apply (blocked_no_gap t mid t' Ht Hmid).
Qed.

Lemma blocked_paragraph_text (paras : list (text * text)) (last_para : text) :
  Forall (fun pw => blocked pw.1) paras → blocked last_para →
  blocked (paragraph_text paras last_para).
Proof.
  intros Hparas Hlast. destruct Hparas as [|[p w] paras Hp _]; [done|].
  simpl. by apply blocked_app.
Qed.

(** [re.split] cuts the text of paragraphs at its blank lines. *)
Lemma split_go_paragraphs (paras : list (text * text)) (last_para : text)
    (fuel : nat) (prev : option ascii) :
  Forall (fun pw => quiet pw.1 ∧ blocked pw.1 ∧ inline pw.2) paras →
  quiet last_para → blocked last_para →
  length (paragraph_text paras last_para) < fuel →
  split_go re_blank_line fuel (prev, paragraph_text paras last_para) []
  = map fst paras ++ [last_para].
Proof.
  intros Hparas Hq Hb. revert fuel prev.
  induction Hparas as [|[p w] paras (Hqp & Hbp & Hw) Hparas IH]; intros fuel prev Hfuel.
  - simpl in *.
    destruct (split_go_quiet last_para fuel prev [] [] Hq ltac:(lia)) as [prev' Heq].
    rewrite app_nil_r in Heq. rewrite Heq.
    destruct (fuel - length last_para) as [|f] eqn:Hf; [lia|].
    rewrite split_go_S. simpl. by rewrite app_nil_r, reverse_involutive.
  - cbn [paragraph_text foldr map fst snd app] in *.
    fold (paragraph_text paras last_para) in *.
    set (t := paragraph_text paras last_para) in *.
    rewrite length_app in Hfuel. cbn [length] in Hfuel.
    rewrite length_app in Hfuel. cbn [length] in Hfuel.
    destruct (split_go_quiet p fuel prev [] (nl :: w ++ nl :: t) Hqp ltac:(lia))
      as [prev' Heq].
    rewrite Heq. rewrite app_nil_r.
    destruct (fuel - length p) as [|f] eqn:Hf; [lia|].
    rewrite split_go_S.
    destruct (ends_blank_line_gap prev' w t Hw) as (q & cs & Hends).
    { apply blocked_paragraph_text; [|done].
      eapply Forall_impl; [exact Hparas|]. by intros ? (_ & ? & _). }
    rewrite Hends. cbn [snd].
    destruct (length t <? length (nl :: w ++ nl :: t)) eqn:Hlt.
    + rewrite reverse_involutive. f_equal. apply IH. lia.
    + apply Nat.ltb_ge in Hlt. simpl in Hlt. rewrite length_app in Hlt.
      simpl in Hlt. lia.
Qed.

Lemma split_paragraphs (paras : list (text * text)) (last_para : text) :
  Forall (fun pw => quiet pw.1 ∧ blocked pw.1 ∧ inline pw.2) paras →
  quiet last_para → blocked last_para →
  split re_blank_line (paragraph_text paras last_para)
  = map fst paras ++ [last_para].
Proof.
  intros. unfold split, start. apply split_go_paragraphs; [done..|lia].
Qed.

Lemma paragraph_text_app (paras : list (text * text)) (last_para : text) :
  paragraph_text paras last_para = paragraph_text paras [] ++ last_para.
Proof.
  induction paras as [|[p w] paras IH]; [done|]. simpl. rewrite IH.
  rewrite <- !app_assoc. simpl. by rewrite <- !app_assoc.
Qed.

Lemma blocked_not_spaces (s : text) : blocked s → ¬ spaces s.
Proof.
  intros (sp & y & z & -> & _ & Hy) [_ Hs]%Forall_app.
  apply Forall_cons in Hs as [Hy' _]. congruence.
Qed.

Lemma blocked_lstrip (s : text) :
  blocked s → blocked (lstrip_by isspace s).
Proof.
  intros (sp & y & z & -> & Hsp & Hy).
  rewrite lstrip_by_app_all by by apply inline_spaces.
  simpl. rewrite Hy. by exists [], y, z.
Qed.

Lemma blocked_rstrip (s : text) :
  blocked s → blocked (rstrip_by isspace s).
Proof.
  intros Hs. destruct (rstrip_by_spec isspace s) as (w & Hw & Hall).
  apply (blocked_rtrim _ w); [by rewrite <- Hw|done].
Qed.

Lemma quiet_lstrip (s : text) : quiet s → quiet (lstrip_by isspace s).
Proof.
  intros Hs. destruct (lstrip_by_spec isspace s) as (w & Hw & _).
  apply (quiet_suffix w). by rewrite <- Hw.
Qed.

Lemma quiet_rstrip (s : text) : quiet s → quiet (rstrip_by isspace s).
Proof.
  intros Hs. destruct (rstrip_by_spec isspace s) as (w & Hw & Hall).
  apply (quiet_rtrim _ w); [by rewrite <- Hw|done].
Qed.

Lemma blocked_strip_nonempty (s : text) : blocked s → strip s ≠ [].
Proof.
  intros Hs Hnil. apply (blocked_not_spaces s Hs). by apply strip_by_nil.
Qed.

Lemma single_line_inline (w : text) : single_line w → spaces w → inline w.
Proof.
  intros Hline Hw. apply Forall_forall. intros c Hc. split.
  - by apply (proj1 (Forall_forall _ _) Hw).
  - intros ->. by apply (proj1 (Forall_forall _ _) Hline) in Hc.
Qed.

Lemma plain_blocked (l : text) : plain_line l → blocked l.
Proof.
  intros [Hline Hblank]. apply not_blank_spaces in Hblank.
  destruct (lstrip_by_spec isspace l) as (w & Hw & Hall).
  destruct (lstrip_by isspace l) as [|y z] eqn:Hl.
  - exfalso. apply Hblank. rewrite Hw, app_nil_r. done.
  - exists w, y, z. split; [done|]. split.
    + apply single_line_inline; [|done]. unfold single_line in *.
      rewrite Hw in Hline. by apply Forall_app in Hline as [? _].
    + apply (lstrip_by_head isspace l). by rewrite Hl.
Qed.

Lemma join_app (a b : list text) :
  a ≠ [] → b ≠ [] → join LF (a ++ b) = join LF a ++ nl :: join LF b.
Proof.
  intros Ha Hb. induction a as [|l a IH]; [done|].
  destruct a as [|l' a].
  - simpl app. by rewrite join_cons.
  - change ((l :: l' :: a) ++ b) with (l :: (l' :: a) ++ b).
    rewrite !join_cons by done. rewrite IH by done. by rewrite <- app_assoc.
Qed.

Lemma join_plain_blocked (g : list text) :
  g ≠ [] → Forall plain_line g → blocked (join LF g).
Proof.
  intros Hg Hplain. destruct Hplain as [|l g Hl Hrest]; [done|].
  destruct g as [|l' g]; [by apply plain_blocked|].
  rewrite join_cons by done. by apply blocked_app, plain_blocked.
Qed.

Lemma single_line_no_feed (l u v : text) : single_line l → l ≠ u ++ nl :: v.
Proof.
  intros Hline ->. apply Forall_app in Hline as [_ Hline].
  by apply Forall_cons in Hline as [? _].
Qed.

Lemma join_plain_quiet (g : list text) :
  Forall plain_line g → quiet (join LF g).
Proof.
  induction 1 as [|l g Hl Hrest IH]; intros u v Heq.
  - by destruct u.
  - destruct g as [|l' g].
    + destruct Hl as [Hl _]. by destruct (single_line_no_feed l u v Hl).
    + rewrite join_cons in Heq by done.
      destruct (two_splits _ _ _ _ _ _ Heq) as [[mid ->]|[[-> _]|(mid & -> & Hv)]].
      * destruct Hl as [Hl _]. by destruct (single_line_no_feed _ u mid Hl).
      * apply app_inv_head in Heq as [= <-].
        by apply (join_plain_blocked (l' :: g)).
      * by apply (IH mid v).
Qed.

Lemma paragraph_lines_nonempty (groups : list (list text * text))
    (last_group : list text) :
  last_group ≠ [] → paragraph_lines groups last_group ≠ [].
Proof. intros Hl H. unfold paragraph_lines in H. by apply app_eq_nil in H as [_ ?]. Qed.

(** The lines of paragraphs, joined. *)
Lemma join_paragraph_lines (groups : list (list text * text))
    (last_group : list text) :
  Forall (fun gb => gb.1 ≠ []) groups → last_group ≠ [] →
  join LF (paragraph_lines groups last_group)
  = paragraph_text (map (fun gb => (join LF gb.1, gb.2)) groups)
                   (join LF last_group).
Proof.
  intros Hgroups Hlast. induction Hgroups as [|[g b] groups Hg _ IH]; [done|].
  assert (Hcons : paragraph_lines ((g, b) :: groups) last_group
                  = g ++ b :: paragraph_lines groups last_group).
  { unfold paragraph_lines. cbn [map concat fst snd]. by rewrite <- !app_assoc. }
  simpl in Hg. rewrite Hcons.
  rewrite join_app by done.
  rewrite join_cons by by apply paragraph_lines_nonempty.
  by rewrite IH.
Qed.

Lemma strip_paragraph_text (p w : text) (paras : list (text * text))
    (last_para : text) :
  blocked p → blocked last_para →
  strip (paragraph_text ((p, w) :: paras) last_para)
  = paragraph_text ((lstrip_by isspace p, w) :: paras)
                   (rstrip_by isspace last_para).
Proof.
  intros Hp Hlast. unfold strip, strip_by. cbn [paragraph_text foldr fst snd].
  fold (paragraph_text paras last_para).
  fold (paragraph_text paras (rstrip_by isspace last_para)).
  rewrite lstrip_by_app.
  - rewrite (paragraph_text_app paras last_para).
    rewrite (paragraph_text_app paras (rstrip_by isspace last_para)).
    rewrite !app_comm_cons, !app_assoc.
    rewrite rstrip_by_app; [done|].
    intros Hnil%rstrip_by_nil. by apply (blocked_not_spaces last_para).
  - intros Hnil%lstrip_by_nil. by apply (blocked_not_spaces p).
Qed.

Lemma filter_all {A} (P : A → Prop) `{∀ x, Decision (P x)} (l : list A) :
  Forall P l → filter P l = l.
Proof.
  induction 1 as [|x l Hx _ IH]; [done|].
  by rewrite filter_cons_True, IH.
Qed.

Section Strategy.
Context `{E : Pandas.Engine}.

(** X11.  The paragraph strategy on a section of paragraphs.  Take a
    section made of two or more groups of lines, each group not empty and
    made of lines that are not blank, with one blank line between two
    groups.  When the section has no pipe block, no comma block and fewer
    than two key-value lines, [parse_table_from_section] returns the
    method [paragraphs] and a frame with the single column [Paragraph]
    that has one row per group, in order: the lines of the group joined
    by line feeds and stripped. *)
Theorem paragraphs_of_section (groups : list (list text * text))
    (last_group : list text) :
  let lines := paragraph_lines groups last_group in
  groups ≠ [] →
  Forall (fun gb => gb.1 ≠ [] ∧ Forall plain_line gb.1 ∧ blank_line gb.2) groups →
  last_group ≠ [] → Forall plain_line last_group →
  extract_markdown_pipe_table lines = None →
  extract_csv_like_block lines = None →
  extract_key_value_block lines = None →
  parse_table_from_section lines
  = Ok (Some (Pandas.of_column (str "Paragraph")
                (map (fun g => strip (join LF g))
                     (map fst groups ++ [last_group]))),
        paragraphs).
Proof.
  intros lines Hne Hgroups Hlast Hplain Hmd Hcsv Hkv. subst lines.
  assert (Hplain_only :
    parse_table_from_section (paragraph_lines groups last_group)
    = parse_plain (paragraph_lines groups last_group)).
  { unfold parse_table_from_section, parse_from_csv. rewrite Hmd, Hcsv.
    destruct (paragraph_lines groups last_group) eqn:Hlines; [|done].
    by apply paragraph_lines_nonempty in Hlines. }
  set (paras := map (fun g => strip (join LF g))
                    (map fst groups ++ [last_group])).
  assert (Hblocked : Forall (fun g => blocked (join LF g))
                            (map fst groups ++ [last_group])).
  { apply Forall_app. split; [|by constructor; [apply join_plain_blocked|]].
    apply Forall_forall. intros x ([g b] & -> & Hin)%list_elem_of_fmap.
    apply (proj1 (Forall_forall _ _) Hgroups) in Hin as (? & ? & _).
    by apply join_plain_blocked. }
  assert (Hsplit :
    map strip (split re_blank_line
                 (strip (join LF (paragraph_lines groups last_group))))
    = paras).
  { rewrite join_paragraph_lines; [|
      by eapply Forall_impl; [exact Hgroups|intros ? (? & _)] | done].
    unfold paras. clear Hmd Hcsv Hkv Hplain_only Hblocked paras.
    destruct groups as [|[g b] groups]; [done|].
    apply Forall_cons in Hgroups as [(Hg & Hgp & Hb) Hgroups].
    simpl in Hg, Hgp, Hb. cbn [map fst snd].
    rewrite strip_paragraph_text;
      [|by apply join_plain_blocked|by apply join_plain_blocked].
    rewrite split_paragraphs.
    - cbn [map fst app]. rewrite !map_app, !map_map. cbn [map fst].
      unfold strip. by rewrite strip_by_lstrip, strip_by_rstrip.
    - constructor.
      + cbn [fst snd]. split; [by apply quiet_lstrip, join_plain_quiet|].
        split; [by apply blocked_lstrip, join_plain_blocked|].
        destruct Hb as [Hline Hblank]. apply single_line_inline; [done|].
        by apply isblank_spaces.
      + apply Forall_forall.
        intros pw ([g' b'] & -> & Hin)%list_elem_of_fmap.
        apply (proj1 (Forall_forall _ _) Hgroups) in Hin
          as (Hg' & Hgp' & [Hline Hblank]).
        cbn [fst snd] in *.
        split; [by apply join_plain_quiet|].
        split; [by apply join_plain_blocked|].
        apply single_line_inline; [done|]. by apply isblank_spaces.
    - by apply quiet_rstrip, join_plain_quiet.
    - by apply blocked_rstrip, join_plain_blocked. }
  assert (Hkeep : filter (fun p => is_empty p = false) paras = paras).
  { apply filter_all, Forall_forall.
    intros p (x & -> & Hx)%list_elem_of_fmap.
    apply (proj1 (Forall_forall _ _) Hblocked), blocked_strip_nonempty in Hx.
    by destruct (strip (join LF x)). }
  assert (Hlen : (1 <? length paras) = true).
  { apply Nat.ltb_lt. unfold paras.
    rewrite length_map, length_app, length_map. destruct groups; [done|].
    simpl. lia. }
  rewrite Hplain_only. unfold parse_plain. rewrite Hkv. cbv zeta.
  by rewrite Hsplit, Hkeep, Hlen.
Qed.

End Strategy.

End Paragraphs.

Lemma paragraphs_of_section_witness :
  let groups := [([str "  Plate read"; str "at 25 C "], str "  ")] in
  let last_group := [str "Operator A"] in
  FullContent.parse_table_from_section (E := Pandas.python_engine)
    (FullContent.paragraph_lines groups last_group)
  = Ok (Some (Pandas.of_column (str "Paragraph")
                (map (fun g => PyStr.strip (PyStr.join FullContent.LF g))
                     (map fst groups ++ [last_group]))),
        FullContent.paragraphs).
Proof.
  intros groups last_group.
  apply (paragraphs_of_section (E := Pandas.python_engine) groups last_group);
    try done.
  - repeat constructor; by vm_compute.
  - repeat constructor.
Defined.

(** ** The PDF extractor: the page loop and what follows it *)

Section ExtractorMore.
Import Extractor.
Variable create_message : string → nat → reply.
Variable create_summary : string → reply.
Variable json_loads : string → option json.
Variable read_metadata : string → gmap string string.
Variable save_all_formats : results → result unit.

Local Abbreviation analyze := (analyze_page_detailed create_message json_loads).
Local Abbreviation loop := (page_loop create_message json_loads).
Local Abbreviation extract :=
  (extract_pdf_with_vision create_message create_summary json_loads
     read_metadata save_all_formats).

Lemma append_assoc (a b c : string) : (a +:+ b) +:+ c = a +:+ (b +:+ c).
Proof.
  induction a as [|x a IH]; [reflexivity|].
  change (String x ((a +:+ b) +:+ c) = String x (a +:+ (b +:+ c))).
  by rewrite IH.
Qed.

Lemma append_nil_r (a : string) : a +:+ "" = a.
Proof.
  induction a as [|x a IH]; [reflexivity|].
  change (String x (a +:+ "") = String x a). by rewrite IH.
Qed.

Lemma page_number_analyze (img : string) (n : nat) :
  page_number (analyze img n) = n.
Proof.
  unfold analyze_page_detailed.
  destruct (reply_text (create_message img n)); simpl; [|done].
  by destruct (json_loads a).
Qed.

Lemma page_loop_result (imgs : list string) (n : nat) (r : results) :
  let new := imap (fun i img => analyze img (n + i + 1)) imgs in
  loop (map Ok imgs) n r
  = Ok (mkResults (pdf_path r) (metadata r) (pages r ++ new)
          (well_plate_data r) (standards_table r) (settings r) (samples_data r)
          (full_content r +:+ String.concat "" (map page_banner new))
          (summary r)).
Proof.
  revert n r. induction imgs as [|img imgs IH]; intros n r; cbv zeta.
  - simpl. rewrite app_nil_r, append_nil_r. by destruct r.
  - cbn [map page_loop bind]. rewrite IH. cbn [pdf_path metadata pages
      well_plate_data standards_table settings samples_data full_content summary].
    rewrite imap_cons.
    rewrite (imap_ext (fun i img0 => analyze img0 (S n + i + 1))
                      ((fun i img0 => analyze img0 (n + i + 1)) ∘ S))
      by (intros i x _; simpl; f_equal; lia).
    replace (n + 0 + 1) with (n + 1) by lia.
    set (new := imap _ imgs).
    f_equal. f_equal.
    + by rewrite <- app_assoc.
    + cbn [map].
      assert (Hconcat : ∀ x xs, String.concat "" (x :: xs) = x +:+ String.concat "" xs).
      { intros x [|y xs]; simpl; [by rewrite append_nil_r|done]. }
      rewrite Hconcat. rewrite append_assoc. f_equal.
      unfold page_banner. rewrite page_number_analyze.
      by rewrite !append_assoc.
Qed.


(** X12.  In a document whose pages all render, the page loop appends one
    record per page, numbered from 1 in page order, and appends to the
    full content, for each of these records in turn, two line feeds, the
    banner [=== PAGE N ===], a line feed and the text of the record.  It
    changes nothing else of the results. *)
Theorem page_loop_records (imgs : list string) (r0 : results) :
  ∃ new,
    loop (map Ok imgs) 0 r0
    = Ok (mkResults (pdf_path r0) (metadata r0) (pages r0 ++ new)
            (well_plate_data r0) (standards_table r0) (settings r0)
            (samples_data r0)
            (full_content r0 +:+ String.concat "" (map page_banner new))
            (summary r0))
    ∧ length new = length imgs
    ∧ ∀ i p, new !! i = Some p → page_number p = i + 1.
Proof.
  eexists. split; [apply page_loop_result|]. split.
  - apply length_imap.
  - intros i p Hp. apply list_lookup_imap_Some in Hp as (img & _ & ->).
    apply page_number_analyze.
Qed.

Lemma page_loop_rendered (doc : list (result string)) (n : nat) (r r' : results) :
  loop doc n r = Ok r' → ∃ imgs, doc = map Ok imgs.
Proof.
  revert n r. induction doc as [|[img|e] doc IH]; intros n r; simpl.
  - intros _. by exists [].
  - intros [imgs ->]%IH. by exists (img :: imgs).
  - done.
Qed.

Lemma probe_nothing (k1 k2 : string) (d : list (string * json)) :
  members d !! k1 = None → members d !! k2 = None →
  probe k1 k2 (JObj d) = Ok None.
Proof. intros H1 H2. rewrite probe_object. by rewrite H1, H2. Qed.

Lemma extend_loop_nothing (k1 k2 : string) (ps : list page) (acc : list json) :
  Forall (fun p => probe k1 k2 (structured_data p) = Ok None) ps →
  extend_loop k1 k2 ps acc = Ok acc.
Proof.
  induction 1 as [|p ps Hp _ IH]; [done|]. simpl. rewrite Hp. simpl. exact IH.
Qed.

Lemma update_loop_nothing (ps : list page) (acc : gmap string json) :
  Forall (fun p => probe "settings" "instrument_settings" (structured_data p)
                   = Ok None) ps →
  update_loop ps acc = Ok acc.
Proof.
  induction 1 as [|p ps Hp _ IH]; [done|]. simpl. rewrite Hp. simpl. exact IH.
Qed.

Lemma analyze_unparsed (img : string) (n : nat) (k1 k2 : string) :
  (∀ content, reply_text (create_message img n) = Ok content →
              json_loads content = None) →
  k1 ≠ "raw_content" → k2 ≠ "raw_content" →
  probe k1 k2 (structured_data (analyze img n)) = Ok None.
Proof.
  intros Hloads Hk1 Hk2. unfold analyze_page_detailed.
  destruct (reply_text (create_message img n)) as [content|e]; simpl; [|done].
  rewrite (Hloads content eq_refl).
  apply probe_nothing; unfold members; cbn [list_to_map foldr];
    (rewrite lookup_insert_ne by done); apply lookup_empty.
Qed.

Lemma page_loop_unrendered (doc : list (result string)) (n : nat) (r : results)
    (i : nat) (e : exn) :
  doc !! i = Some (Raise e) → ∃ e', loop doc n r = Raise e'.
Proof.
  intros Hdoc. destruct (loop doc n r) as [r'|e'] eqn:Hloop; [|eauto].
  destruct (page_loop_rendered _ _ _ _ Hloop) as [imgs ->].
  rewrite list_lookup_fmap in Hdoc. by destruct (imgs !! i).
Qed.

Lemma rendered_or_not (doc : list (result string)) :
  (∃ imgs, doc = map Ok imgs) ∨ (∃ i e, doc !! i = Some (Raise e)).
Proof.
  induction doc as [|[img|e] doc [[imgs ->]|(i & e' & Hi)]].
  - left. by exists [].
  - left. by exists (img :: imgs).
  - right. by exists (S i), e'.
  - right. by exists 0, e.
  - right. by exists 0, e.
Qed.

Lemma extract_unrendered (path : string) (doc : list (result string))
    (i : nat) (e : exn) :
  doc !! i = Some (Raise e) → extract path (Ok doc) = None.
Proof.
  intros Hdoc. unfold extract_pdf_with_vision. cbn [bind].
  by destruct (page_loop_unrendered doc 0
                 (mkResults path (read_metadata path) [] [] [] ∅ [] "" "")
                 i e Hdoc) as [e' ->].
Qed.

(** The function on a document whose pages all render, step by step. *)
Lemma extract_rendered (path : string) (imgs : list string) :
  extract path (Ok (map Ok imgs))
  = let new := imap (fun i img => analyze img (i + 1)) imgs in
    let full := String.concat "" (map page_banner new) in
    let attempt :=
      let* ws := extend_loop "well_plate_data" "wells" new [] in
      let* ss := extend_loop "standards_table" "standards" new [] in
      let* st := update_loop new ∅ in
      let* sa := extend_loop "samples" "sample_data" new [] in
      let r := mkResults path (read_metadata path) new ws ss st sa full
                 (generate_summary create_summary full) in
      let* _ := save_all_formats r in
      Ok r in
    match attempt with
    | Ok r => Some r
    | Raise _ => None
    end.
Proof.
  unfold extract_pdf_with_vision. cbn [bind].
  rewrite page_loop_result.
  change (imap (fun i img => analyze img (0 + i + 1)) imgs)
    with (imap (fun i img => analyze img (i + 1)) imgs).
  cbv zeta. set (new := imap (fun i img => analyze img (i + 1)) imgs).
  cbn [bind pdf_path metadata pages well_plate_data standards_table settings
       samples_data full_content summary app].
  change ("" +:+ String.concat "" (map page_banner new))
    with (String.concat "" (map page_banner new)).
  set (full := String.concat "" (map page_banner new)).
  unfold extract_well_plate_data. cbn [pages].
  destruct (extend_loop "well_plate_data" "wells" new []) as [ws|e]; [|done].
  cbn [bind pdf_path metadata pages well_plate_data standards_table settings
       samples_data full_content summary].
  unfold extract_standards_table. cbn [pages].
  destruct (extend_loop "standards_table" "standards" new []) as [ss|e]; [|done].
  cbn [bind pdf_path metadata pages well_plate_data standards_table settings
       samples_data full_content summary].
  unfold extract_settings. cbn [pages settings].
  destruct (update_loop new ∅) as [st|e]; [|done].
  cbn [bind pdf_path metadata pages well_plate_data standards_table settings
       samples_data full_content summary].
  unfold extract_samples_data. cbn [pages].
  destruct (extend_loop "samples" "sample_data" new []) as [sa|e]; [|done].
  cbn [bind pdf_path metadata pages well_plate_data standards_table settings
       samples_data full_content summary].
  done.
Qed.

(** X13.  When no reply of the model is, as a whole, a JSON text (for
    instance a reply that wraps its JSON in a code fence or in a
    sentence), every page is recorded, with its text, but nothing is
    aggregated: the well-plate list, the standards list, the settings and
    the samples list of the result returned and saved are all empty. *)
Theorem unparsed_replies_leave_aggregates_empty (path : string)
    (imgs : list string) :
  (∀ i img content,
     imgs !! i = Some img →
     reply_text (create_message img (i + 1)) = Ok content →
     json_loads content = None) →
  (∀ r, save_all_formats r = Ok tt) →
  ∃ r,
    extract path (Ok (map Ok imgs)) = Some r
    ∧ length (pages r) = length imgs
    ∧ well_plate_data r = [] ∧ standards_table r = []
    ∧ settings r = ∅ ∧ samples_data r = [].
Proof.
  intros Hloads Hsave. rewrite extract_rendered. cbv zeta.
  set (new := imap (fun i img => analyze img (i + 1)) imgs).
  assert (Hnew : ∀ k1 k2, k1 ≠ "raw_content" → k2 ≠ "raw_content" →
            Forall (fun p => probe k1 k2 (structured_data p) = Ok None) new).
  { intros k1 k2 Hk1 Hk2. apply Forall_lookup. intros i p Hp.
    apply list_lookup_imap_Some in Hp as (img & Himg & ->).
    apply analyze_unparsed; [|done..].
    intros content. by apply Hloads. }
  rewrite !extend_loop_nothing by (by apply Hnew).
  rewrite update_loop_nothing by (by apply Hnew).
  cbn [bind]. rewrite Hsave. cbn [bind].
  eexists. split; [reflexivity|].
  cbn [pages well_plate_data standards_table settings samples_data].
  repeat split. apply length_imap.
Qed.

Lemma extend_loop_scalar (k1 k2 : string) (ps : list page) (acc : list json)
    (p : page) :
  p ∈ ps → is_scalar (structured_data p) = true →
  ∃ e, extend_loop k1 k2 ps acc = Raise e.
Proof.
  intros Hp Hscalar. revert acc.
  induction Hp as [p ps|p p0 ps _ IH]; intros acc; simpl.
  - destruct (structured_data p); try discriminate Hscalar;
      eexists; reflexivity.
  - destruct (probe k1 k2 (structured_data p0)) as [v|e]; [|by eexists].
    cbn [bind].
    destruct (match v with Some x => py_extend acc x | None => Ok acc end)
      as [acc'|e]; [|by eexists].
    cbn [bind]. by apply IH.
Qed.

(** X14.  A page whose reply decodes to a JSON number, boolean or [null]
    makes the whole extraction return [None]: the membership test of the
    first merge step raises on it, outside the per-page [try], and the
    outer handler drops the records of all pages; nothing is saved. *)
Theorem scalar_reply_aborts_extraction (path : string)
    (doc : list (result string)) (i : nat) (img content : string) (v : json) :
  doc !! i = Some (Ok img) →
  reply_text (create_message img (i + 1)) = Ok content →
  json_loads content = Some v →
  is_scalar v = true →
  extract path (Ok doc) = None.
Proof.
  intros Hdoc Hreply Hloads Hscalar.
  destruct (rendered_or_not doc) as [[imgs ->]|(j & e' & Hj)].
  - rewrite extract_rendered. cbv zeta.
    destruct (extend_loop_scalar "well_plate_data" "wells"
                (imap (fun i img => analyze img (i + 1)) imgs) []
                (analyze img (i + 1))) as [e He].
    + rewrite list_lookup_fmap in Hdoc.
      destruct (imgs !! i) as [img'|] eqn:Himg; [|done]. injection Hdoc as ->.
      apply list_elem_of_lookup. exists i. rewrite list_lookup_imap, Himg. done.
    + unfold analyze_page_detailed. rewrite Hreply. simpl. by rewrite Hloads.
    + by rewrite He.
  - by rewrite (extract_unrendered _ _ _ _ Hj).
Qed.

(** X15.  The page loop guards the analysis of a page, not its rendering:
    when one page fails to load or to render, the extraction returns
    [None], whatever the other pages gave. *)
Theorem render_failure_aborts_extraction (path : string)
    (doc : list (result string)) (i : nat) (e : exn) :
  doc !! i = Some (Raise e) →
  extract path (Ok doc) = None.
Proof.
  apply extract_unrendered.
Qed.

(** X16.  What a result of [extract_pdf_with_vision] is.  When the
    function returns a result, the document opened and all its pages
    rendered; the result has the path and the metadata read for it, one
    record per page in page order, the full content made of the banners
    and texts of these records, the four aggregates the merge loops
    compute from these records (the settings from the empty dictionary),
    the summary generated from the full content, and it is the value the
    output files were written from. *)
Theorem extract_pdf_with_vision_result (path : string)
    (opened : result (list (result string))) (r : results) :
  extract path opened = Some r →
  ∃ imgs,
    opened = Ok (map Ok imgs)
    ∧ pdf_path r = path
    ∧ metadata r = read_metadata path
    ∧ pages r = imap (fun i img => analyze img (i + 1)) imgs
    ∧ full_content r = String.concat "" (map page_banner (pages r))
    ∧ extend_loop "well_plate_data" "wells" (pages r) [] = Ok (well_plate_data r)
    ∧ extend_loop "standards_table" "standards" (pages r) [] = Ok (standards_table r)
    ∧ update_loop (pages r) ∅ = Ok (settings r)
    ∧ extend_loop "samples" "sample_data" (pages r) [] = Ok (samples_data r)
    ∧ summary r = generate_summary create_summary (full_content r)
    ∧ save_all_formats r = Ok tt.
Proof.
  destruct opened as [doc|e]; [|done].
  destruct (rendered_or_not doc) as [[imgs ->]|(j & e' & Hj)].
  - rewrite extract_rendered. cbv zeta.
    set (new := imap (fun i img => analyze img (i + 1)) imgs).
    destruct (extend_loop "well_plate_data" "wells" new []) as [ws|e] eqn:Hws; [|done].
    destruct (extend_loop "standards_table" "standards" new []) as [ss|e] eqn:Hss; [|done].
    destruct (update_loop new ∅) as [st|e] eqn:Hst; [|done].
    destruct (extend_loop "samples" "sample_data" new []) as [sa|e] eqn:Hsa; [|done].
    cbn [bind].
    destruct (save_all_formats _) as [[]|e] eqn:Hsave; [|done]. cbn [bind].
    intros [= <-]. exists imgs.
    cbn [pdf_path metadata pages well_plate_data standards_table settings
         samples_data full_content summary].
    repeat split; try done.
  - by rewrite (extract_unrendered _ _ _ _ Hj).
Qed.





End ExtractorMore.



Lemma unparsed_replies_witness :
  let create_message (img : string) (page_num : nat) :=
    Extractor.Message [Extractor.TextBlock "Here is the data: {}"] in
  let create_summary (prompt : string) := Extractor.Message [Extractor.TextBlock "ok"] in
  let json_loads (s : string) : option Extractor.json := None in
  ∃ r,
    Extractor.extract_pdf_with_vision create_message create_summary json_loads
      (fun _ => ∅) (fun _ => Ok tt) "plate.pdf" (Ok (map Ok ["img1"; "img2"]))
    = Some r
    ∧ length (Extractor.pages r) = 2
    ∧ Extractor.well_plate_data r = [] ∧ Extractor.standards_table r = []
    ∧ Extractor.settings r = ∅ ∧ Extractor.samples_data r = [].
Proof.
  intros create_message create_summary json_loads.
  apply (unparsed_replies_leave_aggregates_empty create_message create_summary
           json_loads (fun _ => ∅) (fun _ => Ok tt) "plate.pdf" ["img1"; "img2"]).
  - reflexivity.
  - reflexivity.
Defined.

Lemma scalar_reply_witness :
  let create_message (img : string) (page_num : nat) :=
    Extractor.Message [Extractor.TextBlock (if page_num =? 2 then "42" else "{}")] in
  let create_summary (prompt : string) := Extractor.Message [Extractor.TextBlock "ok"] in
  let json_loads (s : string) : option Extractor.json :=
    if String.eqb s "42" then Some (Extractor.JNum "42") else Some (Extractor.JObj []) in
  Extractor.extract_pdf_with_vision create_message create_summary json_loads
    (fun _ => ∅) (fun _ => Ok tt) "plate.pdf" (Ok (map Ok ["img1"; "img2"; "img3"]))
  = None.
Proof.
  intros create_message create_summary json_loads.
  apply (scalar_reply_aborts_extraction create_message create_summary json_loads
           (fun _ => ∅) (fun _ => Ok tt) "plate.pdf"
           (map Ok ["img1"; "img2"; "img3"]) 1 "img2" "42" (Extractor.JNum "42")).
  - reflexivity.
  - reflexivity.
  - reflexivity.
  - reflexivity.
Defined.

Lemma render_failure_witness :
  let create_message (img : string) (page_num : nat) :=
    Extractor.Message [Extractor.TextBlock "{}"] in
  let create_summary (prompt : string) := Extractor.Message [Extractor.TextBlock "ok"] in
  let json_loads (s : string) : option Extractor.json := Some (Extractor.JObj []) in
  Extractor.extract_pdf_with_vision create_message create_summary json_loads
    (fun _ => ∅) (fun _ => Ok tt) "plate.pdf"
    (Ok [Ok "img1"; Raise (Exn ValueError "cannot render page"); Ok "img3"])
  = None.
Proof.
  intros create_message create_summary json_loads.
  apply (render_failure_aborts_extraction create_message create_summary json_loads
           (fun _ => ∅) (fun _ => Ok tt) "plate.pdf"
           [Ok "img1"; Raise (Exn ValueError "cannot render page"); Ok "img3"]
           1 (Exn ValueError "cannot render page")).
  reflexivity.
Defined.

Lemma extract_pdf_with_vision_result_witness :
  let create_message (img : string) (page_num : nat) :=
    Extractor.Message [Extractor.TextBlock "{}"] in
  let create_summary (prompt : string) := Extractor.Message [Extractor.TextBlock "ok"] in
  let json_loads (s : string) : option Extractor.json := Some (Extractor.JObj []) in
  let r := Extractor.mkResults "plate.pdf" ∅
             [Extractor.mkPage 1 "{}" (Extractor.JObj [])] [] [] ∅ []
             (Extractor.NL +:+ Extractor.NL +:+ "=== PAGE 1 ===" +:+ Extractor.NL +:+ "{}")
             "No substantial content found for summary." in
  Extractor.extract_pdf_with_vision create_message create_summary json_loads
    (fun _ => ∅) (fun _ => Ok tt) "plate.pdf" (Ok [Ok "img1"])
  = Some r
  ∧ Extractor.full_content r
    = String.concat "" (map Extractor.page_banner (Extractor.pages r)).
Proof.
  intros create_message create_summary json_loads r.
  assert (Hr : Extractor.extract_pdf_with_vision create_message create_summary
                 json_loads (fun _ => ∅) (fun _ => Ok tt) "plate.pdf" (Ok [Ok "img1"])
               = Some r) by (vm_compute; reflexivity).
  split; [exact Hr|].
  destruct (extract_pdf_with_vision_result _ _ _ _ _ _ _ _ Hr)
    as (imgs & _ & _ & _ & _ & Hfull & _).
  exact Hfull.
Defined.

(** ** The files the PDF extractor writes *)

Section CsvExport.
Import Extractor.
Variable py_str : json → string.
Variable json_dumps : json → string.

Local Abbreviation export := (save_as_detailed_csv py_str json_dumps).
Local Abbreviation fields_ok :=
  (Forall (fun row : list string => length row = 0 ∨ length row = 5 ∨ length row = 6)).

Lemma fields_ok_map {A} (f : A → list string) (l : list A) :
  (∀ x, length (f x) = 5) → fields_ok (map f l).
Proof.
  intros Hf. apply Forall_forall. intros row Hrow.
  apply list_elem_of_In, in_map_iff in Hrow as (x & <- & _). auto.
Qed.

Lemma entry_rows_fields (f : json → list (list string)) (l : list json) :
  (∀ v, fields_ok (f v)) → fields_ok (concat (map f l)).
Proof.
  intros Hf. induction l as [|v l IH]; simpl; [constructor|].
  apply Forall_app. split; [apply Hf|exact IH].
Qed.

Lemma entry_rows_length (f : json → list (list string)) (l : list json) :
  (∀ v, length (f v) = if is_object v then 1 else 0) →
  length (concat (map f l)) = length (filter (fun v => is_object v = true) l).
Proof.
  intros Hf. induction l as [|v l IH]; simpl; [done|].
  rewrite length_app, Hf, IH, filter_cons.
  destruct (is_object v); simpl; [|done].
  destruct (decide (true = true)); [done|done].
Qed.

(** X17.  The rows [save_as_detailed_csv] writes are ragged.  The first
    row is the header, with five fields; every row has no field, five
    fields or six; and the title row of the standards, which has six
    fields, is written for every result, whatever the standards are. *)
Theorem save_as_detailed_csv_fields (r : results) :
  head (export r)
  = Some ["Section"; "Category"; "Field"; "Value"; "Additional_Info"]
  ∧ fields_ok (export r)
  ∧ ["STANDARDS"; "Sample"; "Concentration"; "Well"; "Value"; "Back_Calc"]
    ∈ export r.
Proof.
  split; [done|]. split.
  - unfold save_as_detailed_csv.
    repeat (apply Forall_app; split);
      first [ apply fields_ok_map; intros x; simpl; by auto
            | apply entry_rows_fields; intros [| | | | |d]; repeat constructor;
              simpl; by auto
            | repeat constructor; simpl; by auto ].
  - unfold save_as_detailed_csv.
    do 10 (apply elem_of_app; right). apply elem_of_app. left.
    right. left.
Qed.

(** X18.  How many rows [save_as_detailed_csv] writes: the eighteen fixed
    rows (header, titles, separators and the summary), one per entry of
    the metadata and of the settings, one per well, standard and sample
    that is a dictionary (the other entries are skipped without an
    error), and one per page.  The rows of the pages come last; each holds
    the page number and the first 200 characters at most of the text of
    the page, followed by three dots even when nothing was cut.  The path
    of the PDF and the full content are not written. *)
Theorem save_as_detailed_csv_rows (r : results) :
  length (export r)
  = 18 + size (metadata r) + size (settings r)
    + length (filter (fun v => is_object v = true) (well_plate_data r))
    + length (filter (fun v => is_object v = true) (standards_table r))
    + length (filter (fun v => is_object v = true) (samples_data r))
    + length (pages r)
  ∧ (∃ before, export r = before ++ map (page_row) (pages r))
  ∧ (∀ p, p ∈ pages r →
          ∃ excerpt, page_row p = ["PAGE"; "Page_" +:+ nat_to_string (page_number p);
                                   excerpt +:+ "..."; ""; ""]
                     ∧ String.length excerpt ≤ 200
                     ∧ String.prefix excerpt (text_content p) = true)
  ∧ (∀ path content,
       export (mkResults path (metadata r) (pages r) (well_plate_data r)
                 (standards_table r) (settings r) (samples_data r) content
                 (summary r))
       = export r).
Proof.
  split; [|split; [|split]].
  - unfold save_as_detailed_csv. rewrite !length_app, !length_map.
    rewrite !entry_rows_length by (by intros [| | | | |d]).
    rewrite !length_map_to_list. simpl. lia.
  - unfold save_as_detailed_csv. eexists.
    rewrite !app_assoc. reflexivity.
  - intros p _. exists (String.substring 0 200 (text_content p)).
    split; [done|].
    assert (Hsub : ∀ n s, String.length (String.substring 0 n s) ≤ n
                          ∧ String.prefix (String.substring 0 n s) s = true).
    { induction n as [|n IH]; intros [|c s]; simpl; try (split; [lia|done]).
      destruct (IH s) as [Hlen Hpre]. split; [lia|].
      destruct (ascii_dec c c); [done|done]. }
    apply Hsub.
  - done.
Qed.

End CsvExport.

Section TxtExport.
Import PyStr Extractor.
Variable json_dumps_indent : json → string.

Local Abbreviation export := (save_as_txt json_dumps_indent).

Lemma str_app (a b : string) : str (a +:+ b) = str a ++ str b.
Proof.
  induction a as [|x a IH]; [reflexivity|].
  change (x :: str (a +:+ b) = x :: (str a ++ str b)). by rewrite IH.
Qed.

Lemma concat_cons (x : string) (xs : list string) :
  String.concat "" (x :: xs) = x +:+ String.concat "" xs.
Proof. destruct xs; simpl; [by rewrite append_nil_r|done]. Qed.

Lemma concat_app (xs ys : list string) :
  String.concat "" (xs ++ ys) = String.concat "" xs +:+ String.concat "" ys.
Proof.
  induction xs as [|x xs IH]; [reflexivity|].
  rewrite <- app_comm_cons, !concat_cons, IH. by rewrite append_assoc.
Qed.

(** The first line of a text that starts with a line and a line feed. *)
Lemma splitlines_head (l b : text) :
  single_line l → head (splitlines (l ++ "010"%char :: b)) = Some l.
Proof.
  induction 1 as [|c l Hc _ IH].
  - simpl. by destruct b.
  - cbn [app splitlines]. rewrite Hc.
    destruct (splitlines (l ++ "010"%char :: b)); [done|].
    simpl in *. by injection IH as ->.
Qed.

Lemma splitlines_cons (c : ascii) (s : text) :
  splitlines (c :: s)
  = if islinebreak c then
      match s with
      | d :: s' =>
          if Ascii.eqb c "013" && Ascii.eqb d "010"
          then [] :: splitlines s' else [] :: splitlines s
      | [] => [[]]
      end
    else
      match splitlines s with
      | [] => [[c]]
      | l :: ls => (c :: l) :: ls
      end.
Proof. reflexivity. Qed.

(** A line between two line feeds is a line of the text. *)
Lemma splitlines_has_line (n : nat) (a l b : text) :
  length a ≤ n → single_line l → l ≠ [] →
  ∃ first rest,
    splitlines (a ++ "010"%char :: l ++ "010"%char :: b) = first :: rest
    ∧ l ∈ rest.
Proof.
  intros Hn Hl Hne. revert a Hn.
  set (tl := l ++ "010"%char :: b).
  assert (Hhead : l ∈ splitlines tl).
  { pose proof (splitlines_head l b Hl) as Hh. fold tl in Hh.
    destruct (splitlines tl); [done|].
    injection Hh as ->. left. }
  assert (Htl : splitlines ("010"%char :: tl) = [] :: splitlines tl).
  { rewrite splitlines_cons. unfold tl. destruct l; [done|]. done. }
  induction n as [|n IH]; intros a Hn.
  - destruct a; [|simpl in Hn; lia]. cbn [app]. rewrite Htl. eauto.
  - destruct a as [|c a]; [cbn [app]; rewrite Htl; eauto|].
    simpl in Hn. cbn [app]. rewrite splitlines_cons.
    destruct (islinebreak c) eqn:Hc.
    + destruct a as [|d a].
      * cbn [app]. destruct (Ascii.eqb c "013" && Ascii.eqb "010" "010") eqn:Hcr.
        -- eauto.
        -- rewrite Htl. eexists _, _. split; [done|]. by right.
      * cbn [app]. destruct (Ascii.eqb c "013" && Ascii.eqb d "010").
        -- destruct (IH a ltac:(simpl in *; lia)) as (first & rest & Heq & Hin).
           rewrite Heq. eexists _, _. split; [done|]. by right.
        -- destruct (IH (d :: a) ltac:(simpl in *; lia)) as (first & rest & Heq & Hin).
           cbn [app] in Heq. rewrite Heq. eexists _, _. split; [done|]. by right.
    + destruct (IH a ltac:(lia)) as (first & rest & Heq & Hin).
      rewrite Heq. eauto.
Qed.

(** X19.  The text file of [save_as_txt] ends with the full content, and
    [find_full_content_section] of the other script always finds an
    exact header in it: the file has the line
    [COMPLETE EXTRACTED CONTENT], so the locator never falls back on the
    heuristic headers and never reports that the section is missing. *)
Theorem txt_export_has_full_content_section (r : results) :
  (∃ before, export r = before +:+ full_content r)
  ∧ ∃ body idx hdr,
      FullContent.find_full_content_section (str (export r)) = Some (body, idx, hdr)
      ∧ FullContent.is_exact_header hdr = true.
Proof.
  assert (Hsplit : ∃ before,
            export r
            = before +:+ NL +:+ "COMPLETE EXTRACTED CONTENT" +:+ NL
              +:+ rule +:+ NL +:+ full_content r).
  { unfold save_as_txt, save_as_txt_writes.
    rewrite !app_assoc.
    rewrite <- (app_assoc _ (titled "COMPLETE EXTRACTED CONTENT") [full_content r]).
    rewrite concat_app.
    set (pre := String.concat "" _).
    unfold titled. cbn [app]. rewrite !concat_cons.
    change (String.concat "" []) with "". rewrite append_nil_r.
    exists (pre +:+ rule). by rewrite !append_assoc. }
  destruct Hsplit as [before Hsplit]. split.
  - rewrite Hsplit. eexists. rewrite <- !append_assoc. reflexivity.
  - rewrite Hsplit. rewrite !str_app.
    set (l := str "COMPLETE EXTRACTED CONTENT").
    destruct (splitlines_has_line (length (str before)) (str before) l
                (str rule ++ "010"%char :: str (full_content r)))
      as (first & rest & Hlines & Hin); [done|by repeat constructor|done|].
    unfold FullContent.find_full_content_section.
    assert (Hnl : ∀ x, str NL ++ x = "010"%char :: x) by done.
    rewrite !Hnl, Hlines.
    destruct (list_find_elem_of (fun ln => FullContent.is_exact_header ln = true)
                (first :: rest) l) as [[i hdr] Hfind]; [by right|done|].
    rewrite Hfind. apply list_find_Some in Hfind as (_ & Hexact & _).
    by eexists _, _, _.
Qed.

End TxtExport.

(** ** The key-value converter *)

Section Converter.
Import PyStr Scripts.




End Converter.

